(** * Intent Recognition nodes: keyword classifier, parameter extraction, routing

    A shallow embedding of [execute], [configuredOutputs] and
    [getFallbackOutputOptions] of
    [src/nodes/IntentRecognition/IntentRecognition.node.ts] and of
    [ConversationAppend.execute] of
    [src/credentials/IntentRecognitionApi.credentials.ts], and the properties
    of their specification settled on that embedding.

    Conventions of the model.
    - A JavaScript [number] is an IEEE-754 binary64 value: Rocq's primitive
      [float].  [a / b] is [PrimFloat.div], [a >= b] is [PrimFloat.leb b a].
    - A JavaScript string is a [string], one character per code unit;
      [split], [includes] and [substring] below are the built-ins of the same
      name.  [toLowerCase] and the white space [trim] strips follow the
      Unicode tables of the engine: they are fields of [Engine].
    - The payload of a record is plain data: [null], booleans, numbers,
      strings, arrays and objects whose prototype is [Object.prototype].  An
      object is the association list of its own properties in property order
      ([JsObject]).  What a property read finds on [Object.prototype] when
      the object has no own property of the name is [getProperty]'s.
    - [Number::toString], the source text of a built-in function and the
      clock behind [new Date().toISOString()] are the engine's too.
    - The messages of the [TypeError]s the engine raises are V8's, the engine
      n8n runs on. *)

From Stdlib Require Import ZArith NArith List Bool Ascii String Floats Uint63 DecimalString Lia.
From stdpp Require Import base option list.

Set Warnings "-register-all".

Local Open Scope list_scope.
Local Open Scope string_scope.

(** ** JavaScript strings *)

Module JsString.

Section Trim.

(** The white space and line terminator characters [trim] strips. *)
Variable isWhiteSpace : ascii -> bool.

Fixpoint trimStart (s : string) : string :=
  match s with
  | EmptyString => EmptyString
  | String c t => if isWhiteSpace c then trimStart t else s
  end.

Fixpoint trimEnd (s : string) : string :=
  match s with
  | EmptyString => EmptyString
  | String c t =>
      match trimEnd t with
      | EmptyString => if isWhiteSpace c then EmptyString else String c EmptyString
      | t' => String c t'
      end
  end.

(** [s.trim()] *)
Definition trim (s : string) : string := trimEnd (trimStart s).

End Trim.

(** [s.split(sep)] for a one-character separator: never the empty list,
    [split sep ""] is [[""]], and adjacent or trailing separators give
    empty tokens. *)
Fixpoint split (sep : ascii) (s : string) : list string :=
  match s with
  | EmptyString => [EmptyString]
  | String c t =>
      if Ascii.eqb c sep then EmptyString :: split sep t
      else match split sep t with
           | tok :: rest => String c tok :: rest
           | [] => [String c EmptyString]
           end
  end.

(** [text.includes(k)]: [k] occurs in [text] as a contiguous substring. *)
Fixpoint includes (text k : string) : bool :=
  String.prefix k text
  || match text with
     | EmptyString => false
     | String _ t => includes t k
     end.

(** [s.substring(0, n)] *)
Definition substring0 (n : nat) (s : string) : string := String.substring 0 n s.

(** Joining with a separator, as [Array.prototype.join] does. *)
Fixpoint join (sep : string) (l : list string) : string :=
  match l with
  | [] => EmptyString
  | [x] => x
  | x :: rest => x ++ sep ++ join sep rest
  end.

(** A string is truthy when it is not empty. *)
Definition nonEmpty (s : string) : bool :=
  match s with EmptyString => false | String _ _ => true end.

Definition comma : ascii := "044"%char.
Definition dquote : ascii := "034"%char.
Definition backslash : ascii := "092"%char.

(** The value of a string of decimal digits, read from [acc] on. *)
Fixpoint digitsValue (s : string) (acc : N) : option N :=
  match s with
  | EmptyString => Some acc
  | String c t =>
      let n := N_of_ascii c in
      if ((48 <=? n) && (n <=? 57))%N then digitsValue t (acc * 10 + (n - 48))%N
      else None
  end.

(** A property name that is an array index: the canonical decimal numeral
    of an integer from 0 to 2^32 - 2. *)
Definition arrayIndex (k : string) : option N :=
  match k with
  | EmptyString => None
  | String c t =>
      if Ascii.eqb c "0"%char && nonEmpty t then None
      else
        match digitsValue k 0 with
        | Some n => if (n <=? 4294967294)%N then Some n else None
        | None => None
        end
  end.

End JsString.

(** ** JavaScript values and objects *)

(** The JSON-shaped values a record's payload holds.  An object keeps its
    own properties in property order. *)
Inductive JsValue : Type :=
| JNull
| JBool (b : bool)
| JNum (x : float)
| JStr (s : string)
| JArr (elems : list JsValue)
| JObj (fields : list (string * JsValue)).

Definition JsObject : Type := list (string * JsValue).

(** The own property [k] of [o]; [None] when [o] has none. *)
Fixpoint getProp (k : string) (o : JsObject) : option JsValue :=
  match o with
  | [] => None
  | (k', v) :: rest => if String.eqb k k' then Some v else getProp k rest
  end.

(** A [k: v] that follows a spread in an object literal, for a name [k]
    that is no array index: an existing property is overwritten where it
    stands, a new one is appended. *)
Fixpoint setProp (k : string) (v : JsValue) (o : JsObject) : JsObject :=
  match o with
  | [] => [(k, v)]
  | (k', v') :: rest =>
      if String.eqb k k' then (k, v) :: rest else (k', v') :: setProp k v rest
  end.

(** [Object.prototype.hasOwnProperty.call(o, k)] *)
Definition hasOwnProperty (o : JsObject) (k : string) : bool :=
  match getProp k o with Some _ => true | None => false end.

(** A new property named by the array index [n] goes before the first
    property that is no array index or a greater one. *)
Fixpoint insertIndex (n : N) (k : string) (v : JsValue) (o : JsObject) : JsObject :=
  match o with
  | [] => [(k, v)]
  | (k', v') :: rest =>
      match JsString.arrayIndex k' with
      | Some m => if (m <? n)%N then (k', v') :: insertIndex n k v rest else (k, v) :: o
      | None => (k, v) :: o
      end
  end.

(** CreateDataProperty on an ordinary object: an existing property keeps its
    place; a new one is placed by the order of own property keys, array
    indices first, in ascending order, then the other names in creation
    order. *)
Definition createDataProperty (k : string) (v : JsValue) (o : JsObject) : JsObject :=
  match getProp k o with
  | Some _ => setProp k v o
  | None =>
      match JsString.arrayIndex k with
      | Some n => insertIndex n k v o
      | None => (o ++ [(k, v)])%list
      end
  end.

(** The names of the functions every plain object inherits from
    [Object.prototype]. *)
Definition objectPrototypeMethods : list string :=
  ["constructor"; "hasOwnProperty"; "isPrototypeOf"; "propertyIsEnumerable";
   "toLocaleString"; "toString"; "valueOf";
   "__defineGetter__"; "__defineSetter__"; "__lookupGetter__"; "__lookupSetter__"].

(** What [o[k]] finds on a plain object: an own property, else a function of
    [Object.prototype], else [Object.prototype] itself under the name
    [__proto__], else [undefined]. *)
Inductive Property : Type :=
| OwnValue (v : JsValue)
| InheritedMethod (name : string)
| InheritedProto
| Undefined.

Definition getProperty (o : JsObject) (k : string) : Property :=
  match getProp k o with
  | Some v => OwnValue v
  | None =>
      if String.eqb k "__proto__" then InheritedProto
      else if existsb (String.eqb k) objectPrototypeMethods then InheritedMethod k
      else Undefined
  end.

(** ToBoolean: [null], [false], [0], [-0], [NaN] and the empty string are
    falsy, everything else (every array and object too) is truthy. *)
Definition truthy (v : JsValue) : bool :=
  match v with
  | JNull => false
  | JBool b => b
  | JNum x => negb (PrimFloat.eqb x 0%float || PrimFloat.is_nan x)
  | JStr s => JsString.nonEmpty s
  | JArr _ | JObj _ => true
  end.

(** ToBoolean of a property read: a function and [Object.prototype] are
    truthy, [undefined] is falsy. *)
Definition truthyProperty (p : Property) : bool :=
  match p with
  | OwnValue v => truthy v
  | InheritedMethod _ | InheritedProto => true
  | Undefined => false
  end.

(** An array length as a number (exact below 2^53). *)
Definition float_of_nat (n : nat) : float :=
  PrimFloat.of_uint63 (Uint63.of_Z (Z.of_nat n)).

Module Json.

Definition hexDigit (n : nat) : ascii :=
  if (n <? 10)%nat then ascii_of_nat (48 + n) else ascii_of_nat (87 + n).

(** The escape of one character inside a JSON string literal. *)
Definition escapeChar (c : ascii) : string :=
  let one (e : ascii) := String JsString.backslash (String e EmptyString) in
  let n := nat_of_ascii c in
  if Ascii.eqb c JsString.dquote then one JsString.dquote
  else if Ascii.eqb c JsString.backslash then one JsString.backslash
  else if (n =? 8)%nat then one "b"%char
  else if (n =? 12)%nat then one "f"%char
  else if (n =? 10)%nat then one "n"%char
  else if (n =? 13)%nat then one "r"%char
  else if (n =? 9)%nat then one "t"%char
  else if (n <? 32)%nat then
    String JsString.backslash
      ("u00" ++ String (hexDigit (n / 16)) (String (hexDigit (n mod 16)) EmptyString))
  else String c EmptyString.

Fixpoint escape (s : string) : string :=
  match s with
  | EmptyString => EmptyString
  | String c t => escapeChar c ++ escape t
  end.

(** QuoteJSONString *)
Definition quote (s : string) : string :=
  String JsString.dquote (escape s ++ String JsString.dquote EmptyString).

End Json.

(** ** The node's configuration and data *)

(** One entry of [intent.parameters.parameterOptions]. *)
Record ParameterOption : Type := {
  param_key : string;
  param_type : string;
  param_required : bool;
  param_defaultValue : string
}.

(** One entry of [intentsList.intentOptions].  [keywords] and [outputKey] are
    optional, and [parameters] is [None] when [intent.parameters] or its
    [parameterOptions] is missing. *)
Record Intent : Type := {
  key : string;
  description : string;
  keywords : option string;
  outputKey : option string;
  parameters : option (list ParameterOption)
}.

(** The [options] collection: every entry may be left out. *)
Record Options : Type := {
  opt_caseSensitive : option bool;
  opt_confidenceThreshold : option float;
  opt_inputField : option string
}.

(** What [execute] reads from [this]: the node parameters and the
    continue-on-fail setting. *)
Record ExecuteContext : Type := {
  intentOptions : list Intent;
  fallbackBehavior : string;
  options : Options;
  continueOnFail : bool
}.

(** The binary attachments of an item, carried along as they are. *)
Definition IBinaryKeyData : Type := list (string * string).

Record INodeExecutionData : Type := {
  json : JsObject;
  binary : option IBinaryKeyData;
  pairedItem : option nat
}.

(** The two kinds of error the routines raise: the node's own
    [NodeOperationError], and the engine's [TypeError]. *)
Inductive JsError : Type :=
| NodeOperationError (message : string) (itemIndex : nat)
| TypeError (message : string).

Definition error_message (e : JsError) : string :=
  match e with
  | NodeOperationError m _ => m
  | TypeError m => m
  end.

(** How a call ends: with its return value, or with the error it throws. *)
Inductive ExecResult (A : Type) : Type :=
| Returned (value : A)
| Failed (error : JsError).
Arguments Returned {A} value.
Arguments Failed {A} error.

(** What the intent loop leaves: its four variables, and the error that left
    the loop when one did.  [extractedParameters] lists the own properties
    of that object, which are what the emitted record holds as data; its
    prototype, which only an assignment to [__proto__] changes, is kept in
    [ParameterObject] while the object is built. *)
Record Recognition : Type := {
  recognizedIntentIndex : Z;
  recognizedIntentKey : option string;
  extractedParameters : JsObject;
  confidence : float;
  thrown : option JsError
}.

(** How the [try] block of one item ends before the item is stored. *)
Inductive Completion : Type :=
| Route (outputIndex : Z) (processedItem : INodeExecutionData)
| ContinueItemLoop
| Throw (error : JsError).

(** ** [configuredOutputs] (source lines 382-402) *)

Record OutputDescriptor : Type := {
  type : string;
  displayName : string
}.

Definition decimal_of_nat (n : nat) : string :=
  NilZero.string_of_uint (Nat.to_uint n).

(** [intentsList.map((intent, index) => ...)] from position [index] on. *)
Fixpoint intentOutputs (intentsList : list Intent) (index : nat) : list OutputDescriptor :=
  match intentsList with
  | [] => []
  | intent :: rest =>
      {| type := "main";
         displayName := if JsString.nonEmpty (key intent) then key intent
                        else "Intent " ++ decimal_of_nat (index + 1) |}
      :: intentOutputs rest (S index)
  end.

Definition configuredOutputs (intentsList : list Intent) (fallbackBehavior : string)
  : list OutputDescriptor :=
  let outputs := intentOutputs intentsList 0 in
  let outputs :=
    if String.eqb fallbackBehavior "route_to_fallback"
    then (outputs ++ [{| type := "main"; displayName := "Fallback" |}])%list
    else outputs in
  if (0 <? List.length outputs)%nat then outputs
  else [{| type := "main"; displayName := "Main" |}].

(** ** The engine *)

(** What the JavaScript engine provides and this repository does not define. *)
Record Engine : Type := {
  (** [Number::toString], the rendering of a number. *)
  Number_toString : float -> string;
  (** [String(f)] for the function [f] of [Object.prototype] found under a
      name of [objectPrototypeMethods]. *)
  Function_toString : string -> string;
  (** [String.prototype.toLowerCase] *)
  toLowerCase : string -> string;
  (** The characters [String.prototype.trim] strips. *)
  isWhiteSpace : ascii -> bool;
  (** [toISOString n] is what the [n]-th call of [new Date().toISOString()]
      of a run returns. *)
  toISOString : nat -> string
}.

(** ** [execute] of the keyword-based node (source lines 670-843) *)

(** The [TypeError] of ToPrimitive on an object neither of whose [toString]
    and [valueOf] gives a primitive. *)
Definition cannotConvert : JsError := TypeError "Cannot convert object to primitive value".

(** The [TypeError] of the call [item.json.hasOwnProperty(...)] when the
    property read gives no function. *)
Definition notAFunction : JsError := TypeError "item.json.hasOwnProperty is not a function".

(** The results of a list of calls made in order: the first error, if any. *)
Fixpoint sequence {A : Type} (l : list (ExecResult A)) : ExecResult (list A) :=
  match l with
  | [] => Returned []
  | Failed e :: _ => Failed e
  | Returned a :: rest =>
      match sequence rest with
      | Returned l' => Returned (a :: l')
      | Failed e => Failed e
      end
  end.

Section Runtime.

Variable rt : Engine.

(** [String(v)].  An array is joined, [null] elements giving the empty
    string.  On a plain object [toString] is [Object.prototype.toString]
    unless the object has an own property of that name; such a property is
    data, thus not callable, and [valueOf] then gives no primitive either:
    the conversion throws. *)
Fixpoint ToString (v : JsValue) : ExecResult string :=
  match v with
  | JNull => Returned "null"
  | JBool true => Returned "true"
  | JBool false => Returned "false"
  | JNum x => Returned (Number_toString rt x)
  | JStr s => Returned s
  | JArr elems =>
      match sequence
              (List.map (fun e => match e with
                                  | JNull => Returned EmptyString
                                  | _ => ToString e
                                  end) elems) with
      | Returned parts => Returned (JsString.join "," parts)
      | Failed e => Failed e
      end
  | JObj fields =>
      if hasOwnProperty fields "toString" then Failed cannotConvert
      else Returned "[object Object]"
  end.

(** [JSON.stringify(v)]; a number that is not finite is written [null]. *)
Fixpoint JSON_stringify (v : JsValue) : string :=
  match v with
  | JNull => "null"
  | JBool true => "true"
  | JBool false => "false"
  | JNum x =>
      if PrimFloat.is_nan x || PrimFloat.is_infinity x then "null" else Number_toString rt x
  | JStr s => Json.quote s
  | JArr elems => "[" ++ JsString.join "," (List.map JSON_stringify elems) ++ "]"
  | JObj fields =>
      "{" ++ JsString.join ","
               (List.map (fun kv => (Json.quote (fst kv) ++ ":" ++ JSON_stringify (snd kv))%string)
                         fields)
          ++ "}"
  end.

(** *** The text to analyse (source lines 708-718) *)

(** [String(p)] of what a property read found. *)
Definition stringOfProperty (p : Property) : ExecResult string :=
  match p with
  | OwnValue v => ToString v
  | InheritedMethod name => Returned (Function_toString rt name)
  | InheritedProto => Returned "[object Object]"
  | Undefined => Returned "undefined"
  end.

(** [item.json[inputField]] is tested for truthiness, not for presence. *)
Definition extractText (inputField : string) (itemJson : JsObject) : ExecResult string :=
  if truthyProperty (getProperty itemJson inputField)
  then stringOfProperty (getProperty itemJson inputField)
  else Returned (JSON_stringify (JObj itemJson)).

Definition normalizeCase (caseSensitive : bool) (s : string) : string :=
  if caseSensitive then s else toLowerCase rt s.

Definition textToAnalyze (caseSensitive : bool) (inputField : string) (itemJson : JsObject)
  : ExecResult string :=
  match extractText inputField itemJson with
  | Returned s => Returned (normalizeCase caseSensitive s)
  | Failed e => Failed e
  end.

(** *** The keyword classifier (source lines 720-760) *)

(** [intent.keywords.split(',').map(k => k.trim())] *)
Definition keywordsOf (kw : string) : list string :=
  List.map (JsString.trim (isWhiteSpace rt)) (JsString.split JsString.comma kw).

(** [keywords.filter(keyword => textToAnalyze.includes(searchKeyword))] *)
Definition keywordMatches (caseSensitive : bool) (text : string) (kws : list string)
  : list string :=
  List.filter (fun keyword => JsString.includes text (normalizeCase caseSensitive keyword)) kws.

(** [keywordMatches.length / keywords.length] *)
Definition matchRatio (caseSensitive : bool) (text kw : string) : float :=
  PrimFloat.div
    (float_of_nat (List.length (keywordMatches caseSensitive text (keywordsOf kw))))
    (float_of_nat (List.length (keywordsOf kw))).

End Runtime.

(** *** Parameter extraction (source lines 744-755) *)

(** The prototype of [extractedParameters]: [Object.prototype] at first; an
    assignment to [__proto__] can make it [null], or an array or an object of
    the record. *)
Inductive Prototype : Type :=
| ObjectPrototype
| NullPrototype
| ArrayValue (elems : list JsValue)
| ObjectValue (fields : JsObject).

(** [extractedParameters] while it is built. *)
Record ParameterObject : Type := {
  ownProperties : JsObject;
  prototype : Prototype
}.

(** [let extractedParameters = {}] *)
Definition emptyParameters : ParameterObject :=
  {| ownProperties := []; prototype := ObjectPrototype |}.

(** What the name [__proto__] resolves to from a prototype on: the accessor
    of [Object.prototype], a data property of an object of the record on the
    way, or nothing when the chain ends before. *)
Inductive ProtoLookup : Type := Accessor | DataProperty | NotFound.

Definition lookupProto (p : Prototype) : ProtoLookup :=
  match p with
  | ObjectPrototype => Accessor
  | NullPrototype => NotFound
  | ArrayValue _ => Accessor
  | ObjectValue fields => if hasOwnProperty fields "__proto__" then DataProperty else Accessor
  end.

(** The setter of [Object.prototype.__proto__]: an object or [null] becomes
    the prototype, any other value is ignored. *)
Definition setPrototype (v : JsValue) (p : Prototype) : Prototype :=
  match v with
  | JNull => NullPrototype
  | JArr elems => ArrayValue elems
  | JObj fields => ObjectValue fields
  | JBool _ | JNum _ | JStr _ => p
  end.

(** [extractedParameters[k] = v].  An own property is overwritten.
    Otherwise the name is looked up along the prototype chain: every
    property found there is a writable data property, so that an own
    property is created, except [__proto__] where it is the accessor of
    [Object.prototype], whose setter is called instead. *)
Definition assign (k : string) (v : JsValue) (o : ParameterObject) : ParameterObject :=
  if hasOwnProperty (ownProperties o) k then
    {| ownProperties := setProp k v (ownProperties o); prototype := prototype o |}
  else if String.eqb k "__proto__" then
    match lookupProto (prototype o) with
    | Accessor =>
        {| ownProperties := ownProperties o; prototype := setPrototype v (prototype o) |}
    | DataProperty | NotFound =>
        {| ownProperties := createDataProperty k v (ownProperties o);
           prototype := prototype o |}
    end
  else
    {| ownProperties := createDataProperty k v (ownProperties o); prototype := prototype o |}.

(** [item.json.hasOwnProperty(k)]: the method is read from the record, so
    that an own property of that name, which is data, is called instead of
    the function of [Object.prototype]. *)
Definition callHasOwnProperty (itemJson : JsObject) (k : string) : ExecResult bool :=
  match getProperty itemJson "hasOwnProperty" with
  | InheritedMethod _ => Returned (hasOwnProperty itemJson k)
  | OwnValue _ | InheritedProto | Undefined => Failed notAFunction
  end.

(** The loop over the parameter specs: the object built so far and the
    error that left the loop, if any.  When [hasOwnProperty] answers
    [true], [item.json[param.key]] is that own property. *)
Fixpoint extractParameters (itemJson : JsObject) (params : list ParameterOption)
    (extracted : ParameterObject) : ParameterObject * option JsError :=
  match params with
  | [] => (extracted, None)
  | param :: rest =>
      match callHasOwnProperty itemJson (param_key param) with
      | Failed e => (extracted, Some e)
      | Returned _ =>
          let extracted' :=
            match getProp (param_key param) itemJson with
            | Some v => assign (param_key param) v extracted
            | None =>
                if JsString.nonEmpty (param_defaultValue param)
                then assign (param_key param) (JStr (param_defaultValue param)) extracted
                else extracted
            end in
          extractParameters itemJson rest extracted'
      end
  end.

(** [if (intent.parameters?.parameterOptions) { for ... }] *)
Definition extraction (itemJson : JsObject) (intent : Intent)
  : ParameterObject * option JsError :=
  match parameters intent with
  | Some params => extractParameters itemJson params emptyParameters
  | None => (emptyParameters, None)
  end.

Section Classifier.

Variable rt : Engine.

(** The intent loop from [intentIndex] on, with the value [confidence] has on
    entry.  The [break], and an error of the extraction, are the branch that
    does not recurse. *)
Fixpoint recognize (caseSensitive : bool) (confidenceThreshold : float) (text : string)
    (itemJson : JsObject) (intents : list Intent) (intentIndex : nat) (confidence0 : float)
  : Recognition :=
  match intents with
  | [] =>
      {| recognizedIntentIndex := (-1)%Z; recognizedIntentKey := None;
         extractedParameters := []; confidence := confidence0; thrown := None |}
  | intent :: rest =>
      let next := recognize caseSensitive confidenceThreshold text itemJson rest (S intentIndex) in
      match keywords intent with
      | Some kw =>
          if JsString.nonEmpty kw then
            if (0 <? List.length (keywordMatches rt caseSensitive text (keywordsOf rt kw)))%nat then
              let c := matchRatio rt caseSensitive text kw in
              if PrimFloat.leb confidenceThreshold c then
                {| recognizedIntentIndex := Z.of_nat intentIndex;
                   recognizedIntentKey := Some (key intent);
                   extractedParameters := ownProperties (fst (extraction itemJson intent));
                   confidence := c;
                   thrown := snd (extraction itemJson intent) |}
              else next c
            else next confidence0
          else next confidence0
      | None => next confidence0
      end
  end.

Definition classify (caseSensitive : bool) (confidenceThreshold : float) (text : string)
    (itemJson : JsObject) (intents : list Intent) : Recognition :=
  recognize caseSensitive confidenceThreshold text itemJson intents 0 0%float.

End Classifier.

(** *** The emitted records (source lines 789-807 and 816-829) *)

Definition jsonOfKey (k : option string) : JsValue :=
  match k with Some s => JStr s | None => JNull end.

(** [{...item.json, recognizedIntent, extractedParameters, intentMetadata}]:
    the spread copies the own properties of [item.json] in their order, and
    each of the three properties that follow is then set on the copy. *)
Definition processedJson (itemJson : JsObject) (r : Recognition) (text now : string)
  : JsObject :=
  setProp "intentMetadata"
    (JObj [("confidence", JNum (confidence r));
           ("processingTime", JStr now);
           ("inputText", JStr (JsString.substring0 200 text))])
    (setProp "extractedParameters" (JObj (extractedParameters r))
       (setProp "recognizedIntent" (jsonOfKey (recognizedIntentKey r)) itemJson)).

Definition processedItemOf (item : INodeExecutionData) (itemIndex : nat) (r : Recognition)
    (text now : string) : INodeExecutionData :=
  {| json := processedJson (json item) r text now;
     binary := binary item;
     pairedItem := Some itemIndex |}.

(** [{...items[itemIndex].json, error, recognizedIntent, extractedParameters,
    intentMetadata}] of the [catch] block. *)
Definition errorJson (itemJson : JsObject) (message now : string) : JsObject :=
  setProp "intentMetadata"
    (JObj [("confidence", JNum 0%float);
           ("processingTime", JStr now);
           ("error", JBool true)])
    (setProp "extractedParameters" (JObj [])
       (setProp "recognizedIntent" JNull
          (setProp "error" (JStr message) itemJson))).

Definition errorItemOf (item : INodeExecutionData) (itemIndex : nat) (message now : string)
  : INodeExecutionData :=
  {| json := errorJson (json item) message now;
     binary := None;
     pairedItem := Some itemIndex |}.

(** *** Routing of one item (source lines 704-810) *)

Section Item.

Variable rt : Engine.
Variable ctx : ExecuteContext.

Definition caseSensitive : bool := default false (opt_caseSensitive (options ctx)).
Definition confidenceThreshold : float :=
  default 0.5%float (opt_confidenceThreshold (options ctx)).
Definition inputField : string := default "message" (opt_inputField (options ctx)).
Definition numIntents : nat := List.length (intentOptions ctx).
Definition hasFallback : bool := String.eqb (fallbackBehavior ctx) "route_to_fallback".
Definition totalOutputs : nat := (numIntents + (if hasFallback then 1 else 0))%nat.

Definition noIntentMessage (text : string) : string :=
  "No intent recognized for input: " ++ JsString.substring0 100 text ++ "...".

(** The [try] block up to the [push]; [returnDataLength] is
    [returnData.length] and [tick] counts the clock readings so far. *)
Definition tryBlock (returnDataLength tick itemIndex : nat) (item : INodeExecutionData)
  : Completion :=
  match textToAnalyze rt caseSensitive inputField (json item) with
  | Failed e => Throw e
  | Returned text =>
      let r := classify rt caseSensitive confidenceThreshold text (json item)
                 (intentOptions ctx) in
      match thrown r with
      | Some e => Throw e
      | None =>
          let route (outputIndex : Z) :=
            Route outputIndex (processedItemOf item itemIndex r text (toISOString rt tick)) in
          if (0 <=? recognizedIntentIndex r)%Z then route (recognizedIntentIndex r)
          else if String.eqb (fallbackBehavior ctx) "route_to_fallback" then
            route (Z.of_nat returnDataLength - 1)%Z
          else if String.eqb (fallbackBehavior ctx) "discard" then ContinueItemLoop
          else if String.eqb (fallbackBehavior ctx) "error" then
            Throw (NodeOperationError (noIntentMessage text) itemIndex)
          else if hasFallback then route (Z.of_nat returnDataLength - 1)%Z
          else ContinueItemLoop
      end
  end.

(** [returnData[outputIndex].push(x)]: [None] when [returnData[outputIndex]]
    is [undefined], where the [push] is a [TypeError]. *)
Definition pushAt (returnData : list (list INodeExecutionData)) (outputIndex : Z)
    (x : INodeExecutionData) : option (list (list INodeExecutionData)) :=
  if (outputIndex <? 0)%Z then None
  else
    match returnData !! Z.to_nat outputIndex with
    | Some channel => Some (<[Z.to_nat outputIndex := (channel ++ [x])%list]> returnData)
    | None => None
    end.

Definition pushTypeError : JsError :=
  TypeError "Cannot read properties of undefined (reading 'push')".

(** The [catch] block: under continue-on-fail the error record goes to
    the fallback channel when there is one, else to channel 0; otherwise
    the error leaves [execute] as a [NodeOperationError]. *)
Definition catchBlock (returnData : list (list INodeExecutionData)) (tick itemIndex : nat)
    (item : INodeExecutionData) (e : JsError)
  : ExecResult (list (list INodeExecutionData) * nat) :=
  if continueOnFail ctx then
    let errorOutputIndex :=
      if hasFallback then (Z.of_nat (List.length returnData) - 1)%Z else 0%Z in
    match pushAt returnData errorOutputIndex
            (errorItemOf item itemIndex (error_message e) (toISOString rt tick)) with
    | Some returnData' => Returned (returnData', S tick)
    | None => Failed pushTypeError
    end
  else
    match e with
    | NodeOperationError _ _ => Failed e
    | TypeError m => Failed (NodeOperationError m itemIndex)
    end.

(** One turn of [itemLoop]: the new [returnData] and clock count, or the
    error that leaves [execute]. *)
Definition processItem (returnData : list (list INodeExecutionData)) (tick itemIndex : nat)
    (item : INodeExecutionData) : ExecResult (list (list INodeExecutionData) * nat) :=
  match tryBlock (List.length returnData) tick itemIndex item with
  | Route outputIndex processedItem =>
      match pushAt returnData outputIndex processedItem with
      | Some returnData' => Returned (returnData', S tick)
      | None => catchBlock returnData (S tick) itemIndex item pushTypeError
      end
  | ContinueItemLoop => Returned (returnData, tick)
  | Throw e => catchBlock returnData tick itemIndex item e
  end.

Fixpoint itemLoop (items : list INodeExecutionData) (itemIndex tick : nat)
    (returnData : list (list INodeExecutionData))
  : ExecResult (list (list INodeExecutionData)) :=
  match items with
  | [] => Returned returnData
  | item :: rest =>
      match processItem returnData tick itemIndex item with
      | Returned (returnData', tick') => itemLoop rest (S itemIndex) tick' returnData'
      | Failed e => Failed e
      end
  end.

(** [execute] (source lines 670-843). *)
Definition execute (items : list INodeExecutionData)
  : ExecResult (list (list INodeExecutionData)) :=
  match itemLoop items 0 0 (replicate totalOutputs []) with
  | Returned returnData =>
      Returned (if (0 <? List.length returnData)%nat then returnData else [[]])
  | Failed e => Failed e
  end.

End Item.

(** ** Notions the properties are stated with *)

(** The intent has a truthy keyword string and at least one of its tokens is
    found in the text: the two guards around the confidence assignment. *)
Definition hasKeywordMatch (rt : Engine) (caseSensitive : bool) (text : string)
    (intent : Intent) : bool :=
  match keywords intent with
  | Some kw =>
      JsString.nonEmpty kw
      && (0 <? List.length (keywordMatches rt caseSensitive text (keywordsOf rt kw)))%nat
  | None => false
  end.

(** The confidence of one intent on a text: found tokens over all tokens, and
    0 for an intent without keyword string. *)
Definition perIntentConfidence (rt : Engine) (caseSensitive : bool) (text : string)
    (intent : Intent) : float :=
  match keywords intent with
  | Some kw => if JsString.nonEmpty kw then matchRatio rt caseSensitive text kw else 0%float
  | None => 0%float
  end.

(** [confidence >= confidenceThreshold] for that intent. *)
Definition reachesThreshold (rt : Engine) (caseSensitive : bool) (threshold : float)
    (text : string) (intent : Intent) : bool :=
  PrimFloat.leb threshold (perIntentConfidence rt caseSensitive text intent).

(** The whole condition under which the loop selects an intent it reaches. *)
Definition selectable (rt : Engine) (caseSensitive : bool) (threshold : float) (text : string)
    (intent : Intent) : bool :=
  hasKeywordMatch rt caseSensitive text intent
  && reachesThreshold rt caseSensitive threshold text intent.

(** What [recognize] leaves when it selects [intent] at position [index]. *)
Definition selectionOf (rt : Engine) (caseSensitive : bool) (text : string)
    (itemJson : JsObject) (index : nat) (intent : Intent) : Recognition :=
  {| recognizedIntentIndex := Z.of_nat index;
     recognizedIntentKey := Some (key intent);
     extractedParameters := ownProperties (fst (extraction itemJson intent));
     confidence := perIntentConfidence rt caseSensitive text intent;
     thrown := snd (extraction itemJson intent) |}.

(** Following the specification's words: the keyword tokens are the
    comma-split, trimmed, non-empty tokens of the keyword string. *)
Definition specKeywordsOf (rt : Engine) (kw : string) : list string :=
  List.filter JsString.nonEmpty (keywordsOf rt kw).


(** The number of records over all channels. *)
Definition emittedCount (channels : list (list INodeExecutionData)) : nat :=
  List.length (concat channels).

(** The [recognizedIntent] field of an emitted record. *)
Definition recognizedIntentOf (out : INodeExecutionData) : option JsValue :=
  getProp "recognizedIntent" (json out).

(** An intent that has only a key and a keyword string. *)
Definition keywordIntent (k kw : string) : Intent :=
  {| key := k; description := ""; keywords := Some kw; outputKey := None; parameters := None |}.

(** The text of an item as the classifier gets it, or the error of reading
    it. *)
Definition textOf (rt : Engine) (ctx : ExecuteContext) (item : INodeExecutionData)
  : ExecResult string :=
  textToAnalyze rt (caseSensitive ctx) (inputField ctx) (json item).

(** What the intent loop leaves for an item, or the error raised before the
    loop is left normally: the one of reading the text, or the one of the
    parameter extraction. *)
Definition recognitionOf (rt : Engine) (ctx : ExecuteContext) (item : INodeExecutionData)
  : ExecResult Recognition :=
  match textOf rt ctx item with
  | Failed e => Failed e
  | Returned text =>
      let r := classify rt (caseSensitive ctx) (confidenceThreshold ctx) text (json item)
                 (intentOptions ctx) in
      match thrown r with
      | Some e => Failed e
      | None => Returned r
      end
  end.

(** The record is one an intent was selected for, without error. *)
Definition matched (rt : Engine) (ctx : ExecuteContext) (item : INodeExecutionData) : bool :=
  match recognitionOf rt ctx item with
  | Returned r => (0 <=? recognizedIntentIndex r)%Z
  | Failed _ => false
  end.

(** Reading or classifying the record raises an error. *)
Definition fails (rt : Engine) (ctx : ExecuteContext) (item : INodeExecutionData) : bool :=
  match recognitionOf rt ctx item with
  | Returned _ => false
  | Failed _ => true
  end.

(** The error the [try] block raises for the item at position [itemIndex],
    if any: an error of reading or classifying it, or the no-intent error of
    the [error] policy. *)
Definition raisedBy (rt : Engine) (ctx : ExecuteContext) (itemIndex : nat)
    (item : INodeExecutionData) : option JsError :=
  match textOf rt ctx item with
  | Failed e => Some e
  | Returned text =>
      match recognitionOf rt ctx item with
      | Failed e => Some e
      | Returned r =>
          if (0 <=? recognizedIntentIndex r)%Z then None
          else if String.eqb (fallbackBehavior ctx) "error"
               then Some (NodeOperationError (noIntentMessage text) itemIndex)
               else None
      end
  end.

(** A record is emitted for the item when [execute] gets past it. *)
Definition emits (rt : Engine) (ctx : ExecuteContext) (item : INodeExecutionData) : bool :=
  match raisedBy rt ctx 0 item with
  | Some _ => continueOnFail ctx
  | None => matched rt ctx item || hasFallback ctx
  end.

(** The channel of the error records. *)
Definition errorOutputIndex (ctx : ExecuteContext) : nat :=
  if hasFallback ctx then numIntents ctx else 0%nat.

(** [out], in channel [c], is the record of the item at position [i]: its
    error record, in the channel of the error records, when the item raises
    an error; else its processed record, in the channel of the selected
    intent, or in the last channel when none is selected. *)
Definition recordOf (rt : Engine) (ctx : ExecuteContext) (i : nat) (item : INodeExecutionData)
    (c : nat) (out : INodeExecutionData) : Prop :=
  match raisedBy rt ctx i item with
  | Some e =>
      continueOnFail ctx = true
      /\ c = errorOutputIndex ctx
      /\ exists now, out = errorItemOf item i (error_message e) now
  | None =>
      exists text r now,
        textOf rt ctx item = Returned text
        /\ recognitionOf rt ctx item = Returned r
        /\ out = processedItemOf item i r text now
        /\ if (0 <=? recognizedIntentIndex r)%Z
           then Z.of_nat c = recognizedIntentIndex r
           else hasFallback ctx = true /\ c = numIntents ctx
  end.

(** What holds of [returnData] after the items [done]: it has its
    [totalOutputs] channels; it holds one record for each item that emits
    one; and each record is the record of an item. *)
Definition routedInv (rt : Engine) (ctx : ExecuteContext)
    (done : list INodeExecutionData) (rd : list (list INodeExecutionData)) : Prop :=
  List.length rd = totalOutputs ctx
  /\ emittedCount rd = List.length (List.filter (emits rt ctx) done)
  /\ forall c ch out,
       rd !! c = Some ch -> out ∈ ch ->
       exists i item, done !! i = Some item /\ recordOf rt ctx i item c out.

(** What [execute] returns for the [returnData] the loop leaves. *)
Definition returned (rd : list (list INodeExecutionData)) : list (list INodeExecutionData) :=
  if (0 <? List.length rd)%nat then rd else [[]].

(** Two intents of the list share a key. *)
Definition duplicateKeys (intents : list Intent) : Prop :=
  exists i j x y,
    i <> j /\ intents !! i = Some x /\ intents !! j = Some y /\ key x = key y.

(** The field names [execute] writes into a record it routes, and into an
    error record. *)
Definition enrichmentFields : list string :=
  ["recognizedIntent"; "extractedParameters"; "intentMetadata"].

Definition errorFields : list string := "error" :: enrichmentFields.

(** A value that is an array or an object. *)
Definition isObject (v : JsValue) : bool :=
  match v with
  | JArr _ | JObj _ => true
  | JNull | JBool _ | JNum _ | JStr _ => false
  end.

(** The [options] collection left empty: every option takes its default. *)
Definition defaultOptions : Options :=
  {| opt_caseSensitive := None; opt_confidenceThreshold := None; opt_inputField := None |}.

(** An input item that has only a JSON payload. *)
Definition plainItem (itemJson : JsObject) : INodeExecutionData :=
  {| json := itemJson; binary := None; pairedItem := None |}.

(** *** Sample data *)

(** The engine on ASCII text: [toLowerCase] maps A-Z to a-z, and the white
    space is TAB, LF, VT, FF, CR and SP. *)
Definition asciiLowerChar (c : ascii) : ascii :=
  let n := nat_of_ascii c in
  if (65 <=? n)%nat && (n <=? 90)%nat then ascii_of_nat (n + 32) else c.

Fixpoint asciiToLowerCase (s : string) : string :=
  match s with
  | EmptyString => EmptyString
  | String c t => String (asciiLowerChar c) (asciiToLowerCase t)
  end.

Definition asciiWhiteSpace (c : ascii) : bool :=
  let n := nat_of_ascii c in
  ((9 <=? n)%nat && (n <=? 13)%nat) || (n =? 32)%nat.

Definition sampleNumberToString : float -> string := fun _ => "0".

Definition sampleClock : nat -> string := fun _ => "2024-01-01T00:00:00.000Z".

Definition sampleEngine : Engine :=
  {| Number_toString := sampleNumberToString;
     Function_toString := fun name => "function " ++ name ++ "() { [native code] }";
     toLowerCase := asciiToLowerCase;
     isWhiteSpace := asciiWhiteSpace;
     toISOString := sampleClock |}.

(** Two intents, and a batch of one record that names the first intent and
    one that names none. *)
Definition sampleContext (fallback : string) : ExecuteContext :=
  {| intentOptions := [keywordIntent "greeting" "hello,hi"; keywordIntent "book" "book,reserve"];
     fallbackBehavior := fallback;
     options := defaultOptions;
     continueOnFail := false |}.

Definition sampleItems : list INodeExecutionData :=
  [plainItem [("message", JStr "Hello there")]; plainItem [("message", JStr "good bye")]].

(** The same configuration under continue-on-fail. *)
Definition continuing (ctx : ExecuteContext) : ExecuteContext :=
  {| intentOptions := intentOptions ctx;
     fallbackBehavior := fallbackBehavior ctx;
     options := options ctx;
     continueOnFail := true |}.

(** A record whose [message] cannot be converted to a string, and a record
    that shadows [hasOwnProperty]. *)
Definition unreadableItem : INodeExecutionData :=
  plainItem [("message", JObj [("toString", JNum 1%float)])].

Definition shadowingItem : INodeExecutionData :=
  plainItem [("message", JStr "book a table"); ("hasOwnProperty", JNum 1%float)].

(** An intent with a required parameter without default, a parameter with
    a default, and a parameter that the sample record below has a field for. *)
Definition bookingIntent : Intent :=
  {| key := "book"; description := ""; keywords := Some "book"; outputKey := None;
     parameters :=
       Some [{| param_key := "date"; param_type := "date"; param_required := true;
                param_defaultValue := "" |};
             {| param_key := "city"; param_type := "string"; param_required := false;
                param_defaultValue := "Paris" |};
             {| param_key := "who"; param_type := "string"; param_required := false;
                param_defaultValue := "" |}] |}.

Definition bookingContext (fallback : string) (cof : bool) : ExecuteContext :=
  {| intentOptions := [bookingIntent];
     fallbackBehavior := fallback;
     options := defaultOptions;
     continueOnFail := cof |}.


(** ** Notions the further properties are stated with *)

(** The position in the batch a record says it comes from. *)
Definition pairedIndex (out : INodeExecutionData) : nat := default 0%nat (pairedItem out).

(** How the records of [returnData] are placed after [n] items: each names
    an item before [n]; inside a channel they stand in the order of their
    items; and two records of the same item are in the same channel. *)
Definition placedInv (n : nat) (rd : list (list INodeExecutionData)) : Prop :=
  (forall c ch a x, rd !! c = Some ch -> ch !! a = Some x ->
                    exists i, pairedItem x = Some i /\ (i < n)%nat)
  /\ (forall c ch a b x y, rd !! c = Some ch -> ch !! a = Some x -> ch !! b = Some y ->
                          (a < b)%nat -> (pairedIndex x < pairedIndex y)%nat)
  /\ (forall c1 c2 ch1 ch2 a b x y,
         rd !! c1 = Some ch1 -> rd !! c2 = Some ch2 ->
         ch1 !! a = Some x -> ch2 !! b = Some y ->
         pairedItem x = pairedItem y -> c1 = c2).

(** The same configuration under another fallback policy. *)
Definition withFallback (ctx : ExecuteContext) (fallback : string) : ExecuteContext :=
  {| intentOptions := intentOptions ctx;
     fallbackBehavior := fallback;
     options := options ctx;
     continueOnFail := continueOnFail ctx |}.

(** The intent with its keyword string lower-cased. *)
Definition lowerKeywords (rt : Engine) (intent : Intent) : Intent :=
  {| key := key intent;
     description := description intent;
     keywords := option_map (toLowerCase rt) (keywords intent);
     outputKey := outputKey intent;
     parameters := parameters intent |}.

(** How often a character occurs in a string. *)
Fixpoint occurrences (c : ascii) (s : string) : nat :=
  match s with
  | EmptyString => 0%nat
  | String c' t => ((if Ascii.eqb c' c then 1 else 0) + occurrences c t)%nat
  end.

(** The first and the last character of a string are no white space. *)
Definition noOuterSpace (isWhiteSpace : ascii -> bool) (s : string) : Prop :=
  JsString.trimStart isWhiteSpace s = s /\ JsString.trimEnd isWhiteSpace s = s.

(** The names of an object's fields, in order. *)
Definition fieldNames (o : JsObject) : list string := List.map fst o.

(** What the engine's [toLowerCase] does with the keyword strings: applied
    twice it gives what it gives once, it commutes with cutting at commas
    and with trimming, and it gives the empty string for the empty string
    only. *)
Definition lowerCaseRegular (rt : Engine) : Prop :=
  (forall s, toLowerCase rt (toLowerCase rt s) = toLowerCase rt s)
  /\ (forall s, JsString.split JsString.comma (toLowerCase rt s)
                = List.map (toLowerCase rt) (JsString.split JsString.comma s))
  /\ (forall s, toLowerCase rt (JsString.trim (isWhiteSpace rt) s)
                = JsString.trim (isWhiteSpace rt) (toLowerCase rt s))
  /\ (forall s, JsString.nonEmpty (toLowerCase rt s) = JsString.nonEmpty s).


(** What one turn of the loop over the parameter specs assigns. *)
Definition extractionStep (itemJson : JsObject) (param : ParameterOption)
    (acc : ParameterObject) : ParameterObject :=
  match getProp (param_key param) itemJson with
  | Some v => assign (param_key param) v acc
  | None =>
      if JsString.nonEmpty (param_defaultValue param)
      then assign (param_key param) (JStr (param_defaultValue param)) acc
      else acc
  end.

(** ** [getFallbackOutputOptions] (source lines 641-666) *)

(** An option of a drop-down: its value is a string or a number. *)
Record INodePropertyOptions : Type := {
  option_name : string;
  option_value : JsValue;
  option_description : string
}.

(** [a || b] on strings, where a missing string is [undefined]. *)
Definition orElse (a : option string) (b : string) : string :=
  match a with
  | Some s => if JsString.nonEmpty s then s else b
  | None => b
  end.

(** The options pushed for the intents from position [index] on. *)
Fixpoint intentFallbackOptions (intents : list Intent) (index : nat)
  : list INodePropertyOptions :=
  match intents with
  | [] => []
  | intent :: rest =>
      {| option_name :=
           "Intent: " ++ orElse (outputKey intent)
                           (orElse (Some (key intent)) (decimal_of_nat index));
         option_value := JNum (float_of_nat index);
         option_description :=
           "Items will be sent to the " ++ orElse (Some (key intent)) "intent" ++ " output" |}
      :: intentFallbackOptions rest (S index)
  end.

Definition getFallbackOutputOptions (intents : list Intent) : list INodePropertyOptions :=
  ([{| option_name := "None (discard)";
       option_value := JStr "discard";
       option_description := "Items will be discarded" |};
    {| option_name := "Fallback Output";
       option_value := JStr "route_to_fallback";
       option_description := "Items will be sent to a separate fallback output" |}]
   ++ intentFallbackOptions intents 0)%list.

(** ** The nodes that call the intent-recognition service

    The first node of [IntentRecognition.node.ts] (source lines 1-368) and
    the [ConversationAppend] node (second part of
    [IntentRecognitionApi.credentials.ts]) send HTTP requests.
    [this.helpers.httpRequest] is the run time's: a call either rejects with
    an error message or resolves to a value of the type the call site asserts
    ([as { id: string }] and the like).  What a call answers may depend on
    the number of requests sent before it.  The per-item node parameters
    ([getNodeParameter(name, itemIndex) as string]) are given by position. *)

Record IHttpRequestOptions : Type := {
  request_method : string;
  request_url : string;
  request_headers : list (string * string);
  request_body : JsObject;
  request_json : bool
}.

(** The decrypted credentials; an entry that is missing is the empty
    string: both are falsy, and no entry is used when one is falsy. *)
Record Credentials : Type := {
  cred_url : string;
  cred_systemName : string;
  cred_apiKey : string
}.

(** [{ id: string }] *)
Record SettingsResponse : Type := { response_id : string }.

(** [{ intent?: string; clarification_message?: string }] *)
Record ProcessResponse : Type := {
  response_intent : option string;
  response_clarification_message : option string
}.

(** [{ messageId: string; chatId: string }] *)
Record AppendResponse : Type := {
  response_messageId : string;
  response_chatId : string
}.

(** What a run has done so far: the requests sent, in order, and the number
    of clock readings. *)
Record World : Type := {
  sent : list IHttpRequestOptions;
  clockReads : nat
}.

Definition initialWorld : World := {| sent := []; clockReads := 0 |}.

(** A computation that may send requests and read the clock, and ends with
    a value or a thrown error. *)
Definition M (A : Type) : Type := World -> ExecResult A * World.

Definition mret {A : Type} (a : A) : M A := fun w => (Returned a, w).

Definition mthrow {A : Type} (e : JsError) : M A := fun w => (Failed e, w).

Definition mbind {A B : Type} (m : M A) (k : A -> M B) : M B :=
  fun w =>
    match m w with
    | (Returned a, w') => k a w'
    | (Failed e, w') => (Failed e, w')
    end.

(** [try { m } catch (error) { handler error }] *)
Definition mcatch {A : Type} (m : M A) (handler : JsError -> M A) : M A :=
  fun w =>
    match m w with
    | (Returned a, w') => (Returned a, w')
    | (Failed e, w') => handler e w'
    end.

Declare Scope M_scope.
Delimit Scope M_scope with M.
Notation "x <- m ;; k" := (mbind m (fun x => k))
  (at level 100, m at next level, right associativity) : M_scope.

(** [!!v] in a template: [true] or [false]. *)
Definition boolText (b : bool) : string := if b then "true" else "false".

Definition credentialsMissing (c : Credentials) : bool :=
  negb (JsString.nonEmpty (cred_url c))
  || negb (JsString.nonEmpty (cred_systemName c))
  || negb (JsString.nonEmpty (cred_apiKey c)).

Definition missingCredentialsMessage (c : Credentials) : string :=
  "Missing credentials: url=" ++ boolText (JsString.nonEmpty (cred_url c))
  ++ ", systemName=" ++ boolText (JsString.nonEmpty (cred_systemName c))
  ++ ", apiKey=" ++ boolText (JsString.nonEmpty (cred_apiKey c)).

(** [error instanceof NodeOperationError ? error : new NodeOperationError(node, error, { itemIndex })] *)
Definition asNodeOperationError (e : JsError) (itemIndex : nat) : JsError :=
  match e with
  | NodeOperationError _ _ => e
  | TypeError m => NodeOperationError m itemIndex
  end.

Section Service.

(** [Buffer.from(s).toString('base64')] *)
Variable base64 : string -> string.

(** [clock n] is what the [n]-th call of [new Date().toISOString()] returns. *)
Variable clock : nat -> string.

(** [new Date().toISOString()] *)
Definition newDate : M string :=
  fun w => (Returned (clock (clockReads w)),
            {| sent := sent w; clockReads := S (clockReads w) |}).

(** [try { r = await httpRequest(opts) } catch (error) { throw rethrow(error.message) }]:
    the request is sent, and answered by [answer] at the number of requests
    sent before. *)
Definition httpRequest {R : Type} (answer : nat -> IHttpRequestOptions -> string + R)
    (opts : IHttpRequestOptions) (rethrow : string -> JsError) : M R :=
  fun w =>
    let w' := {| sent := (sent w ++ [opts])%list; clockReads := clockReads w |} in
    match answer (List.length (sent w)) opts with
    | inr r => (Returned r, w')
    | inl message => (Failed (rethrow message), w')
    end.

Definition authString (c : Credentials) : string :=
  base64 (cred_systemName c ++ ":" ++ cred_apiKey c).

Definition jsonHeaders (c : Credentials) : list (string * string) :=
  [("Content-Type", "application/json"); ("Authorization", "Basic " ++ authString c)].

End Service.

(** *** [ConversationAppend.execute]
    ([IntentRecognitionApi.credentials.ts], second part, lines 157-269) *)

Module ConversationAppend.

(** What [execute] reads from [this]: the credentials, the node parameters
    of each item, and the continue-on-fail setting. *)
Record Context : Type := {
  credentials : Credentials;
  chatId : nat -> string;
  role : nat -> string;
  content : nat -> string;
  includeOriginalData : nat -> option bool;
  continueOnFail : bool
}.

Definition requiredMessage : string := "Chat ID and message content are required".

Section Node.

Variable base64 : string -> string.
Variable clock : nat -> string.
Variable postAppend : nat -> IHttpRequestOptions -> string + AppendResponse.
Variable ctx : Context.

Definition appendUrl : string := cred_url (credentials ctx) ++ "/api/conversations/append".

Definition appendMessageOptions (itemIndex : nat) : IHttpRequestOptions :=
  {| request_method := "POST";
     request_url := appendUrl;
     request_headers := jsonHeaders base64 (credentials ctx);
     request_body := [("chatId", JStr (chatId ctx itemIndex));
                      ("role", JStr (role ctx itemIndex));
                      ("content", JStr (content ctx itemIndex))];
     request_json := true |}.

Definition appendFailed (itemIndex : nat) (message : string) : JsError :=
  NodeOperationError ("Failed to append message: " ++ message ++ ". URL: " ++ appendUrl) itemIndex.

(** [!chatId || !content] *)
Definition parametersMissing (itemIndex : nat) : bool :=
  negb (JsString.nonEmpty (chatId ctx itemIndex))
  || negb (JsString.nonEmpty (content ctx itemIndex)).

(** [outputData], with [originalData] unless the option is [false]. *)
Definition outputData (itemIndex : nat) (item : INodeExecutionData) (r : AppendResponse)
    (now : string) : JsObject :=
  let data := [("messageId", JStr (response_messageId r));
               ("chatId", JStr (response_chatId r));
               ("role", JStr (role ctx itemIndex));
               ("content", JStr (content ctx itemIndex));
               ("success", JBool true);
               ("timestamp", JStr now)] in
  match includeOriginalData ctx itemIndex with
  | Some false => data
  | _ => setProp "originalData" (JObj (json item)) data
  end.

Definition processedItemOf (itemIndex : nat) (item : INodeExecutionData) (r : AppendResponse)
    (now : string) : INodeExecutionData :=
  {| json := outputData itemIndex item r now;
     binary := binary item;
     pairedItem := Some itemIndex |}.

Definition errorItemOf (itemIndex : nat) (item : INodeExecutionData) (message now : string)
  : INodeExecutionData :=
  {| json := setProp "timestamp" (JStr now)
               (setProp "success" (JBool false)
                  (setProp "error" (JStr message) (json item)));
     binary := None;
     pairedItem := Some itemIndex |}.

Definition tryBlock (returnData : list INodeExecutionData) (itemIndex : nat)
    (item : INodeExecutionData) : M (list INodeExecutionData) :=
  if parametersMissing itemIndex then mthrow (NodeOperationError requiredMessage itemIndex)
  else
    (appendResponse <- httpRequest postAppend (appendMessageOptions itemIndex)
                         (appendFailed itemIndex) ;;
     now <- newDate clock ;;
     mret (returnData ++ [processedItemOf itemIndex item appendResponse now])%list)%M.

Definition catchBlock (returnData : list INodeExecutionData) (itemIndex : nat)
    (item : INodeExecutionData) (e : JsError) : M (list INodeExecutionData) :=
  if continueOnFail ctx then
    (now <- newDate clock ;;
     mret (returnData ++ [errorItemOf itemIndex item (error_message e) now])%list)%M
  else mthrow (asNodeOperationError e itemIndex).

Fixpoint itemLoop (items : list INodeExecutionData) (itemIndex : nat)
    (returnData : list INodeExecutionData) : M (list INodeExecutionData) :=
  match items with
  | [] => mret returnData
  | item :: rest =>
      (returnData' <- mcatch (tryBlock returnData itemIndex item)
                        (catchBlock returnData itemIndex item) ;;
       itemLoop rest (S itemIndex) returnData')%M
  end.

Definition execute (items : list INodeExecutionData) : M (list (list INodeExecutionData)) :=
  if credentialsMissing (credentials ctx) then
    mthrow (NodeOperationError (missingCredentialsMessage (credentials ctx)) 0)
  else (returnData <- itemLoop items 0 [] ;; mret [returnData])%M.

End Node.

End ConversationAppend.

(** *** The service-backed [IntentRecognition] node
    ([IntentRecognition.node.ts], first part, lines 13-29 and 157-367) *)

Module Remote.

Record IntentOption : Type := {
  intent_key : string;
  intent_name : string;
  intent_description : string
}.

Record Context : Type := {
  credentials : Credentials;
  intents : list IntentOption;
  userMessage : nat -> string;
  chatId : nat -> string;
  systemPrompt : nat -> string;
  continueOnFail : bool
}.

(** [intents.map((intent, index) => ...)] from position [index] on. *)
Fixpoint intentOutputs (l : list IntentOption) (index : nat) : list OutputDescriptor :=
  match l with
  | [] => []
  | intent :: rest =>
      {| type := "main";
         displayName := if JsString.nonEmpty (intent_key intent) then intent_key intent
                        else "Intent " ++ decimal_of_nat (index + 1) |}
      :: intentOutputs rest (S index)
  end.

(** [configuredOutputs] of this node: the fallback output is always added. *)
Definition configuredOutputs (l : list IntentOption) : list OutputDescriptor :=
  (intentOutputs l 0 ++ [{| type := "main"; displayName := "Fallback" |}])%list.

(** [intents.findIndex(intent => intent.key === k)] from position [index]
    on: the first position with that key, or -1. *)
Fixpoint findIndex (l : list IntentOption) (k : string) (index : nat) : Z :=
  match l with
  | [] => (-1)%Z
  | intent :: rest =>
      if String.eqb (intent_key intent) k then Z.of_nat index
      else findIndex rest k (S index)
  end.

(** A string that is present and not empty, else nothing. *)
Definition truthyString (s : option string) : option string :=
  match s with
  | Some x => if JsString.nonEmpty x then Some x else None
  | None => None
  end.

(** The three variables the routing sets. *)
Record Routing : Type := {
  outputIndex : Z;
  recognizedIntent : option string;
  clarificationMessage : option string
}.

Section Node.

Variable base64 : string -> string.
Variable clock : nat -> string.
Variable putSettings : nat -> IHttpRequestOptions -> string + SettingsResponse.
Variable postAppend : nat -> IHttpRequestOptions -> string + AppendResponse.
Variable postProcess : nat -> IHttpRequestOptions -> string + ProcessResponse.
Variable ctx : Context.

Definition numIntents : nat := List.length (intents ctx).
Definition totalOutputs : nat := (numIntents + 1)%nat.

Definition intentJson (intent : IntentOption) : JsValue :=
  JObj [("key", JStr (intent_key intent));
        ("name", JStr (intent_name intent));
        ("description", JStr (intent_description intent))].

Definition settingsUrl : string := cred_url (credentials ctx) ++ "/api/settings".
Definition appendUrl : string := cred_url (credentials ctx) ++ "/api/conversations/append".
Definition processUrl : string := cred_url (credentials ctx) ++ "/api/settings/process".

Definition putSettingsOptions (itemIndex : nat) : IHttpRequestOptions :=
  {| request_method := "PUT";
     request_url := settingsUrl;
     request_headers := jsonHeaders base64 (credentials ctx);
     request_body := [("intents", JArr (List.map intentJson (intents ctx)));
                      ("prompt", JStr (systemPrompt ctx itemIndex))];
     request_json := true |}.

Definition appendMessageOptions (itemIndex : nat) : IHttpRequestOptions :=
  {| request_method := "POST";
     request_url := appendUrl;
     request_headers := jsonHeaders base64 (credentials ctx);
     request_body := [("chatId", JStr (chatId ctx itemIndex));
                      ("role", JStr "user");
                      ("content", JStr (userMessage ctx itemIndex))];
     request_json := true |}.

Definition processOptions (itemIndex : nat) (settingsId : string) : IHttpRequestOptions :=
  {| request_method := "POST";
     request_url := processUrl;
     request_headers := jsonHeaders base64 (credentials ctx);
     request_body := [("settings_id", JStr settingsId);
                      ("chat_id", JStr (chatId ctx itemIndex))];
     request_json := true |}.

Definition requestFailed (what url : string) (itemIndex : nat) (message : string) : JsError :=
  NodeOperationError ("Failed to " ++ what ++ ": " ++ message ++ ". URL: " ++ url) itemIndex.

(** The routing of a response (source lines 288-302). *)
Definition routeResponse (r : ProcessResponse) : Routing :=
  match truthyString (response_intent r) with
  | Some intent =>
      let intentIndex := findIndex (intents ctx) intent 0 in
      if (0 <=? intentIndex)%Z then
        {| outputIndex := intentIndex; recognizedIntent := Some intent;
           clarificationMessage := None |}
      else
        {| outputIndex := (Z.of_nat totalOutputs - 1)%Z; recognizedIntent := None;
           clarificationMessage := None |}
  | None =>
      {| outputIndex := (Z.of_nat totalOutputs - 1)%Z; recognizedIntent := None;
         clarificationMessage := truthyString (response_clarification_message r) |}
  end.

Definition isSome {A : Type} (o : option A) : bool :=
  match o with Some _ => true | None => false end.

Definition processedItemOf (itemIndex : nat) (item : INodeExecutionData) (settingsId : string)
    (routing : Routing) (now : string) : INodeExecutionData :=
  {| json :=
       setProp "metadata"
         (JObj [("processingTime", JStr now);
                ("hasIntent", JBool (isSome (recognizedIntent routing)));
                ("hasClarification", JBool (isSome (clarificationMessage routing)))])
         (setProp "settingsId" (JStr settingsId)
            (setProp "userMessage" (JStr (userMessage ctx itemIndex))
               (setProp "chatId" (JStr (chatId ctx itemIndex))
                  (setProp "clarificationMessage" (jsonOfKey (clarificationMessage routing))
                     (setProp "recognizedIntent" (jsonOfKey (recognizedIntent routing))
                        (json item))))));
     binary := binary item;
     pairedItem := Some itemIndex |}.

Definition errorItemOf (itemIndex : nat) (item : INodeExecutionData) (message now : string)
  : INodeExecutionData :=
  {| json :=
       setProp "metadata"
         (JObj [("processingTime", JStr now);
                ("hasError", JBool true);
                ("errorMessage", JStr message)])
         (setProp "clarificationMessage" JNull
            (setProp "recognizedIntent" JNull
               (setProp "error" (JStr message) (json item))));
     binary := None;
     pairedItem := Some itemIndex |}.

(** [returnData[i].push(x)] inside the computation. *)
Definition push (returnData : list (list INodeExecutionData)) (i : Z) (x : INodeExecutionData)
  : M (list (list INodeExecutionData)) :=
  match pushAt returnData i x with
  | Some returnData' => mret returnData'
  | None => mthrow pushTypeError
  end.

Definition tryBlock (returnData : list (list INodeExecutionData)) (itemIndex : nat)
    (item : INodeExecutionData) : M (list (list INodeExecutionData)) :=
  (settingsResponse <- httpRequest putSettings (putSettingsOptions itemIndex)
                         (requestFailed "create settings" settingsUrl itemIndex) ;;
   _ <- httpRequest postAppend (appendMessageOptions itemIndex)
          (requestFailed "append message" appendUrl itemIndex) ;;
   processResponse <- httpRequest postProcess
                        (processOptions itemIndex (response_id settingsResponse))
                        (requestFailed "process intent" processUrl itemIndex) ;;
   now <- newDate clock ;;
   push returnData (outputIndex (routeResponse processResponse))
     (processedItemOf itemIndex item (response_id settingsResponse)
        (routeResponse processResponse) now))%M.

Definition catchBlock (returnData : list (list INodeExecutionData)) (itemIndex : nat)
    (item : INodeExecutionData) (e : JsError) : M (list (list INodeExecutionData)) :=
  if continueOnFail ctx then
    (now <- newDate clock ;;
     push returnData (Z.of_nat totalOutputs - 1)%Z
       (errorItemOf itemIndex item (error_message e) now))%M
  else mthrow (asNodeOperationError e itemIndex).

Fixpoint itemLoop (items : list INodeExecutionData) (itemIndex : nat)
    (returnData : list (list INodeExecutionData)) : M (list (list INodeExecutionData)) :=
  match items with
  | [] => mret returnData
  | item :: rest =>
      (returnData' <- mcatch (tryBlock returnData itemIndex item)
                        (catchBlock returnData itemIndex item) ;;
       itemLoop rest (S itemIndex) returnData')%M
  end.

Definition execute (items : list INodeExecutionData) : M (list (list INodeExecutionData)) :=
  if credentialsMissing (credentials ctx) then
    mthrow (NodeOperationError (missingCredentialsMessage (credentials ctx)) 0)
  else
    (returnData <- itemLoop items 0 (replicate totalOutputs []) ;;
     mret (returned returnData))%M.

End Node.

End Remote.

(** The requests [ConversationAppend] sends for the items at the positions
    [ks] that pass the parameter check. *)
Definition appendRequests (base64 : string -> string) (ctx : ConversationAppend.Context)
    (ks : list nat) : list IHttpRequestOptions :=
  List.map (ConversationAppend.appendMessageOptions base64 ctx)
    (List.filter (fun k => negb (ConversationAppend.parametersMissing ctx k)) ks).

(** The item at position [k] passes the parameter check of
    [ConversationAppend] and the service accepts its request when it is the
    [k]-th request. *)
Definition appendAccepted (base64 : string -> string)
    (postAppend : nat -> IHttpRequestOptions -> string + AppendResponse)
    (ctx : ConversationAppend.Context) (k : nat) : Prop :=
  ConversationAppend.parametersMissing ctx k = false
  /\ exists r, postAppend k (ConversationAppend.appendMessageOptions base64 ctx k) = inr r.

(** The requests item [i] of the service-backed node causes when its first
    request is the request number [n]: the settings request; then, only when
    that one is accepted, the append request; then, only when that one is
    accepted too, the process request, with the id the settings request was
    answered with. *)
Definition requestsOf (base64 : string -> string)
    (putSettings : nat -> IHttpRequestOptions -> string + SettingsResponse)
    (postAppend : nat -> IHttpRequestOptions -> string + AppendResponse)
    (ctx : Remote.Context) (i n : nat) : list IHttpRequestOptions :=
  match putSettings n (Remote.putSettingsOptions base64 ctx i) with
  | inl _ => [Remote.putSettingsOptions base64 ctx i]
  | inr s =>
      match postAppend (n + 1)%nat (Remote.appendMessageOptions base64 ctx i) with
      | inl _ => [Remote.putSettingsOptions base64 ctx i;
                  Remote.appendMessageOptions base64 ctx i]
      | inr _ => [Remote.putSettingsOptions base64 ctx i;
                  Remote.appendMessageOptions base64 ctx i;
                  Remote.processOptions base64 ctx i (response_id s)]
      end
  end.

(** The record was emitted for item [i] by the service-backed node: as a
    routed record in the channel [c] the response was routed to, or, under
    continue-on-fail, as an error record in the last channel. *)
Definition remoteRecord (ctx : Remote.Context) (i : nat) (item : INodeExecutionData)
    (c : Z) (out : INodeExecutionData) : Prop :=
  (exists settingsId response now,
      out = Remote.processedItemOf ctx i item settingsId (Remote.routeResponse ctx response) now
      /\ c = Remote.outputIndex (Remote.routeResponse ctx response))
  \/ (Remote.continueOnFail ctx = true
      /\ c = Z.of_nat (Remote.numIntents ctx)
      /\ exists message now, out = Remote.errorItemOf i item message now).

(** The three requests of item [k] of the service-backed node when each is
    accepted: the process request carries the id the settings request was
    answered with, the settings request being the request number [3 * k]. *)
Definition acceptedRequests (base64 : string -> string)
    (putSettings : nat -> IHttpRequestOptions -> string + SettingsResponse)
    (ctx : Remote.Context) (k : nat) : list IHttpRequestOptions :=
  [Remote.putSettingsOptions base64 ctx k;
   Remote.appendMessageOptions base64 ctx k;
   Remote.processOptions base64 ctx k
     match putSettings (3 * k)%nat (Remote.putSettingsOptions base64 ctx k) with
     | inr s => response_id s
     | inl _ => EmptyString
     end].

(** The service accepts the three requests of item [k], sent as the
    requests number [3 * k], [3 * k + 1] and [3 * k + 2]. *)
Definition remoteAccepted (base64 : string -> string)
    (putSettings : nat -> IHttpRequestOptions -> string + SettingsResponse)
    (postAppend : nat -> IHttpRequestOptions -> string + AppendResponse)
    (postProcess : nat -> IHttpRequestOptions -> string + ProcessResponse)
    (ctx : Remote.Context) (k : nat) : Prop :=
  exists s a p,
    putSettings (3 * k)%nat (Remote.putSettingsOptions base64 ctx k) = inr s
    /\ postAppend (3 * k + 1)%nat (Remote.appendMessageOptions base64 ctx k) = inr a
    /\ postProcess (3 * k + 2)%nat (Remote.processOptions base64 ctx k (response_id s)) = inr p.

(** ** Sample data for the further properties *)

(** The sample intents under the [error] policy with continue-on-fail, and
    a node with no intent at all under the same settings. *)
Definition sampleErrorContext : ExecuteContext :=
  {| intentOptions := intentOptions (sampleContext "error");
     fallbackBehavior := "error";
     options := defaultOptions;
     continueOnFail := true |}.

Definition emptyErrorContext : ExecuteContext :=
  {| intentOptions := [];
     fallbackBehavior := "error";
     options := defaultOptions;
     continueOnFail := true |}.

Definition sampleCredentials : Credentials :=
  {| cred_url := "https://intents.example"; cred_systemName := "crm"; cred_apiKey := "secret" |}.

(** A stand-in for the base64 encoder. *)
Definition sampleBase64 : string -> string := fun s => s.

(** A [ConversationAppend] node whose k-th item has the k-th of [contents]
    as message content. *)
Definition sampleAppendContext (contents : list string) (cof : bool)
  : ConversationAppend.Context :=
  {| ConversationAppend.credentials := sampleCredentials;
     ConversationAppend.chatId := fun _ => "chat-1";
     ConversationAppend.role := fun _ => "user";
     ConversationAppend.content := fun k => default "" (contents !! k);
     ConversationAppend.includeOriginalData := fun _ => None;
     ConversationAppend.continueOnFail := cof |}.

(** A service that accepts every append request, and one that rejects
    every request. *)
Definition acceptAppend : nat -> IHttpRequestOptions -> string + AppendResponse :=
  fun _ _ => inr {| response_messageId := "m-1"; response_chatId := "chat-1" |}.

Definition rejectAll {R : Type} : nat -> IHttpRequestOptions -> string + R :=
  fun _ _ => inl "unavailable".

(** A service-backed node with two intents. *)
Definition sampleRemoteContext (cof : bool) : Remote.Context :=
  {| Remote.credentials := sampleCredentials;
     Remote.intents :=
       [{| Remote.intent_key := "greeting"; Remote.intent_name := "Greeting";
           Remote.intent_description := "" |};
        {| Remote.intent_key := "book"; Remote.intent_name := "Booking";
           Remote.intent_description := "" |}];
     Remote.userMessage := fun _ => "a table for two";
     Remote.chatId := fun _ => "chat-1";
     Remote.systemPrompt := fun _ => "";
     Remote.continueOnFail := cof |}.

Definition acceptSettings : nat -> IHttpRequestOptions -> string + SettingsResponse :=
  fun _ _ => inr {| response_id := "settings-1" |}.

(** A service that recognises the second intent for every message. *)
Definition answerBook : nat -> IHttpRequestOptions -> string + ProcessResponse :=
  fun _ _ => inr {| response_intent := Some "book"; response_clarification_message := None |}.

(** ** Facts about strings and objects *)

Example split_ex : JsString.split JsString.comma "hello, hi,,x," = ["hello"; " hi"; ""; "x"; ""].
Proof. reflexivity. Qed.

Example stringify_ex :
  JSON_stringify sampleEngine
    (JObj [("a", JStr "x"); ("b", JArr [JNull; JBool true; JNum 1%float])])
  = "{" ++ Json.quote "a" ++ ":" ++ Json.quote "x" ++ "," ++ Json.quote "b" ++ ":[null,true,0]}".
Proof. reflexivity. Qed.

(** [String] of an array joins its elements, and fails on an object that
    has an own [toString] property. *)
Example toString_ex :
  ToString sampleEngine (JArr [JStr "a"; JNull; JArr [JBool true; JObj []]])
  = Returned "a,,true,[object Object]"
  /\ ToString sampleEngine (JArr [JStr "a"; JObj [("toString", JStr "x")]])
     = Failed cannotConvert.
Proof. split; reflexivity. Qed.

(** Property order: array indices first, in ascending order. *)
Example createDataProperty_ex :
  createDataProperty "2" JNull (createDataProperty "b" JNull (createDataProperty "10" JNull []))
  = [("2", JNull); ("10", JNull); ("b", JNull)].
Proof. reflexivity. Qed.

Lemma includes_empty (text : string) : JsString.includes text "" = true.
Proof. destruct text; reflexivity. Qed.

Lemma nonEmpty_true (s : string) : JsString.nonEmpty s = true <-> s <> "".
Proof. destruct s; simpl; split; congruence. Qed.

Lemma split_not_nil (sep : ascii) (s : string) : JsString.split sep s <> [].
Proof.
  destruct s as [|c t]; simpl; [discriminate|].
  destruct (Ascii.eqb c sep); [discriminate|].
  destruct (JsString.split sep t); discriminate.
Qed.

Lemma keywordsOf_not_nil (rt : Engine) (kw : string) : keywordsOf rt kw <> [].
Proof.
  unfold keywordsOf. pose proof (split_not_nil JsString.comma kw) as H.
  destruct (JsString.split JsString.comma kw); [congruence | discriminate].
Qed.

Lemma getProp_setProp_eq (k : string) (v : JsValue) (o : JsObject) :
  getProp k (setProp k v o) = Some v.
Proof.
  induction o as [|[k' v'] rest IH]; simpl.
  - now rewrite String.eqb_refl.
  - destruct (String.eqb k k') eqn:E; simpl; rewrite ?String.eqb_refl, ?E; auto.
Qed.

Lemma getProp_setProp_ne (k k' : string) (v : JsValue) (o : JsObject) :
  k <> k' -> getProp k (setProp k' v o) = getProp k o.
Proof.
  intros Hne. apply String.eqb_neq in Hne.
  induction o as [|[k0 v0] rest IH]; simpl.
  - now rewrite Hne.
  - destruct (String.eqb k' k0) eqn:E; simpl.
    + apply String.eqb_eq in E. subst k0. now rewrite Hne.
    + destruct (String.eqb k k0); auto.
Qed.




(** ** The intent loop *)

Section ClassifierFacts.

Variable rt : Engine.
Variables (cs : bool) (thr : float) (text : string) (itemJson : JsObject).

Lemma recognize_cons (intent : Intent) (rest : list Intent) (i : nat) (c0 : float) :
  recognize rt cs thr text itemJson (intent :: rest) i c0 =
  if selectable rt cs thr text intent then selectionOf rt cs text itemJson i intent
  else recognize rt cs thr text itemJson rest (S i)
         (if hasKeywordMatch rt cs text intent then perIntentConfidence rt cs text intent
          else c0).
Proof.
  unfold selectionOf, selectable, reachesThreshold, hasKeywordMatch, perIntentConfidence.
  simpl. destruct (keywords intent) as [kw|]; [|reflexivity].
  destruct (JsString.nonEmpty kw); [|reflexivity].
  destruct (0 <? _)%nat; [|reflexivity].
  simpl. destruct (PrimFloat.leb thr _); reflexivity.
Qed.

(** The loop breaks at the first selectable intent, whatever follows it. *)
Lemma recognize_first (pre post : list Intent) (sel : Intent) (i : nat) (c0 : float) :
  Forall (fun x => selectable rt cs thr text x = false) pre ->
  selectable rt cs thr text sel = true ->
  recognize rt cs thr text itemJson (pre ++ sel :: post)%list i c0
  = selectionOf rt cs text itemJson (i + List.length pre) sel.
Proof.
  intros Hpre Hsel. revert i c0.
  induction Hpre as [|x pre Hx Hpre IH]; intros i c0.
  - rewrite app_nil_l, recognize_cons, Hsel. simpl. now rewrite Nat.add_0_r.
  - rewrite <- app_comm_cons, recognize_cons, Hx, IH. simpl.
    f_equal. lia.
Qed.

(** Without a selectable intent the loop falls through: nothing is
    recognised, no error is raised, and [confidence] is what the last intent
    with a found token left in it, or the value on entry. *)
Lemma recognize_none (intents : list Intent) (i : nat) (c0 : float) :
  Forall (fun x => selectable rt cs thr text x = false) intents ->
  exists c,
    recognize rt cs thr text itemJson intents i c0
    = {| recognizedIntentIndex := (-1)%Z; recognizedIntentKey := None;
         extractedParameters := []; confidence := c; thrown := None |}
    /\ ((Forall (fun x => hasKeywordMatch rt cs text x = false) intents /\ c = c0)
        \/ exists k last,
             intents !! k = Some last
             /\ hasKeywordMatch rt cs text last = true
             /\ c = perIntentConfidence rt cs text last
             /\ Forall (fun x => hasKeywordMatch rt cs text x = false) (drop (S k) intents)).
Proof.
  intros Hnone. revert i c0.
  induction Hnone as [|x rest Hx Hrest IH]; intros i c0.
  - exists c0. split; [reflexivity|]. left. split; [constructor | reflexivity].
  - rewrite recognize_cons, Hx.
    destruct (hasKeywordMatch rt cs text x) eqn:Hm.
    + destruct (IH (S i) (perIntentConfidence rt cs text x)) as (c & Hr & Hc).
      exists c. split; [exact Hr|]. right.
      destruct Hc as [[Hno ->] | (k & last & Hk & Hlast & -> & Hafter)].
      * exists 0%nat, x. simpl. rewrite drop_0. auto.
      * exists (S k), last. simpl. auto.
    + destruct (IH (S i) c0) as (c & Hr & Hc).
      exists c. split; [exact Hr|].
      destruct Hc as [[Hno ->] | (k & last & Hk & Hlast & -> & Hafter)].
      * left. split; [constructor; assumption | reflexivity].
      * right. exists (S k), last. simpl. auto.
Qed.

(** Either no intent is selectable, or the list splits at the first one. *)
Lemma first_selectable (intents : list Intent) :
  Forall (fun x => selectable rt cs thr text x = false) intents
  \/ exists pre sel post,
       intents = (pre ++ sel :: post)%list
       /\ Forall (fun x => selectable rt cs thr text x = false) pre
       /\ selectable rt cs thr text sel = true.
Proof.
  induction intents as [|x rest IH].
  - left. constructor.
  - destruct (selectable rt cs thr text x) eqn:Hx.
    + right. exists [], x, rest. repeat split; [constructor | assumption].
    + destruct IH as [Hnone | (pre & sel & post & -> & Hpre & Hsel)].
      * left. constructor; assumption.
      * right. exists (x :: pre), sel, post. repeat split; [constructor|]; assumption.
Qed.

(** The index the loop leaves is -1, without key, parameters or error, or a
    position of the list, and then the outcome is that intent's selection. *)
Lemma classify_shape (intents : list Intent) :
  let r := classify rt cs thr text itemJson intents in
  (recognizedIntentIndex r = (-1)%Z /\ recognizedIntentKey r = None
   /\ extractedParameters r = [] /\ thrown r = None)
  \/ exists k sel,
       intents !! k = Some sel
       /\ r = selectionOf rt cs text itemJson k sel
       /\ selectable rt cs thr text sel = true
       /\ Forall (fun x => selectable rt cs thr text x = false) (take k intents).
Proof.
  unfold classify.
  destruct (first_selectable intents) as [Hnone | (pre & sel & post & -> & Hpre & Hsel)].
  - left. destruct (recognize_none intents 0 0%float Hnone) as (c & -> & _). auto.
  - right. exists (List.length pre), sel.
    rewrite (recognize_first pre post sel 0 0%float Hpre Hsel). simpl.
    repeat split; auto.
    + rewrite lookup_app_r by lia. now rewrite Nat.sub_diag.
    + now rewrite take_app_length.
Qed.


End ClassifierFacts.

(** ** Properties of the keyword classifier *)

Lemma hasKeywordMatch_found (rt : Engine) (cs : bool) (text : string) (intent : Intent) :
  hasKeywordMatch rt cs text intent = true ->
  exists kw token,
    keywords intent = Some kw /\ kw <> ""
    /\ token ∈ keywordsOf rt kw
    /\ JsString.includes text (normalizeCase rt cs token) = true.
Proof.
  unfold hasKeywordMatch. destruct (keywords intent) as [kw|]; [|discriminate].
  intros [Hkw Hlen]%andb_true_iff. apply nonEmpty_true in Hkw.
  unfold keywordMatches in Hlen.
  destruct (List.filter _ (keywordsOf rt kw)) as [|token found] eqn:Hf; [discriminate|].
  assert (Hin : List.In token (List.filter
            (fun keyword => JsString.includes text (normalizeCase rt cs keyword))
            (keywordsOf rt kw)))
    by (rewrite Hf; now left).
  apply List.filter_In in Hin as [Hin Hinc].
  exists kw, token. repeat split; auto. now apply list_elem_of_In.
Qed.

Lemma selectable_false_iff (rt : Engine) (cs : bool) (thr : float) (text : string)
    (x : Intent) :
  selectable rt cs thr text x = false <->
  (hasKeywordMatch rt cs text x = true -> reachesThreshold rt cs thr text x = false).
Proof.
  unfold selectable.
  destruct (hasKeywordMatch rt cs text x), (reachesThreshold rt cs thr text x);
    simpl; split; auto; intros H; discriminate (H eq_refl).
Qed.

(** C2, as amended: among the intents that have at least one keyword token
    found in the text and a confidence at or above the threshold, the
    classifier selects the earliest declared one, reports that intent's key
    and confidence, and does not look at the intents declared after it: the
    outcome is the same whatever follows, a later intent of higher confidence
    included. *)
Theorem C2_first_match_wins (rt : Engine) (cs : bool) (thr : float) (text : string)
    (itemJson : JsObject) (intents : list Intent) (i : nat) (sel : Intent) :
  intents !! i = Some sel ->
  hasKeywordMatch rt cs text sel = true ->
  reachesThreshold rt cs thr text sel = true ->
  (forall j x, (j < i)%nat -> intents !! j = Some x ->
               hasKeywordMatch rt cs text x = true -> reachesThreshold rt cs thr text x = false) ->
  let r := classify rt cs thr text itemJson intents in
  recognizedIntentIndex r = Z.of_nat i
  /\ recognizedIntentKey r = Some (key sel)
  /\ confidence r = perIntentConfidence rt cs text sel
  /\ forall later, classify rt cs thr text itemJson (take i intents ++ sel :: later)%list = r.
Proof.
  intros Hi Hm Hr Hbefore r.
  assert (Hsel : selectable rt cs thr text sel = true)
    by (unfold selectable; now rewrite Hm, Hr).
  assert (Hpre : Forall (fun x => selectable rt cs thr text x = false) (take i intents)).
  { apply Forall_lookup_2. intros j x Hj.
    apply lookup_take_Some in Hj as [Hj Hlt].
    apply selectable_false_iff. eauto. }
  assert (Hall : forall later,
             classify rt cs thr text itemJson (take i intents ++ sel :: later)%list
             = selectionOf rt cs text itemJson i sel).
  { intros later. unfold classify. rewrite (recognize_first _ _ _ _ _ _ _ _ _ _ Hpre Hsel).
    simpl. rewrite length_take_le; [reflexivity|].
    apply lookup_lt_Some in Hi. lia. }
  assert (Hr' : r = selectionOf rt cs text itemJson i sel).
  { subst r. rewrite <- (take_drop_middle intents i sel Hi) at 1. apply Hall. }
  rewrite Hr'. repeat split; auto.
Qed.

(** The claim C2 as stated fails at threshold 0: the first intent has no
    token in the text, so its confidence 0 reaches the threshold, yet the
    classifier selects the second intent. *)
Lemma C2_counterexample :
  ~ (forall (rt : Engine) (cs : bool) (thr : float) (text : string) (itemJson : JsObject)
            (intents : list Intent) (i j : nat) (x y : Intent),
        intents !! i = Some x -> intents !! j = Some y -> (i < j)%nat ->
        reachesThreshold rt cs thr text x = true ->
        reachesThreshold rt cs thr text y = true ->
        (forall k z, (k < i)%nat -> intents !! k = Some z ->
                     reachesThreshold rt cs thr text z = false) ->
        recognizedIntentIndex (classify rt cs thr text itemJson intents) = Z.of_nat i).
Proof.
  intros H.
  specialize (H sampleEngine false 0%float "a" []
                [keywordIntent "A" "x"; keywordIntent "B" "a"; keywordIntent "C" "a"]
                0%nat 1%nat (keywordIntent "A" "x") (keywordIntent "B" "a")
                eq_refl eq_refl).
  assert (Hidx : recognizedIntentIndex
                   (classify sampleEngine false 0%float "a" []
                      [keywordIntent "A" "x"; keywordIntent "B" "a"; keywordIntent "C" "a"])
                 = 1%Z) by reflexivity.
  rewrite Hidx in H.
  assert (1%Z = Z.of_nat 0) as Habs; [|discriminate Habs].
  apply H; [lia | reflexivity | reflexivity | intros k z Hk; lia].
Qed.



(** C9, as amended: when no intent is selected (every intent with a found
    token stays below the threshold), the outcome has index -1 and no key,
    and the reported confidence is the one of the last intent that had at
    least one token found in the text; it is the initial 0 when no intent had
    one.  Intents evaluated after that one, having no token found, leave the
    value as it is. *)
Theorem C9_fall_through_confidence (rt : Engine) (cs : bool) (thr : float) (text : string)
    (itemJson : JsObject) (intents : list Intent) :
  (forall x, x ∈ intents ->
             hasKeywordMatch rt cs text x = true -> reachesThreshold rt cs thr text x = false) ->
  let r := classify rt cs thr text itemJson intents in
  recognizedIntentIndex r = (-1)%Z
  /\ recognizedIntentKey r = None
  /\ (((forall x, x ∈ intents -> hasKeywordMatch rt cs text x = false)
       /\ confidence r = 0%float)
      \/ exists k last,
           intents !! k = Some last
           /\ hasKeywordMatch rt cs text last = true
           /\ confidence r = perIntentConfidence rt cs text last
           /\ forall j x, (k < j)%nat -> intents !! j = Some x ->
                          hasKeywordMatch rt cs text x = false).
Proof.
  intros Hnone r.
  assert (Hall : Forall (fun x => selectable rt cs thr text x = false) intents).
  { apply Forall_forall. intros x Hx. apply selectable_false_iff. now apply Hnone. }
  destruct (recognize_none rt cs thr text itemJson intents 0 0%float Hall) as (c & Hr & Hc).
  subst r. unfold classify. rewrite Hr. simpl. repeat split.
  destruct Hc as [[Hno ->] | (k & last & Hk & Hlast & -> & Hafter)].
  - left. split; [|reflexivity]. intros x Hx.
    rewrite Forall_forall in Hno. now apply Hno.
  - right. exists k, last. repeat split; auto.
    intros j x Hlt Hj. rewrite Forall_lookup in Hafter.
    apply (Hafter (j - S k)%nat). rewrite lookup_drop.
    replace (S k + (j - S k))%nat with j by lia. exact Hj.
Qed.

(** The claim C9 as stated fails when the last intent has no token in the
    text: the first intent leaves 1/3, the last intent's own confidence
    is 0, and 1/3 is what is reported. *)
Lemma C9_counterexample :
  ~ (forall (rt : Engine) (cs : bool) (thr : float) (text : string) (itemJson : JsObject)
            (intents : list Intent) (lastIntent : Intent),
        (forall x, x ∈ intents -> reachesThreshold rt cs thr text x = false) ->
        List.last intents lastIntent = lastIntent ->
        lastIntent ∈ intents ->
        confidence (classify rt cs thr text itemJson intents)
        = perIntentConfidence rt cs text lastIntent).
Proof.
  intros H.
  specialize (H sampleEngine false 0.5%float "a" []
                [keywordIntent "A" "a,b,c"; keywordIntent "B" "x"] (keywordIntent "B" "x")).
  assert (Hc : confidence (classify sampleEngine false 0.5%float "a" []
                             [keywordIntent "A" "a,b,c"; keywordIntent "B" "x"])
               = perIntentConfidence sampleEngine false "a" (keywordIntent "B" "x")).
  { apply H.
    - intros x Hx. apply list_elem_of_In in Hx.
      destruct Hx as [<- | [<- | []]]; reflexivity.
    - reflexivity.
    - apply list_elem_of_In. right. now left. }
  apply (f_equal (PrimFloat.eqb 0%float)) in Hc.
  vm_compute in Hc. discriminate Hc.
Qed.

(** C10: an intent none of whose keyword tokens occurs in the normalised text
    is never selected, whatever the threshold, 0 included: a found token is
    required besides the confidence test. *)
Theorem C10_no_token_no_selection (rt : Engine) (cs : bool) (thr : float) (text : string)
    (itemJson : JsObject) (intents : list Intent) (i : nat) (intent : Intent) :
  intents !! i = Some intent ->
  (forall kw token, keywords intent = Some kw -> token ∈ keywordsOf rt kw ->
                    JsString.includes text (normalizeCase rt cs token) = false) ->
  recognizedIntentIndex (classify rt cs thr text itemJson intents) <> Z.of_nat i.
Proof.
  intros Hi Hnone.
  destruct (classify_shape rt cs thr text itemJson intents)
    as [(Hidx & _) | (k & sel & Hk & Hr & Hsel & _)].
  - rewrite Hidx. lia.
  - rewrite Hr. simpl. intros Heq. apply Nat2Z.inj in Heq. subst k.
    rewrite Hi in Hk. injection Hk as <-.
    apply andb_true_iff in Hsel as [Hm _].
    destruct (hasKeywordMatch_found rt cs text intent Hm) as (kw & token & Hkw & _ & Hin & Hinc).
    rewrite (Hnone kw token Hkw Hin) in Hinc. discriminate.
Qed.

(** ** Parameter extraction *)

Lemma getProp_fieldNames (k : string) (o : JsObject) :
  getProp k o = None <-> k ∉ fieldNames o.
Proof.
  unfold fieldNames. induction o as [|[k' v'] rest IH]; simpl.
  - split; [intros _ H; inversion H | reflexivity].
  - rewrite not_elem_of_cons. destruct (String.eqb_spec k k') as [-> | Hne].
    + split; [discriminate | intros [H _]; congruence].
    + rewrite IH. tauto.
Qed.

Lemma fieldNames_setProp (k name : string) (v : JsValue) (o : JsObject) :
  name ∈ fieldNames (setProp k v o) <-> name = k \/ name ∈ fieldNames o.
Proof.
  unfold fieldNames. induction o as [|[k' v'] rest IH]; simpl.
  - rewrite list_elem_of_singleton. split; [auto|]. intros [H | H]; [exact H | inversion H].
  - destruct (String.eqb_spec k k') as [<- | Hne]; simpl.
    + rewrite !elem_of_cons. tauto.
    + rewrite !elem_of_cons, IH. tauto.
Qed.

Lemma fieldNames_setProp_NoDup (k : string) (v : JsValue) (o : JsObject) :
  NoDup (fieldNames o) -> NoDup (fieldNames (setProp k v o)).
Proof.
  induction o as [|[k' v'] rest IH]; simpl.
  - intros _. apply NoDup_singleton.
  - intros [Hnotin Hrest]%NoDup_cons.
    destruct (String.eqb_spec k k') as [<- | Hne]; simpl.
    + apply NoDup_cons. auto.
    + apply NoDup_cons. split; [|now apply IH].
      intros [Heq | Hin]%fieldNames_setProp; [congruence | contradiction].
Qed.

(** Where it is placed, a new property adds its name to the names. *)
Lemma fieldNames_insertIndex (n : N) (k : string) (v : JsValue) (o : JsObject) :
  fieldNames (insertIndex n k v o) ≡ₚ k :: fieldNames o.
Proof.
  induction o as [|[k' v'] rest IH]; simpl; [reflexivity|].
  destruct (JsString.arrayIndex k') as [m|]; [|reflexivity].
  destruct (m <? n)%N; [|reflexivity].
  simpl. rewrite IH. apply Permutation_swap.
Qed.

Lemma fieldNames_createDataProperty (k name : string) (v : JsValue) (o : JsObject) :
  name ∈ fieldNames (createDataProperty k v o) <-> name = k \/ name ∈ fieldNames o.
Proof.
  unfold createDataProperty. destruct (getProp k o) as [x|] eqn:Hk.
  - apply fieldNames_setProp.
  - destruct (JsString.arrayIndex k) as [n|].
    + rewrite fieldNames_insertIndex, elem_of_cons. tauto.
    + unfold fieldNames. rewrite List.map_app, elem_of_app. simpl.
      rewrite list_elem_of_singleton. tauto.
Qed.

Lemma fieldNames_createDataProperty_NoDup (k : string) (v : JsValue) (o : JsObject) :
  NoDup (fieldNames o) -> NoDup (fieldNames (createDataProperty k v o)).
Proof.
  intros Hdup. unfold createDataProperty. destruct (getProp k o) as [x|] eqn:Hk.
  - now apply fieldNames_setProp_NoDup.
  - apply getProp_fieldNames in Hk.
    destruct (JsString.arrayIndex k) as [n|].
    + rewrite fieldNames_insertIndex. apply NoDup_cons. auto.
    + unfold fieldNames. rewrite List.map_app. simpl.
      apply NoDup_app. split; [exact Hdup|]. split; [|apply NoDup_singleton].
      intros x Hx Hx'. apply list_elem_of_singleton in Hx'. subst x. exact (Hk Hx).
Qed.



Lemma assign_names (k name : string) (v : JsValue) (o : ParameterObject) :
  name ∈ fieldNames (ownProperties (assign k v o)) ->
  name = k \/ name ∈ fieldNames (ownProperties o).
Proof.
  unfold assign.
  destruct (hasOwnProperty (ownProperties o) k); simpl.
  - apply fieldNames_setProp.
  - destruct (String.eqb k "__proto__"); [destruct (lookupProto (prototype o))|]; simpl;
      rewrite ?fieldNames_createDataProperty; tauto.
Qed.

Lemma assign_NoDup (k : string) (v : JsValue) (o : ParameterObject) :
  NoDup (fieldNames (ownProperties o)) ->
  NoDup (fieldNames (ownProperties (assign k v o))).
Proof.
  intros Hdup. unfold assign.
  destruct (hasOwnProperty (ownProperties o) k); simpl.
  - now apply fieldNames_setProp_NoDup.
  - destruct (String.eqb k "__proto__"); [destruct (lookupProto (prototype o))|]; simpl;
      auto using fieldNames_createDataProperty_NoDup.
Qed.





Section Extraction.

Variable itemJson : JsObject.
Hypothesis plain : hasOwnProperty itemJson "hasOwnProperty" = false.








End Extraction.

(** The names of the result are distinct, and each is a declared name or
    was there before, whether the loop is left by an error or not. *)
Lemma extractParameters_names (itemJson : JsObject) (params : list ParameterOption) :
  forall acc,
    NoDup (fieldNames (ownProperties acc)) ->
    NoDup (fieldNames (ownProperties (fst (extractParameters itemJson params acc))))
    /\ forall name,
         name ∈ fieldNames (ownProperties (fst (extractParameters itemJson params acc))) ->
         name ∈ fieldNames (ownProperties acc) \/ exists p, p ∈ params /\ param_key p = name.
Proof.
  induction params as [|q rest IH]; intros acc Hacc.
  - split; [exact Hacc | auto].
  - simpl. destruct (callHasOwnProperty itemJson (param_key q)) as [b|e]; [|simpl; auto].
    fold (extractionStep itemJson q acc).
    assert (Hdup : NoDup (fieldNames (ownProperties (extractionStep itemJson q acc)))).
    { unfold extractionStep. destruct (getProp (param_key q) itemJson);
        [|destruct (JsString.nonEmpty (param_defaultValue q))];
        auto using assign_NoDup. }
    assert (Hnames : forall name,
               name ∈ fieldNames (ownProperties (extractionStep itemJson q acc)) ->
               name = param_key q \/ name ∈ fieldNames (ownProperties acc)).
    { intros name. unfold extractionStep. destruct (getProp (param_key q) itemJson);
        [|destruct (JsString.nonEmpty (param_defaultValue q))];
        try apply assign_names; tauto. }
    destruct (IH _ Hdup) as [Hres Hin]. split; [exact Hres|].
    intros name Hname. destruct (Hin name Hname) as [Hacc' | (p & Hp & Hkey)].
    + destruct (Hnames name Hacc') as [-> | Hold]; [|now left].
      right. exists q. split; [now left | reflexivity].
    + right. exists p. split; [now right | exact Hkey].
Qed.



(** ** Channels *)

Lemma pushAt_Some (rd rd' : list (list INodeExecutionData)) (i : Z) (x : INodeExecutionData) :
  pushAt rd i x = Some rd' ->
  (0 <= i)%Z
  /\ exists ch, rd !! Z.to_nat i = Some ch /\ rd' = <[Z.to_nat i := (ch ++ [x])%list]> rd.
Proof.
  unfold pushAt. destruct (Z.ltb_spec i 0); [discriminate|].
  destruct (rd !! Z.to_nat i) as [ch|]; [|discriminate].
  intros [= <-]. split; [assumption|]. now exists ch.
Qed.

Lemma pushAt_in_range (rd : list (list INodeExecutionData)) (i : Z) (x : INodeExecutionData) :
  (0 <= i < Z.of_nat (List.length rd))%Z -> exists rd', pushAt rd i x = Some rd'.
Proof.
  intros Hi. unfold pushAt. destruct (Z.ltb_spec i 0); [lia|].
  destruct (lookup_lt_is_Some_2 rd (Z.to_nat i)) as [ch Hch]; [lia|].
  rewrite Hch. eauto.
Qed.

Lemma pushAt_out_of_range (rd : list (list INodeExecutionData)) (i : Z)
    (x : INodeExecutionData) :
  (Z.of_nat (List.length rd) <= i)%Z -> pushAt rd i x = None.
Proof.
  intros Hi. unfold pushAt. destruct (Z.ltb_spec i 0); [reflexivity|].
  rewrite lookup_ge_None_2 by lia. reflexivity.
Qed.

Lemma pushAt_length (rd rd' : list (list INodeExecutionData)) (i : Z) (x : INodeExecutionData) :
  pushAt rd i x = Some rd' -> List.length rd' = List.length rd.
Proof.
  intros (_ & ch & _ & ->)%pushAt_Some. apply length_insert.
Qed.

Lemma pushAt_emittedCount (rd rd' : list (list INodeExecutionData)) (i : Z)
    (x : INodeExecutionData) :
  pushAt rd i x = Some rd' -> emittedCount rd' = S (emittedCount rd).
Proof.
  intros (_ & ch & Hch & ->)%pushAt_Some. unfold emittedCount.
  rewrite insert_take_drop by (now apply lookup_lt_Some in Hch).
  rewrite <- (take_drop_middle rd (Z.to_nat i) ch Hch) at 3.
  rewrite !concat_app. simpl. rewrite !length_app. simpl. lia.
Qed.

(** After a push, a record of a channel is the pushed one, in the channel it
    was pushed to, or was there before. *)
Lemma pushAt_elem (rd rd' : list (list INodeExecutionData)) (i : Z) (x : INodeExecutionData)
    (c : nat) (ch' : list INodeExecutionData) (out : INodeExecutionData) :
  pushAt rd i x = Some rd' -> rd' !! c = Some ch' -> out ∈ ch' ->
  (c = Z.to_nat i /\ out = x) \/ (exists ch, rd !! c = Some ch /\ out ∈ ch).
Proof.
  intros (_ & ch & Hch & ->)%pushAt_Some Hc Hout.
  apply list_lookup_insert_Some in Hc as [(Hi & Hch' & _) | (Hne & Hc)].
  - subst c ch'.
    apply elem_of_app in Hout as [Hout | Hout%list_elem_of_singleton].
    + right. exists ch. now split.
    + left. now split.
  - right. exists ch'. now split.
Qed.

(** ** Routing of one item *)

Section Routing.

Variable rt : Engine.
Variable ctx : ExecuteContext.

(** What the loop leaves for an item it classifies without error: no intent,
    or an intent of the list with its key. *)
Lemma recognitionOf_cases (item : INodeExecutionData) (r : Recognition) :
  recognitionOf rt ctx item = Returned r ->
  (recognizedIntentIndex r = (-1)%Z /\ recognizedIntentKey r = None)
  \/ exists k sel,
       intentOptions ctx !! k = Some sel
       /\ recognizedIntentIndex r = Z.of_nat k
       /\ recognizedIntentKey r = Some (key sel).
Proof.
  unfold recognitionOf. destruct (textOf rt ctx item) as [text|e]; [|discriminate].
  cbv zeta.
  destruct (classify_shape rt (caseSensitive ctx) (confidenceThreshold ctx) text
              (json item) (intentOptions ctx)) as [(Hi & Hk & _) | (k & sel & Hk & Hr & _)].
  - destruct (thrown _); [discriminate|]. intros [= <-]. now left.
  - destruct (thrown _); [discriminate|]. intros [= <-]. right.
    exists k, sel. rewrite Hr. auto.
Qed.

Lemma recognition_index_range (item : INodeExecutionData) (r : Recognition) :
  recognitionOf rt ctx item = Returned r ->
  (-1 <= recognizedIntentIndex r < Z.of_nat (numIntents ctx))%Z.
Proof.
  intros Hr. destruct (recognitionOf_cases item r Hr) as [[Hidx _] | (k & sel & Hk & Hidx & _)].
  - rewrite Hidx. lia.
  - rewrite Hidx. apply lookup_lt_Some in Hk. unfold numIntents. lia.
Qed.

(** Whether the [try] block raises an error does not depend on the position
    of the item. *)
Lemma raisedBy_position (i j : nat) (item : INodeExecutionData) :
  raisedBy rt ctx i item = None <-> raisedBy rt ctx j item = None.
Proof.
  unfold raisedBy. destruct (textOf rt ctx item); [|tauto].
  destruct (recognitionOf rt ctx item) as [r|]; [|tauto].
  destruct (0 <=? recognizedIntentIndex r)%Z; [tauto|].
  destruct (String.eqb (fallbackBehavior ctx) "error"); [|tauto].
  split; discriminate.
Qed.

(** How the [try] block ends: with the error the item raises, when it
    raises one; else a selected intent decides the channel, and without one
    the record goes to the last channel when there is a fallback channel and
    is skipped when there is none. *)
Lemma tryBlock_spec (len tick i : nat) (item : INodeExecutionData) :
  match raisedBy rt ctx i item with
  | Some e => tryBlock rt ctx len tick i item = Throw e
  | None =>
      exists text r,
        textOf rt ctx item = Returned text
        /\ recognitionOf rt ctx item = Returned r
        /\ tryBlock rt ctx len tick i item
           = if (0 <=? recognizedIntentIndex r)%Z
             then Route (recognizedIntentIndex r)
                    (processedItemOf item i r text (toISOString rt tick))
             else if hasFallback ctx
                  then Route (Z.of_nat len - 1)%Z
                         (processedItemOf item i r text (toISOString rt tick))
                  else ContinueItemLoop
  end.
Proof.
  unfold raisedBy, recognitionOf, tryBlock, textOf, hasFallback.
  destruct (textToAnalyze rt _ _ _) as [text|e]; [|reflexivity].
  cbv zeta.
  destruct (thrown _); [reflexivity|].
  destruct (0 <=? _)%Z eqn:Hidx.
  - eexists _, _. split; [reflexivity|]. split; [reflexivity|]. now rewrite Hidx.
  - destruct (String.eqb_spec (fallbackBehavior ctx) "route_to_fallback") as [Hf | Hf].
    + rewrite Hf. simpl. eexists _, _. split; [reflexivity|]. split; [reflexivity|].
      now rewrite Hidx.
    + destruct (String.eqb_spec (fallbackBehavior ctx) "error") as [He | He].
      * rewrite He. reflexivity.
      * eexists _, _. split; [reflexivity|]. split; [reflexivity|]. rewrite Hidx.
        destruct (String.eqb (fallbackBehavior ctx) "discard"); reflexivity.
Qed.

(** One turn of the loop on a [returnData] with its [totalOutputs]
    channels.  An item that raises an error is turned into an error record
    under continue-on-fail, unless there is no channel at all, and ends
    [execute] otherwise; an item that raises none is pushed or skipped as the
    [try] block says. *)
Lemma processItem_spec (rd : list (list INodeExecutionData)) (tick i : nat)
    (item : INodeExecutionData) :
  List.length rd = totalOutputs ctx ->
  match raisedBy rt ctx i item with
  | Some e =>
      if continueOnFail ctx then
        if (0 <? totalOutputs ctx)%nat then
          exists rd',
            processItem rt ctx rd tick i item = Returned (rd', S tick)
            /\ pushAt rd (Z.of_nat (errorOutputIndex ctx))
                 (errorItemOf item i (error_message e) (toISOString rt tick)) = Some rd'
        else processItem rt ctx rd tick i item = Failed pushTypeError
      else processItem rt ctx rd tick i item = Failed (asNodeOperationError e i)
  | None =>
      exists text r,
        textOf rt ctx item = Returned text
        /\ recognitionOf rt ctx item = Returned r
        /\ if (0 <=? recognizedIntentIndex r)%Z then
             exists rd',
               processItem rt ctx rd tick i item = Returned (rd', S tick)
               /\ pushAt rd (recognizedIntentIndex r)
                    (processedItemOf item i r text (toISOString rt tick)) = Some rd'
           else if hasFallback ctx then
             exists rd',
               processItem rt ctx rd tick i item = Returned (rd', S tick)
               /\ pushAt rd (Z.of_nat (numIntents ctx))
                    (processedItemOf item i r text (toISOString rt tick)) = Some rd'
           else processItem rt ctx rd tick i item = Returned (rd, tick)
  end.
Proof.
  intros Hlen. pose proof (tryBlock_spec (List.length rd) tick i item) as Htry.
  unfold processItem.
  destruct (raisedBy rt ctx i item) as [e|].
  - rewrite Htry. unfold catchBlock, errorOutputIndex.
    destruct (continueOnFail ctx); [|destruct e; reflexivity].
    unfold totalOutputs in *.
    destruct (hasFallback ctx) eqn:Hf.
    + destruct (Nat.ltb_spec 0 (numIntents ctx + 1)); [|lia].
      replace (Z.of_nat (List.length rd) - 1)%Z with (Z.of_nat (numIntents ctx)) by lia.
      destruct (pushAt_in_range rd (Z.of_nat (numIntents ctx))
                  (errorItemOf item i (error_message e) (toISOString rt tick)) ltac:(lia))
        as [rd' Hpush].
      exists rd'. rewrite Hpush. auto.
    + rewrite Nat.add_0_r in *. destruct (Nat.ltb_spec 0 (numIntents ctx)).
      * destruct (pushAt_in_range rd 0
                    (errorItemOf item i (error_message e) (toISOString rt tick)) ltac:(lia))
          as [rd' Hpush].
        exists rd'. simpl. rewrite Hpush. auto.
      * rewrite pushAt_out_of_range by lia. reflexivity.
  - destruct Htry as (text & r & Htext & Hr & Htry). exists text, r.
    split; [exact Htext|]. split; [exact Hr|]. rewrite Htry.
    pose proof (recognition_index_range item r Hr) as Hrange.
    unfold totalOutputs in Hlen.
    destruct (Z.leb_spec 0 (recognizedIntentIndex r)).
    + destruct (pushAt_in_range rd (recognizedIntentIndex r)
                  (processedItemOf item i r text (toISOString rt tick))) as [rd' Hpush].
      { destruct (hasFallback ctx); lia. }
      exists rd'. rewrite Hpush. auto.
    + destruct (hasFallback ctx); [|reflexivity].
      replace (Z.of_nat (List.length rd) - 1)%Z with (Z.of_nat (numIntents ctx)) by lia.
      destruct (pushAt_in_range rd (Z.of_nat (numIntents ctx))
                  (processedItemOf item i r text (toISOString rt tick)) ltac:(lia))
        as [rd' Hpush].
      exists rd'. rewrite Hpush. auto.
Qed.

(** A turn that does not fail leaves [returnData] as it is or pushes one
    record, which names the item, and keeps the number of channels. *)
Lemma processItem_returned (rd rd' : list (list INodeExecutionData)) (tick tick' i : nat)
    (item : INodeExecutionData) :
  List.length rd = totalOutputs ctx ->
  processItem rt ctx rd tick i item = Returned (rd', tick') ->
  rd' = rd
  \/ exists c out, pushAt rd c out = Some rd' /\ pairedItem out = Some i.
Proof.
  intros Hlen Hp. pose proof (processItem_spec rd tick i item Hlen) as Hspec.
  destruct (raisedBy rt ctx i item) as [e|].
  - destruct (continueOnFail ctx); [|congruence].
    destruct (0 <? totalOutputs ctx)%nat; [|congruence].
    destruct Hspec as (rd0 & Hp0 & Hpush). rewrite Hp in Hp0. injection Hp0 as <- _.
    right. eauto.
  - destruct Hspec as (text & r & _ & _ & Hspec).
    destruct (0 <=? recognizedIntentIndex r)%Z; [|destruct (hasFallback ctx)].
    + destruct Hspec as (rd0 & Hp0 & Hpush). rewrite Hp in Hp0. injection Hp0 as <- _.
      right. eauto.
    + destruct Hspec as (rd0 & Hp0 & Hpush). rewrite Hp in Hp0. injection Hp0 as <- _.
      right. eauto.
    + rewrite Hp in Hspec. injection Hspec as -> _. now left.
Qed.

(** *** The item loop *)

(** An invariant every non-failing turn preserves holds of what the loop
    returns, when it returns. *)
Lemma itemLoop_partial (Inv : list INodeExecutionData -> list (list INodeExecutionData) -> Prop) :
  (forall done item rd tick rd' tick',
      Inv done rd ->
      processItem rt ctx rd tick (List.length done) item = Returned (rd', tick') ->
      Inv (done ++ [item])%list rd') ->
  forall rest done tick rd rd',
    Inv done rd ->
    itemLoop rt ctx rest (List.length done) tick rd = Returned rd' ->
    Inv (done ++ rest)%list rd'.
Proof.
  intros Hstep. induction rest as [|item rest IH]; intros done tick rd rd' Hinv.
  - simpl. intros [= <-]. now rewrite app_nil_r.
  - simpl. destruct (processItem _ _ _ _ _ _) as [[rd1 tick1]|e] eqn:Hp; [|discriminate].
    intros Hloop. rewrite cons_middle, app_assoc. eapply IH with (tick := tick1) (rd := rd1).
    + eapply Hstep; eauto.
    + now rewrite length_app, Nat.add_1_r.
Qed.

Lemma emittedCount_replicate (n : nat) : emittedCount (replicate n []) = 0%nat.
Proof. unfold emittedCount. induction n; simpl; auto. Qed.

Lemma filter_snoc_length {A : Type} (f : A -> bool) (l : list A) (x : A) :
  List.length (List.filter f (l ++ [x])%list)
  = (List.length (List.filter f l) + if f x then 1 else 0)%nat.
Proof.
  rewrite List.filter_app, length_app. simpl. destruct (f x); reflexivity.
Qed.

Lemma routedInv_init : routedInv rt ctx [] (replicate (totalOutputs ctx) []).
Proof.
  split; [apply length_replicate|]. split; [apply emittedCount_replicate|].
  intros c ch out Hc Hout. apply lookup_replicate in Hc as [-> _]. inversion Hout.
Qed.

Lemma routedInv_step (done : list INodeExecutionData) (item : INodeExecutionData)
    (rd rd' : list (list INodeExecutionData)) (tick tick' : nat) :
  routedInv rt ctx done rd ->
  processItem rt ctx rd tick (List.length done) item = Returned (rd', tick') ->
  routedInv rt ctx (done ++ [item])%list rd'.
Proof.
  intros (Hlen & Hcount & Hmem) Hp.
  pose proof (processItem_spec rd tick (List.length done) item Hlen) as Hspec.
  assert (Hold : forall c ch out,
             rd !! c = Some ch -> out ∈ ch ->
             exists i it, (done ++ [item])%list !! i = Some it /\ recordOf rt ctx i it c out).
  { intros c ch out Hc Hout. destruct (Hmem c ch out Hc Hout) as (i & it & Hi & Hrec).
    exists i, it. split; [now apply lookup_app_l_Some | exact Hrec]. }
  assert (Hnew : (done ++ [item])%list !! List.length done = Some item)
    by (apply list_lookup_middle; reflexivity).
  assert (Hpushed : forall c out,
             pushAt rd (Z.of_nat c) out = Some rd' ->
             emits rt ctx item = true ->
             recordOf rt ctx (List.length done) item c out ->
             routedInv rt ctx (done ++ [item])%list rd').
  { intros c out Hpush Hemit Hrec.
    split; [rewrite (pushAt_length _ _ _ _ Hpush); exact Hlen|].
    split.
    - rewrite (pushAt_emittedCount _ _ _ _ Hpush), Hcount, filter_snoc_length, Hemit. lia.
    - intros c' ch out' Hc Hout.
      destruct (pushAt_elem _ _ _ _ _ _ _ Hpush Hc Hout) as [[-> ->] | (ch0 & Hc0 & Hout0)].
      + exists (List.length done), item. rewrite Nat2Z.id. auto.
      + eauto. }
  unfold emits in Hpushed. unfold recordOf in Hpushed.
  pose proof (raisedBy_position 0 (List.length done) item) as Hpos.
  destruct (raisedBy rt ctx (List.length done) item) as [e|] eqn:Hraise.
  - assert (H0 : raisedBy rt ctx 0 item <> None) by (intros H; apply Hpos in H; discriminate).
    destruct (raisedBy rt ctx 0 item) as [e0|]; [|congruence].
    destruct (continueOnFail ctx) eqn:Hcont; [|congruence].
    destruct (0 <? totalOutputs ctx)%nat; [|congruence].
    destruct Hspec as (rd0 & Hp0 & Hpush). rewrite Hp in Hp0. injection Hp0 as <- _.
    apply (Hpushed _ _ Hpush); [reflexivity|]. eauto.
  - rewrite (proj2 Hpos eq_refl) in Hpushed.
    destruct Hspec as (text & r & Htext & Hr & Hspec).
    assert (Hm : matched rt ctx item = (0 <=? recognizedIntentIndex r)%Z)
      by (unfold matched; now rewrite Hr).
    destruct (Z.leb_spec 0 (recognizedIntentIndex r)) as [Hidx | Hidx].
    + destruct Hspec as (rd0 & Hp0 & Hpush). rewrite Hp in Hp0. injection Hp0 as <- _.
      rewrite <- (Z2Nat.id _ Hidx) in Hpush.
      apply (Hpushed _ _ Hpush); [now rewrite Hm|].
      exists text, r, (toISOString rt tick). repeat split; auto.
      destruct (Z.leb_spec 0 (recognizedIntentIndex r)); [now rewrite Z2Nat.id | lia].
    + destruct (hasFallback ctx) eqn:Hf.
      * destruct Hspec as (rd0 & Hp0 & Hpush). rewrite Hp in Hp0. injection Hp0 as <- _.
        apply (Hpushed _ _ Hpush); [now rewrite Hm|].
        exists text, r, (toISOString rt tick). repeat split; auto.
        destruct (Z.leb_spec 0 (recognizedIntentIndex r)); [lia | auto].
      * rewrite Hp in Hspec. injection Hspec as -> _.
        split; [exact Hlen|]. split; [|exact Hold].
        rewrite Hcount, filter_snoc_length. unfold emits.
        rewrite (proj2 Hpos eq_refl), Hm, Hf. simpl. lia.
Qed.

(** Whatever the loop returns satisfies [routedInv]. *)
Lemma itemLoop_routed (items : list INodeExecutionData) (rd : list (list INodeExecutionData)) :
  itemLoop rt ctx items 0 0 (replicate (totalOutputs ctx) []) = Returned rd ->
  routedInv rt ctx items rd.
Proof.
  intros Hloop. change (routedInv rt ctx ([] ++ items)%list rd).
  eapply (itemLoop_partial (routedInv rt ctx)); [| |exact Hloop].
  - intros done item rd0 tick rd' tick'. apply routedInv_step.
  - apply routedInv_init.
Qed.

(** The loop gets past the items that raise no error, and under
    continue-on-fail past every item as long as there is a channel. *)
Lemma itemLoop_returns (items : list INodeExecutionData) :
  forall i tick rd,
    List.length rd = totalOutputs ctx ->
    (forall k item, items !! k = Some item ->
                    raisedBy rt ctx (i + k) item = None
                    \/ (continueOnFail ctx = true /\ (0 < totalOutputs ctx)%nat)) ->
    exists rd' tick',
      itemLoop rt ctx items i tick rd = Returned rd'
      /\ List.length rd' = totalOutputs ctx
      /\ (tick <= tick')%nat.
Proof.
  induction items as [|item rest IH]; intros i tick rd Hlen Hok.
  - exists rd, tick. auto.
  - simpl.
    assert (Hturn : exists rd1 tick1,
               processItem rt ctx rd tick i item = Returned (rd1, tick1)
               /\ List.length rd1 = totalOutputs ctx /\ (tick <= tick1)%nat).
    { pose proof (processItem_spec rd tick i item Hlen) as Hspec.
      specialize (Hok 0%nat item eq_refl). rewrite Nat.add_0_r in Hok.
      destruct (raisedBy rt ctx i item) as [e|].
      - destruct Hok as [Hok | [Hcont Hpos]]; [discriminate|].
        rewrite Hcont in Hspec. apply Nat.ltb_lt in Hpos. rewrite Hpos in Hspec.
        destruct Hspec as (rd1 & Hp & Hpush). exists rd1, (S tick).
        rewrite (pushAt_length _ _ _ _ Hpush). auto.
      - destruct Hspec as (text & r & _ & _ & Hspec).
        destruct (0 <=? recognizedIntentIndex r)%Z; [|destruct (hasFallback ctx)].
        + destruct Hspec as (rd1 & Hp & Hpush). exists rd1, (S tick).
          rewrite (pushAt_length _ _ _ _ Hpush). auto.
        + destruct Hspec as (rd1 & Hp & Hpush). exists rd1, (S tick).
          rewrite (pushAt_length _ _ _ _ Hpush). auto.
        + exists rd, tick. auto. }
    destruct Hturn as (rd1 & tick1 & -> & Hlen1 & Htick).
    destruct (IH (S i) tick1 rd1 Hlen1) as (rd' & tick' & Hloop & Hlen' & Htick').
    { intros k it Hk. replace (S i + k)%nat with (i + S k)%nat by lia. now apply Hok. }
    exists rd', tick'. split; [exact Hloop|]. split; [exact Hlen' | lia].
Qed.

(** The loop ends at the first item whose turn fails. *)
Lemma itemLoop_fails_at (pre post : list INodeExecutionData) (item : INodeExecutionData)
    (e : JsError) :
  forall i tick rd,
    List.length rd = totalOutputs ctx ->
    (forall k x, pre !! k = Some x ->
                 raisedBy rt ctx (i + k) x = None
                 \/ (continueOnFail ctx = true /\ (0 < totalOutputs ctx)%nat)) ->
    (forall rd1 tick1, List.length rd1 = totalOutputs ctx ->
                       processItem rt ctx rd1 tick1 (i + List.length pre) item = Failed e) ->
    itemLoop rt ctx (pre ++ item :: post)%list i tick rd = Failed e.
Proof.
  induction pre as [|x pre IH]; intros i tick rd Hlen Hok Hfail.
  - simpl. rewrite Nat.add_0_r in Hfail. now rewrite Hfail.
  - destruct (itemLoop_returns [x] i tick rd Hlen) as (rd1 & tick1 & Hloop & Hlen1 & _).
    { intros [|k] it Hk; [|discriminate]. injection Hk as <-. now apply (Hok 0%nat). }
    simpl in Hloop. simpl.
    destruct (processItem rt ctx rd tick i x) as [[rd2 tick2]|e2]; [|discriminate].
    injection Hloop as ->. apply IH; [exact Hlen1| |].
    + intros k it Hk. replace (S i + k)%nat with (i + S k)%nat by lia. now apply Hok.
    + intros rd3 tick3 Hlen3. replace (S i + List.length pre)%nat
        with (i + List.length (x :: pre))%nat by (simpl; lia). now apply Hfail.
Qed.

(** When the loop fails, it fails at an item that raises an error: without
    continue-on-fail with that error as a [NodeOperationError], under
    continue-on-fail because there is no channel for the error record. *)
Lemma itemLoop_failure (items : list INodeExecutionData) (e : JsError) :
  forall i tick rd,
    List.length rd = totalOutputs ctx ->
    itemLoop rt ctx items i tick rd = Failed e ->
    exists k item e',
      items !! k = Some item
      /\ raisedBy rt ctx (i + k) item = Some e'
      /\ ((continueOnFail ctx = false /\ e = asNodeOperationError e' (i + k))
          \/ (continueOnFail ctx = true /\ totalOutputs ctx = 0%nat /\ e = pushTypeError)).
Proof.
  induction items as [|item rest IH]; intros i tick rd Hlen; [discriminate|].
  simpl. destruct (processItem rt ctx rd tick i item) as [[rd1 tick1]|e1] eqn:Hp.
  - intros Hloop.
    assert (Hlen1 : List.length rd1 = totalOutputs ctx).
    { destruct (processItem_returned _ _ _ _ _ _ Hlen Hp) as [-> | (c & out & Hpush & _)];
        [exact Hlen | now rewrite (pushAt_length _ _ _ _ Hpush)]. }
    destruct (IH (S i) tick1 rd1 Hlen1 Hloop) as (k & it & e' & Hk & Hraise & He).
    exists (S k), it, e'. replace (i + S k)%nat with (S i + k)%nat by lia. auto.
  - intros [= <-]. pose proof (processItem_spec rd tick i item Hlen) as Hspec.
    destruct (raisedBy rt ctx i item) as [e'|] eqn:Hraise.
    + exists 0%nat, item, e'. rewrite Nat.add_0_r. split; [reflexivity|].
      split; [exact Hraise|].
      destruct (continueOnFail ctx).
      * destruct (Nat.ltb_spec 0 (totalOutputs ctx)).
        -- destruct Hspec as (rd' & Hp' & _). congruence.
        -- right. repeat split; [lia | congruence].
      * left. split; [reflexivity | congruence].
    + destruct Hspec as (text & r & _ & _ & Hspec).
      destruct (0 <=? recognizedIntentIndex r)%Z; [|destruct (hasFallback ctx)].
      * destruct Hspec as (rd' & Hp' & _). congruence.
      * destruct Hspec as (rd' & Hp' & _). congruence.
      * congruence.
Qed.

End Routing.

(** ** Properties of [execute] *)

Lemma recognizedIntentOf_processed (item : INodeExecutionData) (i : nat) (r : Recognition)
    (text now : string) :
  recognizedIntentOf (processedItemOf item i r text now)
  = Some (jsonOfKey (recognizedIntentKey r)).
Proof.
  unfold recognizedIntentOf, processedItemOf, processedJson. simpl.
  rewrite !getProp_setProp_ne by discriminate. apply getProp_setProp_eq.
Qed.

Lemma returned_length (rd : list (list INodeExecutionData)) :
  List.length (returned rd) = Nat.max 1 (List.length rd).
Proof. unfold returned. destruct rd; simpl; lia. Qed.

Lemma returned_emittedCount (rd : list (list INodeExecutionData)) :
  emittedCount (returned rd) = emittedCount rd.
Proof. unfold returned. destruct rd; reflexivity. Qed.

Lemma returned_elem (rd : list (list INodeExecutionData)) (c : nat)
    (ch : list INodeExecutionData) (out : INodeExecutionData) :
  returned rd !! c = Some ch -> out ∈ ch -> rd !! c = Some ch.
Proof.
  unfold returned. destruct rd as [|ch0 rd]; simpl; [|auto].
  destruct c; simpl; [|discriminate]. intros [= <-] Hout. inversion Hout.
Qed.

Lemma processedJson_preserves (itemJson : JsObject) (r : Recognition) (text now name : string) :
  name ∉ enrichmentFields ->
  getProp name (processedJson itemJson r text now) = getProp name itemJson.
Proof.
  unfold enrichmentFields. intros Hname.
  repeat (apply not_elem_of_cons in Hname as [? Hname]).
  unfold processedJson. now rewrite !getProp_setProp_ne by assumption.
Qed.

Lemma processedJson_fields (itemJson : JsObject) (r : Recognition) (text now : string) :
  getProp "recognizedIntent" (processedJson itemJson r text now)
  = Some (jsonOfKey (recognizedIntentKey r))
  /\ getProp "extractedParameters" (processedJson itemJson r text now)
     = Some (JObj (extractedParameters r))
  /\ getProp "intentMetadata" (processedJson itemJson r text now)
     = Some (JObj [("confidence", JNum (confidence r));
                   ("processingTime", JStr now);
                   ("inputText", JStr (JsString.substring0 200 text))]).
Proof.
  unfold processedJson. repeat split;
    rewrite ?getProp_setProp_ne by discriminate; apply getProp_setProp_eq.
Qed.

Lemma errorJson_preserves (itemJson : JsObject) (message now name : string) :
  name ∉ errorFields ->
  getProp name (errorJson itemJson message now) = getProp name itemJson.
Proof.
  unfold errorFields, enrichmentFields. intros Hname.
  repeat (apply not_elem_of_cons in Hname as [? Hname]).
  unfold errorJson. now rewrite !getProp_setProp_ne by assumption.
Qed.

Lemma errorJson_fields (itemJson : JsObject) (message now : string) :
  getProp "error" (errorJson itemJson message now) = Some (JStr message)
  /\ getProp "recognizedIntent" (errorJson itemJson message now) = Some JNull
  /\ getProp "extractedParameters" (errorJson itemJson message now) = Some (JObj [])
  /\ getProp "intentMetadata" (errorJson itemJson message now)
     = Some (JObj [("confidence", JNum 0%float);
                   ("processingTime", JStr now);
                   ("error", JBool true)]).
Proof.
  unfold errorJson. repeat split;
    rewrite ?getProp_setProp_ne by discriminate; apply getProp_setProp_eq.
Qed.

Lemma intentOutputs_length (intentsList : list Intent) (index : nat) :
  List.length (intentOutputs intentsList index) = List.length intentsList.
Proof.
  revert index. induction intentsList as [|intent rest IH]; intros index; simpl; auto.
Qed.

Lemma configuredOutputs_length (ctx : ExecuteContext) :
  List.length (configuredOutputs (intentOptions ctx) (fallbackBehavior ctx))
  = Nat.max 1 (totalOutputs ctx).
Proof.
  unfold configuredOutputs, totalOutputs, numIntents, hasFallback.
  destruct (String.eqb (fallbackBehavior ctx) "route_to_fallback").
  - rewrite length_app, intentOutputs_length. simpl.
    destruct (Nat.ltb_spec 0 (List.length (intentOptions ctx) + 1)); [|lia].
    rewrite length_app, intentOutputs_length. simpl. lia.
  - rewrite intentOutputs_length.
    destruct (Nat.ltb_spec 0 (List.length (intentOptions ctx))).
    + rewrite intentOutputs_length. lia.
    + simpl. lia.
Qed.

Section Batch.

Variable rt : Engine.
Variable ctx : ExecuteContext.

(** What [execute] returns is the [returnData] of the loop, which satisfies
    [routedInv]. *)
Lemma execute_routed (items : list INodeExecutionData)
    (channels : list (list INodeExecutionData)) :
  execute rt ctx items = Returned channels ->
  exists rd, channels = returned rd /\ routedInv rt ctx items rd.
Proof.
  unfold execute.
  destruct (itemLoop _ _ _ _ _ _) as [rd|e] eqn:Hloop; [|discriminate].
  intros [= <-]. exists rd. split; [reflexivity|]. now apply itemLoop_routed.
Qed.

Lemma execute_returns (items : list INodeExecutionData) :
  (forall k item, items !! k = Some item ->
                  raisedBy rt ctx k item = None
                  \/ (continueOnFail ctx = true /\ (0 < totalOutputs ctx)%nat)) ->
  exists channels, execute rt ctx items = Returned channels.
Proof.
  intros Hok.
  destruct (itemLoop_returns rt ctx items 0 0 (replicate (totalOutputs ctx) []))
    as (rd & tick & Hloop & _); [apply length_replicate | exact Hok |].
  unfold execute. rewrite Hloop. eauto.
Qed.

(** When [execute] returns, every item that raises an error was turned into
    an error record: continue-on-fail is set and there is a channel. *)
Lemma execute_raising (items : list INodeExecutionData)
    (channels : list (list INodeExecutionData)) (i : nat) (item : INodeExecutionData)
    (e : JsError) :
  execute rt ctx items = Returned channels ->
  items !! i = Some item ->
  raisedBy rt ctx i item = Some e ->
  continueOnFail ctx = true /\ (0 < totalOutputs ctx)%nat.
Proof.
  unfold execute.
  destruct (itemLoop _ _ _ _ _ _) as [rd|e0] eqn:Hloop; [|discriminate].
  intros _ Hi Hraise. revert i item e Hi Hraise.
  pose (Inv := fun (done : list INodeExecutionData) (r : list (list INodeExecutionData)) =>
                 List.length r = totalOutputs ctx
                 /\ forall i item e, done !! i = Some item -> raisedBy rt ctx i item = Some e ->
                                     continueOnFail ctx = true /\ (0 < totalOutputs ctx)%nat).
  assert (Hinv : Inv ([] ++ items)%list rd); [|exact (proj2 Hinv)].
  eapply (itemLoop_partial rt ctx Inv); [| |exact Hloop].
  - intros done item r tick r' tick' [Hlen Hdone] Hp. split.
    + destruct (processItem_returned _ _ _ _ _ _ _ _ Hlen Hp) as [-> | (c & out & Hpush & _)];
        [exact Hlen | now rewrite (pushAt_length _ _ _ _ Hpush)].
    + intros i it e Hi Hraise.
      apply lookup_app_Some in Hi as [Hi | [Hge Hi]]; [eauto|].
      apply list_lookup_singleton_Some in Hi as [Hi ->].
      replace i with (List.length done) in Hraise by lia.
      pose proof (processItem_spec rt ctx r tick (List.length done) it Hlen) as Hspec.
      rewrite Hraise in Hspec.
      destruct (continueOnFail ctx); [|congruence].
      destruct (Nat.ltb_spec 0 (totalOutputs ctx)); [auto | congruence].
  - split; [apply length_replicate|]. intros i item e Hi. discriminate.
Qed.

(** Under a policy other than [error], the errors of the [try] block are
    those of reading and classifying the record. *)
Lemma raisedBy_no_error_policy (i : nat) (item : INodeExecutionData) :
  fallbackBehavior ctx <> "error" ->
  raisedBy rt ctx i item
  = match recognitionOf rt ctx item with
    | Returned _ => None
    | Failed e => Some e
    end.
Proof.
  intros Hne%String.eqb_neq. unfold raisedBy, recognitionOf.
  destruct (textOf rt ctx item) as [text|e]; [|reflexivity]. cbv zeta.
  destruct (thrown _); [reflexivity|]. rewrite Hne.
  destruct (0 <=? _)%Z; reflexivity.
Qed.

Lemma filter_all {A : Type} (f : A -> bool) (l : list A) :
  (forall i x, l !! i = Some x -> f x = true) -> List.filter f l = l.
Proof.
  induction l as [|x l IH]; intros Hall; [reflexivity|]. simpl.
  rewrite (Hall 0%nat x eq_refl). f_equal. apply IH.
  intros i y Hi. apply (Hall (S i)). exact Hi.
Qed.

Lemma filter_disjoint_length {A : Type} (f g h : A -> bool) (l : list A) :
  (forall i x, l !! i = Some x -> f x = g x || h x) ->
  (forall x, g x && h x = false) ->
  List.length (List.filter f l)
  = (List.length (List.filter g l) + List.length (List.filter h l))%nat.
Proof.
  intros Hf Hgh. induction l as [|x l IH]; [reflexivity|]. simpl.
  rewrite (Hf 0%nat x eq_refl). specialize (Hgh x).
  specialize (IH (fun i y Hi => Hf (S i) y Hi)).
  destruct (g x), (h x); simpl in *; try discriminate; lia.
Qed.

End Batch.

(** C1: with [fallbackBehavior = route_to_fallback] and K intents, whenever
    [execute] returns it returns exactly K+1 channels (one when the intent
    list is empty) holding one record per record of the batch; a record in
    channel [c < K] is one for which the [c]-th declared intent was selected
    and carries that intent's key; a record in the last channel, K, carries
    no intent: it is one for which no intent was selected, or, under
    continue-on-fail, the error record of one that raised an error.
    [execute] returns under continue-on-fail, and whenever no record raises
    an error. *)
Theorem C1_route_to_fallback_channels (rt : Engine) (ctx : ExecuteContext)
    (items : list INodeExecutionData) :
  fallbackBehavior ctx = "route_to_fallback" ->
  (continueOnFail ctx = true \/ (forall item, item ∈ items -> fails rt ctx item = false) ->
   exists channels, execute rt ctx items = Returned channels)
  /\ forall channels,
       execute rt ctx items = Returned channels ->
       List.length channels = S (List.length (intentOptions ctx))
       /\ emittedCount channels = List.length items
       /\ forall c ch out,
            channels !! c = Some ch -> out ∈ ch ->
            exists i item,
              items !! i = Some item
              /\ pairedItem out = Some i
              /\ match intentOptions ctx !! c with
                 | Some intent =>
                     (exists r, recognitionOf rt ctx item = Returned r
                                /\ recognizedIntentIndex r = Z.of_nat c)
                     /\ recognizedIntentOf out = Some (JStr (key intent))
                 | None =>
                     c = List.length (intentOptions ctx)
                     /\ recognizedIntentOf out = Some JNull
                     /\ match recognitionOf rt ctx item with
                        | Returned r => recognizedIntentIndex r = (-1)%Z
                        | Failed e =>
                            continueOnFail ctx = true
                            /\ getProp "error" (json out) = Some (JStr (error_message e))
                        end
                 end.
Proof.
  intros Hfb.
  assert (Hf : hasFallback ctx = true) by (unfold hasFallback; now rewrite Hfb).
  assert (Hne : fallbackBehavior ctx <> "error") by (rewrite Hfb; discriminate).
  assert (Hpos : (0 < totalOutputs ctx)%nat) by (unfold totalOutputs; rewrite Hf; lia).
  assert (Hnone : intentOptions ctx !! List.length (intentOptions ctx) = None)
    by (apply lookup_ge_None_2; reflexivity).
  split.
  - intros Hok. apply execute_returns. intros k item Hk.
    destruct Hok as [Hcont | Hok]; [now right|]. left.
    rewrite raisedBy_no_error_policy by exact Hne.
    specialize (Hok item (list_elem_of_lookup_2 _ _ _ Hk)). unfold fails in Hok.
    destruct (recognitionOf rt ctx item); [reflexivity | discriminate].
  - intros channels Hex.
    destruct (execute_routed rt ctx items channels Hex) as (rd & -> & Hlen & Hcount & Hmem).
    split; [rewrite returned_length, Hlen; unfold totalOutputs, numIntents; rewrite Hf; lia|].
    split.
    + rewrite returned_emittedCount, Hcount. f_equal. apply filter_all.
      intros i item Hi. unfold emits.
      destruct (raisedBy rt ctx 0 item) as [e|] eqn:Hraise;
        [|rewrite Hf; apply orb_true_r].
      assert (Hraise' : raisedBy rt ctx i item <> None).
      { intros H. apply (raisedBy_position rt ctx i 0 item) in H. congruence. }
      destruct (raisedBy rt ctx i item) as [e'|] eqn:Hr; [|congruence].
      exact (proj1 (execute_raising rt ctx items _ i item e' Hex Hi Hr)).
    + intros c ch out Hc Hout. apply (returned_elem _ _ _ out) in Hc; [|exact Hout].
      destruct (Hmem c ch out Hc Hout) as (i & item & Hi & Hrec).
      exists i, item. split; [exact Hi|].
      unfold recordOf in Hrec. rewrite raisedBy_no_error_policy in Hrec by exact Hne.
      unfold errorOutputIndex in Hrec. rewrite Hf in Hrec.
      destruct (recognitionOf rt ctx item) as [r|e] eqn:Hr.
      * destruct Hrec as (text & r' & now & _ & [= <-] & -> & Hroute).
        split; [reflexivity|]. rewrite recognizedIntentOf_processed.
        destruct (Z.leb_spec 0 (recognizedIntentIndex r)) as [Hidx | Hidx].
        -- destruct (recognitionOf_cases rt ctx item r Hr)
             as [[Hneg _] | (k & sel & Hk & Hidx' & Hkey)]; [lia|].
           rewrite Hidx' in Hroute. apply Nat2Z.inj in Hroute. subst k.
           rewrite Hk, Hkey. split; [|reflexivity]. exists r. auto.
        -- destruct Hroute as [_ ->]. unfold numIntents. rewrite Hnone.
           destruct (recognitionOf_cases rt ctx item r Hr)
             as [[Hneg Hkey] | (k & sel & _ & Hidx' & _)]; [|lia].
           rewrite Hkey. auto.
      * destruct Hrec as (Hcont & -> & now & ->). split; [reflexivity|].
        unfold numIntents. rewrite Hnone.
        destruct (errorJson_fields (json item) (error_message e) now) as (He & Hri & _).
        repeat split; assumption.
Qed.

(** C5, as amended: with [fallbackBehavior = discard], whenever [execute]
    returns, a record that is read and classified without error and for
    which no intent is selected is in no channel.  The records over all
    channels are the records for which an intent was selected, each in its
    intent's channel, and, under continue-on-fail, the error records of the
    records that raised an error, in channel 0.  [execute] returns whenever
    no record raises an error. *)
Theorem C5_discard_drops_unmatched (rt : Engine) (ctx : ExecuteContext)
    (items : list INodeExecutionData) :
  fallbackBehavior ctx = "discard" ->
  ((forall item, item ∈ items -> fails rt ctx item = false) ->
   exists channels, execute rt ctx items = Returned channels)
  /\ forall channels,
       execute rt ctx items = Returned channels ->
       emittedCount channels
       = (List.length (List.filter (matched rt ctx) items)
          + List.length (List.filter (fails rt ctx) items))%nat
       /\ (continueOnFail ctx = false -> List.filter (fails rt ctx) items = [])
       /\ forall c ch out,
            channels !! c = Some ch -> out ∈ ch ->
            exists i item,
              items !! i = Some item
              /\ pairedItem out = Some i
              /\ match recognitionOf rt ctx item with
                 | Returned r =>
                     (0 <= recognizedIntentIndex r)%Z
                     /\ Z.of_nat c = recognizedIntentIndex r
                 | Failed e =>
                     continueOnFail ctx = true
                     /\ c = 0%nat
                     /\ getProp "error" (json out) = Some (JStr (error_message e))
                 end.
Proof.
  intros Hfb.
  assert (Hf : hasFallback ctx = false) by (unfold hasFallback; now rewrite Hfb).
  assert (Hne : fallbackBehavior ctx <> "error") by (rewrite Hfb; discriminate).
  split.
  - intros Hok. apply execute_returns. intros k item Hk. left.
    rewrite raisedBy_no_error_policy by exact Hne.
    specialize (Hok item (list_elem_of_lookup_2 _ _ _ Hk)). unfold fails in Hok.
    destruct (recognitionOf rt ctx item); [reflexivity | discriminate].
  - intros channels Hex.
    destruct (execute_routed rt ctx items channels Hex) as (rd & -> & Hlen & Hcount & Hmem).
    assert (Hfails : forall i item, items !! i = Some item -> fails rt ctx item = true ->
                                    continueOnFail ctx = true).
    { intros i item Hi Hfail. unfold fails in Hfail.
      destruct (recognitionOf rt ctx item) as [r|e] eqn:Hr; [discriminate|].
      apply (execute_raising rt ctx items _ i item e Hex Hi).
      rewrite raisedBy_no_error_policy by exact Hne. now rewrite Hr. }
    split; [|split].
    + rewrite returned_emittedCount, Hcount. apply filter_disjoint_length.
      * intros i item Hi. unfold emits.
        rewrite raisedBy_no_error_policy by exact Hne. rewrite Hf, orb_false_r.
        pose proof (Hfails i item Hi) as Hfail. unfold fails, matched in *.
        destruct (recognitionOf rt ctx item); [now rewrite orb_false_r|].
        now rewrite Hfail.
      * intros item. unfold matched, fails.
        destruct (recognitionOf rt ctx item); [apply andb_false_r | reflexivity].
    + intros Hcont. destruct (List.filter (fails rt ctx) items) as [|x l] eqn:Hfilter;
        [reflexivity|].
      assert (Hin : List.In x (List.filter (fails rt ctx) items)) by (rewrite Hfilter; now left).
      apply List.filter_In in Hin as [Hin Hfail].
      apply list_elem_of_In, list_elem_of_lookup in Hin as [i Hi].
      rewrite (Hfails i x Hi Hfail) in Hcont. discriminate.
    + intros c ch out Hc Hout. apply (returned_elem _ _ _ out) in Hc; [|exact Hout].
      destruct (Hmem c ch out Hc Hout) as (i & item & Hi & Hrec).
      exists i, item. split; [exact Hi|].
      unfold recordOf in Hrec. rewrite raisedBy_no_error_policy in Hrec by exact Hne.
      unfold errorOutputIndex in Hrec. rewrite Hf in Hrec.
      destruct (recognitionOf rt ctx item) as [r|e] eqn:Hr.
      * destruct Hrec as (text & r' & now & _ & [= <-] & -> & Hroute).
        split; [reflexivity|].
        destruct (Z.leb_spec 0 (recognizedIntentIndex r)); [auto|].
        destruct Hroute as [Hroute _]. discriminate.
      * destruct Hrec as (Hcont & -> & now & ->). split; [reflexivity|].
        repeat split; [exact Hcont|].
        apply (errorJson_fields (json item) (error_message e) now).
Qed.

(** The claim C5 as stated fails on a record that cannot be read: under
    [discard] with continue-on-fail, the record whose [message] is an object
    with an own [toString] field has no intent selected, and yet its error
    record is appended to channel 0. *)
Lemma C5_counterexample :
  ~ (forall (rt : Engine) (ctx : ExecuteContext) (items : list INodeExecutionData),
        fallbackBehavior ctx = "discard" ->
        exists channels,
          execute rt ctx items = Returned channels
          /\ emittedCount channels = List.length (List.filter (matched rt ctx) items)).
Proof.
  intros H.
  destruct (H sampleEngine (continuing (sampleContext "discard")) [unreadableItem] eq_refl)
    as (channels & Hex & Hcount).
  vm_compute in Hex. injection Hex as <-. vm_compute in Hcount. discriminate Hcount.
Qed.

(** C4, as amended: [execute] and [configuredOutputs] check nothing about the
    configuration: intents that share a key, or an empty intent list under
    any policy, raise no error of their own.  On an empty batch [execute]
    returns, and it returns whenever no record raises an error; what it
    returns has one channel per intent plus the fallback channel when the
    policy is [route_to_fallback], a single empty channel when that makes
    none, and [configuredOutputs] declares as many outputs.  When [execute]
    fails, it fails at a record that raises an error, with that error or,
    under continue-on-fail without any channel, with the [TypeError] of
    pushing the error record. *)
Theorem C4_no_configuration_check (rt : Engine) (ctx : ExecuteContext)
    (items : list INodeExecutionData) :
  execute rt ctx [] = Returned (replicate (Nat.max 1 (totalOutputs ctx)) [])
  /\ ((forall i item, items !! i = Some item -> raisedBy rt ctx i item = None) ->
      exists channels, execute rt ctx items = Returned channels)
  /\ (forall channels,
         execute rt ctx items = Returned channels ->
         List.length channels = Nat.max 1 (totalOutputs ctx)
         /\ List.length (configuredOutputs (intentOptions ctx) (fallbackBehavior ctx))
            = List.length channels)
  /\ (forall e,
         execute rt ctx items = Failed e ->
         exists i item e',
           items !! i = Some item
           /\ raisedBy rt ctx i item = Some e'
           /\ ((continueOnFail ctx = false /\ e = asNodeOperationError e' i)
               \/ (continueOnFail ctx = true /\ totalOutputs ctx = 0%nat
                   /\ e = pushTypeError))).
Proof.
  split; [|split; [|split]].
  - unfold execute. simpl. rewrite length_replicate.
    destruct (totalOutputs ctx); reflexivity.
  - intros Hok. apply execute_returns. intros k item Hk. left. eauto.
  - intros channels Hex.
    destruct (execute_routed rt ctx items channels Hex) as (rd & -> & Hlen & _).
    rewrite returned_length, Hlen, configuredOutputs_length. auto.
  - intros e. unfold execute.
    destruct (itemLoop _ _ _ _ _ _) as [rd|e0] eqn:Hloop; [discriminate|].
    intros [= <-].
    apply (itemLoop_failure rt ctx items e0 0 0 _ (length_replicate _ _) Hloop).
Qed.

(** The claim C4 as stated fails on both of its cases: with two intents of
    the same key, and with no intent under the [discard] policy, [execute]
    returns channels instead of failing. *)
Lemma C4_counterexample :
  ~ (forall (rt : Engine) (ctx : ExecuteContext) (items : list INodeExecutionData),
        duplicateKeys (intentOptions ctx) ->
        exists e, execute rt ctx items = Failed e)
  /\ ~ (forall (rt : Engine) (ctx : ExecuteContext) (items : list INodeExecutionData),
           intentOptions ctx = [] -> fallbackBehavior ctx <> "route_to_fallback" ->
           exists e, execute rt ctx items = Failed e).
Proof.
  split; intros H.
  - destruct (H sampleEngine
                {| intentOptions := [keywordIntent "a" "hi"; keywordIntent "a" "yo"];
                   fallbackBehavior := "route_to_fallback";
                   options := defaultOptions;
                   continueOnFail := false |}
                [plainItem [("message", JStr "yo")]])
      as [e He].
    + exists 0%nat, 1%nat, (keywordIntent "a" "hi"), (keywordIntent "a" "yo").
      repeat split; [lia].
    + vm_compute in He. discriminate He.
  - destruct (H sampleEngine
                {| intentOptions := [];
                   fallbackBehavior := "discard";
                   options := defaultOptions;
                   continueOnFail := false |}
                [plainItem [("message", JStr "yo")]]
                eq_refl ltac:(discriminate))
      as [e He].
    vm_compute in He. discriminate He.
Qed.

(** C6, as amended: every record [execute] returns in a channel comes from
    the input record at its [pairedItem] position.  When that record raises
    no error, the returned record is its processed record: every field of
    the input record is on it with the same value, except the fields named
    [recognizedIntent], [extractedParameters] and [intentMetadata], which
    hold the recognised key (or null), the extracted parameters and the
    metadata.  When it raises an error, which happens under continue-on-fail
    only, the returned record is its error record: it carries the error's
    message in [error], a null [recognizedIntent], an empty
    [extractedParameters] and the error metadata, and keeps every input field
    except those named [error], [recognizedIntent], [extractedParameters]
    and [intentMetadata]. *)
Theorem C6_fields_preserved (rt : Engine) (ctx : ExecuteContext)
    (items : list INodeExecutionData) (channels : list (list INodeExecutionData)) :
  execute rt ctx items = Returned channels ->
  forall c ch out,
    channels !! c = Some ch -> out ∈ ch ->
    exists i item,
      items !! i = Some item
      /\ pairedItem out = Some i
      /\ match raisedBy rt ctx i item with
         | None =>
             (forall name, name ∉ enrichmentFields ->
                           getProp name (json out) = getProp name (json item))
             /\ exists text r now,
                  textOf rt ctx item = Returned text
                  /\ recognitionOf rt ctx item = Returned r
                  /\ getProp "recognizedIntent" (json out)
                     = Some (jsonOfKey (recognizedIntentKey r))
                  /\ getProp "extractedParameters" (json out)
                     = Some (JObj (extractedParameters r))
                  /\ getProp "intentMetadata" (json out)
                     = Some (JObj [("confidence", JNum (confidence r));
                                   ("processingTime", JStr now);
                                   ("inputText", JStr (JsString.substring0 200 text))])
         | Some e =>
             continueOnFail ctx = true
             /\ (forall name, name ∉ errorFields ->
                              getProp name (json out) = getProp name (json item))
             /\ getProp "error" (json out) = Some (JStr (error_message e))
             /\ getProp "recognizedIntent" (json out) = Some JNull
             /\ getProp "extractedParameters" (json out) = Some (JObj [])
             /\ exists now,
                  getProp "intentMetadata" (json out)
                  = Some (JObj [("confidence", JNum 0%float);
                                ("processingTime", JStr now);
                                ("error", JBool true)])
         end.
Proof.
  intros Hex c ch out Hc Hout.
  destruct (execute_routed rt ctx items channels Hex) as (rd & -> & _ & _ & Hmem).
  apply (returned_elem _ _ _ out) in Hc; [|exact Hout].
  destruct (Hmem c ch out Hc Hout) as (i & item & Hi & Hrec).
  exists i, item. split; [exact Hi|]. unfold recordOf in Hrec.
  destruct (raisedBy rt ctx i item) as [e|].
  - destruct Hrec as (Hcont & _ & now & ->). split; [reflexivity|].
    split; [exact Hcont|].
    split; [intros name Hname; apply errorJson_preserves, Hname|].
    destruct (errorJson_fields (json item) (error_message e) now) as (He & Hr & Hx & Hmeta).
    repeat split; auto. now exists now.
  - destruct Hrec as (text & r & now & Htext & Hr & -> & _). split; [reflexivity|].
    split; [intros name Hname; apply processedJson_preserves, Hname|].
    destruct (processedJson_fields (json item) r text now) as (Hri & Hx & Hmeta).
    exists text, r, now. auto.
Qed.

(** The claim C6 as stated fails on an input field named like an enrichment
    field: the input value of [recognizedIntent] is replaced by [null]. *)
Lemma C6_counterexample :
  ~ (forall (rt : Engine) (ctx : ExecuteContext) (items : list INodeExecutionData)
            (channels : list (list INodeExecutionData)),
        execute rt ctx items = Returned channels ->
        forall c ch out,
          channels !! c = Some ch -> out ∈ ch ->
          exists i item,
            items !! i = Some item
            /\ pairedItem out = Some i
            /\ forall name v, getProp name (json item) = Some v ->
                              getProp name (json out) = Some v).
Proof.
  intros H.
  pose (ctx := {| intentOptions := []; fallbackBehavior := "route_to_fallback";
                  options := defaultOptions; continueOnFail := false |}).
  pose (item := plainItem [("recognizedIntent", JStr "x")]).
  destruct (execute sampleEngine ctx [item]) as [channels|e] eqn:Hex;
    [|vm_compute in Hex; discriminate Hex].
  assert (Hch : exists out, channels = [[out]]
                            /\ getProp "recognizedIntent" (json out) = Some JNull).
  { vm_compute in Hex. injection Hex as <-. eexists. split; reflexivity. }
  destruct Hch as (out & -> & Hout).
  destruct (H sampleEngine ctx [item] [[out]] Hex 0%nat [out] out eq_refl)
    as (i & item' & Hi & _ & Hfields).
  - apply list_elem_of_singleton. reflexivity.
  - destruct i as [|i]; [|discriminate Hi]. injection Hi as <-.
    specialize (Hfields "recognizedIntent" (JStr "x") eq_refl).
    rewrite Hout in Hfields. discriminate Hfields.
Qed.

Lemma sequence_Failed {A : Type} (l : list (ExecResult A)) (e : JsError) :
  sequence l = Failed e -> Failed e ∈ l.
Proof.
  induction l as [|[a|e'] rest IH]; simpl; [discriminate| |].
  - destruct (sequence rest); [discriminate|]. intros [= ->]. right. now apply IH.
  - intros [= ->]. now left.
Qed.

(** Induction on a value that reaches the elements of arrays and the values
    of fields. *)
Lemma JsValue_ind_list (P : JsValue -> Prop) :
  P JNull ->
  (forall b, P (JBool b)) ->
  (forall x, P (JNum x)) ->
  (forall s, P (JStr s)) ->
  (forall elems, Forall P elems -> P (JArr elems)) ->
  (forall fields, Forall (fun kv => P (snd kv)) fields -> P (JObj fields)) ->
  forall v, P v.
Proof.
  intros HN HB HNum HS HA HO. fix IH 1.
  intros [| b | x | s | elems | fields];
    [exact HN | apply HB | apply HNum | apply HS | |].
  - apply HA. induction elems as [|e rest IHl]; constructor; [apply IH | exact IHl].
  - apply HO. induction fields as [|[k v] rest IHl]; constructor; [apply IH | exact IHl].
Qed.

(** [String(v)] fails with the one [TypeError] of the conversion, and only
    on an array or an object. *)
Lemma ToString_Failed (rt : Engine) (v : JsValue) (e : JsError) :
  ToString rt v = Failed e -> e = cannotConvert /\ isObject v = true.
Proof.
  revert e. induction v as [|b|x|s|elems IH|fields IH] using JsValue_ind_list; intros e;
    try discriminate.
  - destruct b; discriminate.
  - simpl. destruct (sequence _) as [parts|e'] eqn:Hseq; [discriminate|].
    intros [= ->]. split; [|reflexivity].
    apply sequence_Failed, list_elem_of_In, List.in_map_iff in Hseq as (x & Hx & Hin).
    rewrite Forall_forall in IH. apply list_elem_of_In in Hin.
    destruct x; try discriminate; try (destruct b; discriminate); now apply (IH _ Hin).
  - simpl. destruct (hasOwnProperty fields "toString"); [|discriminate].
    intros [= <-]. auto.
Qed.

(** C8, as amended: the text handed to the classifier is [String] of what
    [item.json[inputField]] gives when that is truthy: the value of an own
    field with a truthy value, or, when the record has no own field of that
    name, what the name finds on [Object.prototype] (a built-in function
    for [toString], [constructor] and the like, the prototype object for
    [__proto__]).  It is the JSON serialisation of the whole record when the
    own field holds a falsy value (empty string, 0, NaN, false, null) or when
    the name is found nowhere.  The text is lower-cased unless matching is
    case sensitive.  A missing field never fails the record.  Reading the
    text fails only by the [TypeError] of [String] on a field that holds an
    array or an object, and that error is then the one the [try] block
    raises. *)
Theorem C8_text_source (rt : Engine) (ctx : ExecuteContext) (item : INodeExecutionData) :
  (forall v, getProp (inputField ctx) (json item) = Some v -> truthy v = true ->
             textOf rt ctx item
             = match ToString rt v with
               | Returned s => Returned (normalizeCase rt (caseSensitive ctx) s)
               | Failed e => Failed e
               end)
  /\ (forall v, getProp (inputField ctx) (json item) = Some v -> truthy v = false ->
                textOf rt ctx item
                = Returned (normalizeCase rt (caseSensitive ctx)
                              (JSON_stringify rt (JObj (json item)))))
  /\ (getProp (inputField ctx) (json item) = None ->
      textOf rt ctx item
      = Returned
          (normalizeCase rt (caseSensitive ctx)
             (if String.eqb (inputField ctx) "__proto__" then "[object Object]"
              else if existsb (String.eqb (inputField ctx)) objectPrototypeMethods
                   then Function_toString rt (inputField ctx)
                   else JSON_stringify rt (JObj (json item)))))
  /\ (forall e, textOf rt ctx item = Failed e ->
                e = cannotConvert
                /\ (exists v, getProp (inputField ctx) (json item) = Some v
                              /\ truthy v = true /\ isObject v = true)
                /\ forall i, raisedBy rt ctx i item = Some e).
Proof.
  unfold textOf, textToAnalyze, extractText, getProperty.
  split; [|split; [|split]].
  - intros v -> Hv. simpl. rewrite Hv. reflexivity.
  - intros v -> Hv. simpl. rewrite Hv. reflexivity.
  - intros ->. destruct (String.eqb (inputField ctx) "__proto__"); [reflexivity|].
    destruct (existsb _ _); reflexivity.
  - intros e He.
    assert (Hraise : forall i, raisedBy rt ctx i item = Some e).
    { intros i. unfold raisedBy, textOf, textToAnalyze, extractText, getProperty.
      destruct (getProp (inputField ctx) (json item)) as [v|];
        [|destruct (String.eqb _ _); [|destruct (existsb _ _)]; discriminate He].
      simpl in *. destruct (truthy v); [|discriminate He].
      simpl in *. destruct (ToString rt v); [discriminate He|]. congruence. }
    destruct (getProp (inputField ctx) (json item)) as [v|].
    + simpl in He. destruct (truthy v) eqn:Hv; [|discriminate He]. simpl in He.
      destruct (ToString rt v) as [s|e'] eqn:Hs; [discriminate He|]. injection He as ->.
      destruct (ToString_Failed rt v e Hs) as [-> Hobj]. eauto 6.
    + destruct (String.eqb _ _); [|destruct (existsb _ _)]; discriminate He.
Qed.

(** The claim C8 as stated fails on a field that is present and falsy: for
    the record with [message] the empty string, the text is the
    serialisation of the record, not the field's value. *)
Lemma C8_counterexample :
  ~ (forall (rt : Engine) (inputField : string) (itemJson : JsObject) (v : JsValue),
        getProp inputField itemJson = Some v ->
        extractText rt inputField itemJson = ToString rt v).
Proof.
  intros H.
  specialize (H sampleEngine "message" [("message", JStr "")] (JStr "") eq_refl).
  vm_compute in H. discriminate H.
Qed.

(** ** The properties on sample data *)

(** The scenarios of the specification: 1 of 2 keywords found gives 0.5,
    which reaches the default threshold. *)
Example scenario_greeting :
  classify sampleEngine false 0.5%float (toLowerCase sampleEngine "Hello there") []
    [keywordIntent "greeting" "hello,hi"]
  = {| recognizedIntentIndex := 0; recognizedIntentKey := Some "greeting";
       extractedParameters := []; confidence := 0.5%float; thrown := None |}.
Proof. reflexivity. Qed.

Example scenario_book :
  classify sampleEngine false 0.5%float "i want to reserve a table" []
    [keywordIntent "book" "book,reserve"]
  = {| recognizedIntentIndex := 0; recognizedIntentKey := Some "book";
       extractedParameters := []; confidence := 0.5%float; thrown := None |}
  /\ recognizedIntentIndex
       (classify sampleEngine false 0.5%float "hello" [] [keywordIntent "book" "book,reserve"])
     = (-1)%Z.
Proof. split; reflexivity. Qed.

(** A trailing comma leaves an empty token, which every text includes. *)
Example empty_token_matches :
  keywordsOf sampleEngine "hello," = ["hello"; ""]
  /\ specKeywordsOf sampleEngine "hello," = ["hello"]
  /\ classify sampleEngine false 0.5%float "bye" [] [keywordIntent "greeting" "hello,"]
     = {| recognizedIntentIndex := 0; recognizedIntentKey := Some "greeting";
          extractedParameters := []; confidence := 0.5%float; thrown := None |}.
Proof. repeat split; reflexivity. Qed.

(** The text of a record read through an inherited name, and the two
    records that raise a [TypeError]. *)
Example inherited_text :
  extractText sampleEngine "toString" [("message", JStr "hi")]
  = Returned "function toString() { [native code] }"
  /\ recognitionOf sampleEngine (sampleContext "discard") unreadableItem = Failed cannotConvert
  /\ recognitionOf sampleEngine (bookingContext "discard" false) shadowingItem
     = Failed notAFunction.
Proof. repeat split; reflexivity. Qed.

(** C1 on the sample batch: three channels for two intents, both records
    emitted. *)
Lemma C1_witness :
  fallbackBehavior (sampleContext "route_to_fallback") = "route_to_fallback"
  /\ exists channels,
       execute sampleEngine (sampleContext "route_to_fallback") sampleItems = Returned channels
       /\ List.length channels = 3%nat
       /\ emittedCount channels = 2%nat.
Proof.
  split; [reflexivity|].
  destruct (C1_route_to_fallback_channels sampleEngine (sampleContext "route_to_fallback")
              sampleItems eq_refl) as [Hreturns Hchannels].
  destruct Hreturns as [channels Hex].
  { right. intros item Hin. apply list_elem_of_In in Hin.
    destruct Hin as [<- | [<- | []]]; reflexivity. }
  destruct (Hchannels channels Hex) as (Hlen & Hcount & _).
  exists channels. split; [exact Hex|]. split; [exact Hlen | exact Hcount].
Defined.

(** C2 on three intents: the second is selected at confidence 1/2 although
    the third has confidence 1. *)
Lemma C2_witness :
  recognizedIntentIndex
    (classify sampleEngine false 0.5%float "reserve a table" []
       [keywordIntent "greeting" "hello,hi"; keywordIntent "book" "book,reserve";
        keywordIntent "table" "reserve"]) = 1%Z
  /\ PrimFloat.ltb
       (perIntentConfidence sampleEngine false "reserve a table"
          (keywordIntent "book" "book,reserve"))
       (perIntentConfidence sampleEngine false "reserve a table"
          (keywordIntent "table" "reserve")) = true.
Proof.
  split; [|reflexivity].
  apply (C2_first_match_wins sampleEngine false 0.5%float "reserve a table" []
           [keywordIntent "greeting" "hello,hi"; keywordIntent "book" "book,reserve";
            keywordIntent "table" "reserve"]
           1%nat (keywordIntent "book" "book,reserve")); try reflexivity.
  intros j x Hj Hx _. destruct j as [|j]; [|lia].
  injection Hx as <-. reflexivity.
Defined.


(** C4 on two intents of the same key under [discard]: two channels, no
    error. *)
Lemma C4_witness :
  duplicateKeys [keywordIntent "a" "hi"; keywordIntent "a" "yo"]
  /\ exists channels,
       execute sampleEngine
         {| intentOptions := [keywordIntent "a" "hi"; keywordIntent "a" "yo"];
            fallbackBehavior := "discard"; options := defaultOptions;
            continueOnFail := false |}
         sampleItems = Returned channels
       /\ List.length channels = 2%nat.
Proof.
  split.
  - exists 0%nat, 1%nat, (keywordIntent "a" "hi"), (keywordIntent "a" "yo").
    repeat split. lia.
  - destruct (C4_no_configuration_check sampleEngine
                {| intentOptions := [keywordIntent "a" "hi"; keywordIntent "a" "yo"];
                   fallbackBehavior := "discard"; options := defaultOptions;
                   continueOnFail := false |}
                sampleItems) as (_ & Hreturns & Hchannels & _).
    destruct Hreturns as [channels Hex].
    { intros i item Hi. destruct i as [|[|i]]; [| |discriminate Hi];
        injection Hi as <-; reflexivity. }
    exists channels. split; [exact Hex|]. exact (proj1 (Hchannels channels Hex)).
Defined.

(** C5 on the sample batch, and on a batch with a record that cannot be
    read, under continue-on-fail: one record with a selected intent, one
    error record. *)
Lemma C5_witness :
  fallbackBehavior (continuing (sampleContext "discard")) = "discard"
  /\ exists channels,
       execute sampleEngine (continuing (sampleContext "discard"))
         (sampleItems ++ [unreadableItem])%list
       = Returned channels
       /\ emittedCount channels = 2%nat.
Proof.
  split; [reflexivity|].
  destruct (execute sampleEngine (continuing (sampleContext "discard"))
              (sampleItems ++ [unreadableItem])%list) as [channels|e] eqn:Hex;
    [|vm_compute in Hex; discriminate Hex].
  exists channels. split; [reflexivity|].
  exact (proj1 (proj2 (C5_discard_drops_unmatched sampleEngine
                         (continuing (sampleContext "discard"))
                         (sampleItems ++ [unreadableItem])%list eq_refl) channels Hex)).
Defined.

(** C6 on a batch of a record with a selected intent and a record that
    cannot be read, under continue-on-fail. *)
Lemma C6_witness :
  exists channels,
    execute sampleEngine (continuing (sampleContext "route_to_fallback"))
      [plainItem [("message", JStr "Hello there")]; unreadableItem]
    = Returned channels
    /\ forall c ch out,
         channels !! c = Some ch -> out ∈ ch ->
         (getProp "recognizedIntent" (json out) = Some (JStr "greeting")
          /\ getProp "message" (json out) = Some (JStr "Hello there"))
         \/ (getProp "recognizedIntent" (json out) = Some JNull
             /\ getProp "error" (json out)
                = Some (JStr "Cannot convert object to primitive value")
             /\ getProp "message" (json out) = Some (JObj [("toString", JNum 1%float)])).
Proof.
  destruct (execute sampleEngine (continuing (sampleContext "route_to_fallback"))
              [plainItem [("message", JStr "Hello there")]; unreadableItem])
    as [channels|e] eqn:Hex; [|vm_compute in Hex; discriminate Hex].
  exists channels. split; [reflexivity|]. intros c ch out Hc Hout.
  destruct (C6_fields_preserved sampleEngine (continuing (sampleContext "route_to_fallback"))
              [plainItem [("message", JStr "Hello there")]; unreadableItem]
              channels Hex c ch out Hc Hout) as (i & item & Hi & _ & Hfields).
  destruct i as [|[|i]]; [| |discriminate Hi]; injection Hi as <-.
  - left. destruct Hfields as (Hkeep & text & r & now & _ & Hr & Hri & _).
    injection Hr as <-. split; [exact Hri|].
    rewrite Hkeep; [reflexivity|].
    unfold enrichmentFields. rewrite !not_elem_of_cons. repeat split; try discriminate.
    apply not_elem_of_nil.
  - right. destruct Hfields as (_ & Hkeep & Herr & Hri & _).
    split; [exact Hri|]. split; [exact Herr|].
    rewrite Hkeep; [reflexivity|].
    unfold errorFields, enrichmentFields. rewrite !not_elem_of_cons.
    repeat split; try discriminate. apply not_elem_of_nil.
Defined.


(** C8 on a record whose [message] is the empty string, and on a record
    read through the inherited name [toString]. *)
Lemma C8_witness :
  textOf sampleEngine (sampleContext "discard") (plainItem [("message", JStr "")])
  = Returned (JSON_stringify sampleEngine (JObj [("message", JStr "")]))
  /\ textOf sampleEngine
       {| intentOptions := []; fallbackBehavior := "discard";
          options := {| opt_caseSensitive := Some true; opt_confidenceThreshold := None;
                        opt_inputField := Some "toString" |};
          continueOnFail := false |}
       (plainItem [("message", JStr "hi")])
     = Returned "function toString() { [native code] }".
Proof.
  split.
  - apply (proj1 (proj2 (C8_text_source sampleEngine (sampleContext "discard")
                           (plainItem [("message", JStr "")]))) (JStr "")); reflexivity.
  - apply (proj1 (proj2 (proj2 (C8_text_source sampleEngine
                                  {| intentOptions := []; fallbackBehavior := "discard";
                                     options := {| opt_caseSensitive := Some true;
                                                   opt_confidenceThreshold := None;
                                                   opt_inputField := Some "toString" |};
                                     continueOnFail := false |}
                                  (plainItem [("message", JStr "hi")]))))).
    reflexivity.
Defined.

(** C9 on two intents that both stay below the threshold. *)
Lemma C9_witness :
  recognizedIntentIndex
    (classify sampleEngine false 0.5%float "a" []
       [keywordIntent "A" "a,b,c"; keywordIntent "B" "x"])
  = (-1)%Z
  /\ recognizedIntentKey
       (classify sampleEngine false 0.5%float "a" []
          [keywordIntent "A" "a,b,c"; keywordIntent "B" "x"])
     = None.
Proof.
  destruct (C9_fall_through_confidence sampleEngine false 0.5%float "a" []
              [keywordIntent "A" "a,b,c"; keywordIntent "B" "x"]) as (Hidx & Hkey & _).
  - intros x Hx _. apply list_elem_of_In in Hx.
    destruct Hx as [<- | [<- | []]]; reflexivity.
  - split; assumption.
Defined.

(** C10 at threshold 0: the first intent has no token in the text. *)
Lemma C10_witness :
  [keywordIntent "A" "x"; keywordIntent "B" "a"] !! 0%nat = Some (keywordIntent "A" "x")
  /\ recognizedIntentIndex
       (classify sampleEngine false 0%float "a" []
          [keywordIntent "A" "x"; keywordIntent "B" "a"])
     <> Z.of_nat 0.
Proof.
  split; [reflexivity|].
  apply (C10_no_token_no_selection sampleEngine false 0%float "a" []
           [keywordIntent "A" "x"; keywordIntent "B" "a"] 0%nat (keywordIntent "A" "x") eq_refl).
  intros kw token [= <-] Hin.
  apply list_elem_of_singleton in Hin. subst token. reflexivity.
Defined.
(** ** Further properties of [execute]: placement of the records *)

(** After a push, the record at a position of a channel was there before,
    or is the pushed one at the end of the channel it was pushed to. *)
Lemma pushAt_position (rd rd' : list (list INodeExecutionData)) (i : Z) (x : INodeExecutionData)
    (c a : nat) (ch' : list INodeExecutionData) (y : INodeExecutionData) :
  pushAt rd i x = Some rd' -> rd' !! c = Some ch' -> ch' !! a = Some y ->
  exists ch,
    rd !! c = Some ch
    /\ (ch !! a = Some y \/ (c = Z.to_nat i /\ a = List.length ch /\ y = x)).
Proof.
  intros (_ & ch & Hch & ->)%pushAt_Some Hc Ha.
  apply list_lookup_insert_Some in Hc as [(Hi & Hch' & _) | (Hne & Hc)].
  - subst c ch'. exists ch. split; [exact Hch|].
    apply lookup_app_Some in Ha as [Ha | [Hge Ha]]; [now left|].
    right. apply list_lookup_singleton_Some in Ha as [Ha ->].
    repeat split. lia.
  - exists ch'. auto.
Qed.

Lemma placedInv_mono (n m : nat) (rd : list (list INodeExecutionData)) :
  (n <= m)%nat -> placedInv n rd -> placedInv m rd.
Proof.
  intros Hnm (Hlt & Hord & Huniq). split; [|split]; [|exact Hord|exact Huniq].
  intros c ch a x Hc Ha. destruct (Hlt c ch a x Hc Ha) as (i & Hi & Hin).
  exists i. split; [exact Hi | lia].
Qed.

Lemma placedInv_push (n : nat) (rd rd' : list (list INodeExecutionData)) (oi : Z)
    (out : INodeExecutionData) :
  placedInv n rd -> pushAt rd oi out = Some rd' -> pairedItem out = Some n ->
  placedInv (S n) rd'.
Proof.
  intros (Hlt & Hord & Huniq) Hpush Hout.
  assert (Hidx : forall c ch a x, rd !! c = Some ch -> ch !! a = Some x ->
                                  (pairedIndex x < n)%nat /\ pairedItem x <> Some n).
  { intros c ch a x Hc Ha. destruct (Hlt c ch a x Hc Ha) as (i & Hi & Hin).
    unfold pairedIndex. rewrite Hi. simpl. split; [lia|]. intros [= ->]. lia. }
  split; [|split].
  - intros c ch' a x Hc Ha.
    destruct (pushAt_position _ _ _ _ _ _ _ _ Hpush Hc Ha) as (ch & Hc0 & [Ha0 | (_ & _ & ->)]).
    + destruct (Hlt c ch a x Hc0 Ha0) as (i & Hi & Hin). exists i. split; [exact Hi | lia].
    + exists n. split; [exact Hout | lia].
  - intros c ch' a b x y Hc Ha Hb Hab.
    destruct (pushAt_position _ _ _ _ _ _ _ _ Hpush Hc Ha) as (ch & Hc0 & [Ha0 | (_ & Hal & ->)]);
      destruct (pushAt_position _ _ _ _ _ _ _ _ Hpush Hc Hb) as (ch1 & Hc1 & [Hb0 | (_ & Hbl & ->)]);
      rewrite Hc0 in Hc1; injection Hc1 as <-.
    + eapply Hord; eauto.
    + destruct (Hidx c ch a x Hc0 Ha0) as [Hx _].
      unfold pairedIndex at 2. rewrite Hout. simpl. exact Hx.
    + apply lookup_lt_Some in Hb0. lia.
    + lia.
  - intros c1 c2 ch1' ch2' a b x y Hc1 Hc2 Ha Hb Heq.
    destruct (pushAt_position _ _ _ _ _ _ _ _ Hpush Hc1 Ha) as (ch1 & Hc10 & [Ha0 | (-> & _ & ->)]);
      destruct (pushAt_position _ _ _ _ _ _ _ _ Hpush Hc2 Hb) as (ch2 & Hc20 & [Hb0 | (-> & _ & ->)]).
    + eapply Huniq; eauto.
    + destruct (Hidx c1 ch1 a x Hc10 Ha0) as [_ Hx]. congruence.
    + destruct (Hidx c2 ch2 b y Hc20 Hb0) as [_ Hy]. congruence.
    + reflexivity.
Qed.

(** Whatever the policy, what the loop returns keeps the channel count, holds
    at most one record per item, and has its records placed by [placedInv]. *)
Lemma itemLoop_placed (rt : Engine) (ctx : ExecuteContext) (items : list INodeExecutionData)
    (rd : list (list INodeExecutionData)) :
  itemLoop rt ctx items 0 0 (replicate (totalOutputs ctx) []) = Returned rd ->
  List.length rd = totalOutputs ctx
  /\ (emittedCount rd <= List.length items)%nat
  /\ placedInv (List.length items) rd.
Proof.
  intros Hloop.
  pose (Inv := fun (done : list INodeExecutionData) (r : list (list INodeExecutionData)) =>
                 List.length r = totalOutputs ctx
                 /\ (emittedCount r <= List.length done)%nat
                 /\ placedInv (List.length done) r).
  change (Inv ([] ++ items)%list rd).
  eapply (itemLoop_partial rt ctx Inv); [| |exact Hloop].
  - intros done item r tick r' tick' (Hlen & Hcount & Hplaced) Hp.
    unfold Inv. rewrite length_app. simpl.
    apply processItem_returned in Hp as [-> | (oi & out & Hpush & Hpaired)]; [| |exact Hlen].
    + split; [exact Hlen|]. split; [lia|]. eapply placedInv_mono; [|exact Hplaced]. lia.
    + split; [rewrite (pushAt_length _ _ _ _ Hpush); exact Hlen|].
      split; [rewrite (pushAt_emittedCount _ _ _ _ Hpush); lia|].
      rewrite Nat.add_1_r. eapply placedInv_push; [exact Hplaced | exact Hpush | exact Hpaired].
  - split; [apply length_replicate|]. split; [rewrite emittedCount_replicate; simpl; lia|].
    split; [|split].
    + intros c ch a x Hc Ha. apply lookup_replicate in Hc as [-> _]. discriminate.
    + intros c ch a b x y Hc Ha. apply lookup_replicate in Hc as [-> _]. discriminate.
    + intros c1 c2 ch1 ch2 a b x y Hc1 _ Ha. apply lookup_replicate in Hc1 as [-> _].
      discriminate.
Qed.

Lemma returned_lookup (rd : list (list INodeExecutionData)) (c a : nat)
    (ch : list INodeExecutionData) (x : INodeExecutionData) :
  returned rd !! c = Some ch -> ch !! a = Some x -> rd !! c = Some ch.
Proof.
  intros Hc Ha. apply (returned_elem rd c ch x Hc). eapply list_elem_of_lookup_2, Ha.
Qed.

(** X1: whatever the fallback policy and the continue-on-fail setting, when
    [execute] returns it returns max(1, totalOutputs) channels, holding at
    most as many records as the batch has items, and no item is emitted
    twice: two records that name the same item are the same record of the
    same channel. *)
Theorem X1_no_record_duplicated (rt : Engine) (ctx : ExecuteContext)
    (items : list INodeExecutionData) (channels : list (list INodeExecutionData)) :
  execute rt ctx items = Returned channels ->
  List.length channels = Nat.max 1 (totalOutputs ctx)
  /\ (emittedCount channels <= List.length items)%nat
  /\ forall c1 c2 ch1 ch2 a b x y,
       channels !! c1 = Some ch1 -> channels !! c2 = Some ch2 ->
       ch1 !! a = Some x -> ch2 !! b = Some y ->
       pairedItem x = pairedItem y ->
       c1 = c2 /\ a = b.
Proof.
  unfold execute.
  destruct (itemLoop _ _ _ _ _ _) as [rd|e] eqn:Hloop; [|discriminate].
  intros [= <-]. fold (returned rd).
  destruct (itemLoop_placed _ _ _ _ Hloop) as (Hlen & Hcount & Hlt & Hord & Huniq).
  split; [rewrite returned_length, Hlen; reflexivity|].
  split; [rewrite returned_emittedCount; exact Hcount|].
  intros c1 c2 ch1 ch2 a b x y Hc1 Hc2 Ha Hb Heq.
  apply (returned_lookup _ _ a _ x) in Hc1; [|exact Ha].
  apply (returned_lookup _ _ b _ y) in Hc2; [|exact Hb].
  assert (c1 = c2) as <- by (eapply Huniq; eauto).
  split; [reflexivity|]. rewrite Hc1 in Hc2. injection Hc2 as <-.
  assert (Hxy : pairedIndex x = pairedIndex y) by (unfold pairedIndex; now rewrite Heq).
  destruct (Nat.lt_trichotomy a b) as [Hab | [Hab | Hab]]; [|exact Hab|].
  - pose proof (Hord c1 ch1 a b x y Hc1 Ha Hb Hab). lia.
  - pose proof (Hord c1 ch1 b a y x Hc1 Hb Ha Hab). lia.
Qed.

(** X2: routing is stable: inside every returned channel the records stand
    in the order of the input items they come from. *)
Theorem X2_channel_order_preserved (rt : Engine) (ctx : ExecuteContext)
    (items : list INodeExecutionData) (channels : list (list INodeExecutionData)) :
  execute rt ctx items = Returned channels ->
  forall c ch a b x y,
    channels !! c = Some ch -> ch !! a = Some x -> ch !! b = Some y -> (a < b)%nat ->
    exists i j,
      pairedItem x = Some i /\ pairedItem y = Some j
      /\ (i < j)%nat /\ (j < List.length items)%nat.
Proof.
  unfold execute.
  destruct (itemLoop _ _ _ _ _ _) as [rd|e] eqn:Hloop; [|discriminate].
  intros [= <-] c ch a b x y Hc Ha Hb Hab. fold (returned rd) in Hc.
  destruct (itemLoop_placed _ _ _ _ Hloop) as (_ & _ & Hlt & Hord & _).
  apply (returned_lookup _ _ a _ x) in Hc; [|exact Ha].
  destruct (Hlt c ch a x Hc Ha) as (i & Hi & _).
  destruct (Hlt c ch b y Hc Hb) as (j & Hj & Hjn).
  exists i, j. repeat split; auto.
  pose proof (Hord c ch a b x y Hc Ha Hb Hab) as H.
  unfold pairedIndex in H. rewrite Hi, Hj in H. exact H.
Qed.

(** ** Further properties of [execute]: the [error] policy *)

(** A record with a selected intent raises no error. *)
Lemma matched_raises_nothing (rt : Engine) (ctx : ExecuteContext) (i : nat)
    (item : INodeExecutionData) :
  matched rt ctx item = true -> raisedBy rt ctx i item = None.
Proof.
  unfold matched, raisedBy, recognitionOf.
  destruct (textOf rt ctx item) as [text|e]; [|discriminate]. cbv zeta.
  destruct (thrown _); [discriminate|]. now intros ->.
Qed.

(** Under the [error] policy every record without selected intent raises
    an error. *)
Lemma unmatched_raises (rt : Engine) (ctx : ExecuteContext) (i : nat)
    (item : INodeExecutionData) :
  fallbackBehavior ctx = "error" ->
  matched rt ctx item = false ->
  raisedBy rt ctx i item
  = match textOf rt ctx item, recognitionOf rt ctx item with
    | Returned text, Returned _ => Some (NodeOperationError (noIntentMessage text) i)
    | Failed e, _ => Some e
    | _, Failed e => Some e
    end.
Proof.
  intros Hfb. unfold matched, raisedBy, recognitionOf.
  destruct (textOf rt ctx item) as [text|e]; [|reflexivity]. cbv zeta.
  destruct (thrown _); [reflexivity|]. intros ->. now rewrite Hfb.
Qed.

(** X3: under the [error] policy without continue-on-fail, [execute] fails at
    the first record for which no intent is selected, the records before it
    having one: when that record is read and classified without error, the
    error of [execute] is a [NodeOperationError] with that record's position
    and the no-intent message of its text, and the records after it are not
    looked at. *)
Theorem X3_error_policy_fails_at_first_unmatched (rt : Engine) (ctx : ExecuteContext)
    (pre post : list INodeExecutionData) (item : INodeExecutionData)
    (text : string) (r : Recognition) :
  fallbackBehavior ctx = "error" ->
  continueOnFail ctx = false ->
  Forall (fun x => matched rt ctx x = true) pre ->
  textOf rt ctx item = Returned text ->
  recognitionOf rt ctx item = Returned r ->
  (recognizedIntentIndex r < 0)%Z ->
  execute rt ctx (pre ++ item :: post)%list
  = Failed (NodeOperationError (noIntentMessage text) (List.length pre)).
Proof.
  intros Hfb Hcont Hpre Htext Hr Hidx. unfold execute.
  rewrite (itemLoop_fails_at rt ctx pre post item
             (NodeOperationError (noIntentMessage text) (List.length pre)));
    [reflexivity | apply length_replicate | |].
  - intros k x Hk. left. apply matched_raises_nothing.
    rewrite Forall_lookup in Hpre. exact (Hpre k x Hk).
  - intros rd1 tick1 Hlen. simpl.
    pose proof (processItem_spec rt ctx rd1 tick1 (List.length pre) item Hlen) as Hspec.
    rewrite unmatched_raises in Hspec.
    + rewrite Htext, Hr, Hcont in Hspec. exact Hspec.
    + exact Hfb.
    + unfold matched. rewrite Hr. now apply Z.leb_gt.
Qed.

(** X4: under the [error] policy with continue-on-fail and no intent
    configured, the [catch] block has no channel to push the error record to:
    [execute] fails on the first record with the [TypeError] of that push,
    continue-on-fail notwithstanding. *)
Theorem X4_continue_on_fail_without_channel (rt : Engine) (ctx : ExecuteContext)
    (item : INodeExecutionData) (rest : list INodeExecutionData) :
  fallbackBehavior ctx = "error" ->
  continueOnFail ctx = true ->
  intentOptions ctx = [] ->
  execute rt ctx (item :: rest) = Failed pushTypeError.
Proof.
  intros Hfb Hcont Hnone.
  assert (Hf : hasFallback ctx = false) by (unfold hasFallback; now rewrite Hfb).
  assert (Htotal : totalOutputs ctx = 0%nat)
    by (unfold totalOutputs, numIntents; now rewrite Hnone, Hf).
  assert (Hm : matched rt ctx item = false).
  { unfold matched. destruct (recognitionOf rt ctx item) as [r|] eqn:Hr; [|reflexivity].
    pose proof (recognition_index_range rt ctx item r Hr) as Hrange.
    unfold numIntents in Hrange. rewrite Hnone in Hrange. simpl in Hrange.
    apply Z.leb_gt. lia. }
  unfold execute. simpl.
  pose proof (processItem_spec rt ctx (replicate (totalOutputs ctx) []) 0 0 item
                (length_replicate _ _)) as Hspec.
  rewrite (unmatched_raises rt ctx 0 item Hfb Hm) in Hspec.
  rewrite Hcont, Htotal in Hspec. simpl in Hspec. rewrite Htotal. simpl.
  destruct (textOf rt ctx item); [destruct (recognitionOf rt ctx item)|];
    now rewrite Hspec.
Qed.

(** X6: a [fallbackBehavior] that is none of [route_to_fallback], [discard]
    and [error] is handled by the [default] branch, which skips the record:
    [execute] does what it does under [discard]. *)
Theorem X6_unknown_policy_is_discard (rt : Engine) (ctx : ExecuteContext)
    (items : list INodeExecutionData) :
  fallbackBehavior ctx <> "route_to_fallback" ->
  fallbackBehavior ctx <> "discard" ->
  fallbackBehavior ctx <> "error" ->
  execute rt ctx items = execute rt (withFallback ctx "discard") items.
Proof.
  intros Hr%String.eqb_neq Hd%String.eqb_neq He%String.eqb_neq.
  assert (Htry : forall len tick i item,
             tryBlock rt ctx len tick i item
             = tryBlock rt (withFallback ctx "discard") len tick i item).
  { intros len tick i item. unfold tryBlock, hasFallback, caseSensitive, confidenceThreshold,
      inputField. simpl. rewrite Hr, Hd, He.
    destruct (textToAnalyze rt _ _ _); [|reflexivity]. cbv zeta.
    destruct (thrown _); [reflexivity|].
    destruct (0 <=? _)%Z; reflexivity. }
  assert (Hcatch : forall rd tick i item e,
             catchBlock rt ctx rd tick i item e
             = catchBlock rt (withFallback ctx "discard") rd tick i item e).
  { intros rd tick i item e. unfold catchBlock, hasFallback. simpl. rewrite Hr. reflexivity. }
  assert (Hp : forall rd tick i item,
             processItem rt ctx rd tick i item
             = processItem rt (withFallback ctx "discard") rd tick i item).
  { intros rd tick i item. unfold processItem. rewrite Htry.
    destruct (tryBlock _ _ _ _ _ _) as [oi out| |e]; [|reflexivity|apply Hcatch].
    destruct (pushAt rd oi out); [reflexivity | apply Hcatch]. }
  assert (Hloop : forall l i tick rd,
             itemLoop rt ctx l i tick rd
             = itemLoop rt (withFallback ctx "discard") l i tick rd).
  { induction l as [|item l IH]; intros i tick rd; simpl; [reflexivity|].
    rewrite Hp. destruct (processItem _ _ _ _ _ _) as [[rd' tick']|e]; [apply IH | reflexivity]. }
  unfold execute. rewrite Hloop.
  unfold totalOutputs, hasFallback, numIntents. simpl. rewrite Hr. reflexivity.
Qed.

(** X5: under the [error] policy with continue-on-fail and at least one
    intent, [execute] always returns, with one channel per intent and one
    record per input record.  A record with a selected intent is in that
    intent's channel with its binary attachment.  Every other record is in
    channel 0, the first intent's channel, as an error record with a null
    [recognizedIntent] and no binary attachment: it carries the no-intent
    message of its text when it was read and classified, and the message of
    the [TypeError] it raised otherwise. *)
Theorem X5_error_records_in_first_channel (rt : Engine) (ctx : ExecuteContext)
    (items : list INodeExecutionData) :
  fallbackBehavior ctx = "error" ->
  continueOnFail ctx = true ->
  intentOptions ctx <> [] ->
  exists channels,
    execute rt ctx items = Returned channels
    /\ List.length channels = List.length (intentOptions ctx)
    /\ emittedCount channels = List.length items
    /\ forall c ch out,
         channels !! c = Some ch -> out ∈ ch ->
         exists i item,
           items !! i = Some item
           /\ pairedItem out = Some i
           /\ if matched rt ctx item
              then (exists r, recognitionOf rt ctx item = Returned r
                              /\ Z.of_nat c = recognizedIntentIndex r)
                   /\ binary out = binary item
              else c = 0%nat
                   /\ getProp "error" (json out)
                      = Some (JStr match textOf rt ctx item, recognitionOf rt ctx item with
                                   | Returned text, Returned _ => noIntentMessage text
                                   | Failed e, _ => error_message e
                                   | _, Failed e => error_message e
                                   end)
                   /\ recognizedIntentOf out = Some JNull
                   /\ binary out = None.
Proof.
  intros Hfb Hcont Hsome.
  assert (Hf : hasFallback ctx = false) by (unfold hasFallback; now rewrite Hfb).
  assert (Htotal : totalOutputs ctx = List.length (intentOptions ctx)).
  { unfold totalOutputs, numIntents. rewrite Hf. lia. }
  assert (Hpos : (0 < List.length (intentOptions ctx))%nat).
  { destruct (intentOptions ctx); [congruence | simpl; lia]. }
  destruct (execute_returns rt ctx items) as [channels Hex].
  { intros k item Hk. right. split; [exact Hcont | lia]. }
  exists channels. split; [exact Hex|].
  destruct (execute_routed rt ctx items channels Hex) as (rd & -> & Hlen & Hcount & Hmem).
  split; [rewrite returned_length, Hlen; lia|].
  split.
  - rewrite returned_emittedCount, Hcount. f_equal. apply filter_all.
    intros i item Hi. unfold emits. rewrite Hcont, Hf, orb_false_r.
    destruct (raisedBy rt ctx 0 item) as [e|] eqn:Hraise; [reflexivity|].
    destruct (matched rt ctx item) eqn:Hm; [reflexivity|].
    rewrite (unmatched_raises rt ctx 0 item Hfb Hm) in Hraise.
    destruct (textOf rt ctx item); [destruct (recognitionOf rt ctx item)|]; discriminate.
  - intros c ch out Hc Hout. apply (returned_elem _ _ _ out) in Hc; [|exact Hout].
    destruct (Hmem c ch out Hc Hout) as (i & item & Hi & Hrec).
    exists i, item. split; [exact Hi|]. unfold recordOf in Hrec.
    destruct (matched rt ctx item) eqn:Hm.
    + rewrite (matched_raises_nothing rt ctx i item Hm) in Hrec.
      destruct Hrec as (text & r & now & _ & Hr & -> & Hroute).
      split; [reflexivity|]. unfold matched in Hm. rewrite Hr in Hm. rewrite Hm in Hroute.
      split; [|reflexivity]. exists r. auto.
    + rewrite (unmatched_raises rt ctx i item Hfb Hm) in Hrec.
      unfold errorOutputIndex in Hrec. rewrite Hf in Hrec.
      destruct (textOf rt ctx item) as [text|e1];
        [destruct (recognitionOf rt ctx item) as [r|e2]|];
        destruct Hrec as (_ & -> & now & ->);
        (split; [reflexivity|]); (split; [reflexivity|]);
        match goal with
        | |- context [errorItemOf item i ?m now] =>
            destruct (errorJson_fields (json item) m now) as (He & Hri & _)
        end; repeat split; assumption.
Qed.

(** ** Further properties of the classifier *)

Lemma prefix_split (k text : string) :
  String.prefix k text = true <-> exists post, text = k ++ post.
Proof.
  revert text. induction k as [|c k IH]; intros text; simpl.
  - split; [intros _; now exists text | intros _; destruct text; reflexivity].
  - destruct text as [|c' text]; [split; [discriminate | intros [post H]; discriminate]|].
    simpl. destruct (Ascii.ascii_dec c c') as [<- | Hne].
    + rewrite IH. split; intros [post H]; exists post; congruence.
    + split; [discriminate | intros [post H]; congruence].
Qed.

(** [includes] is the occurrence as a contiguous substring. *)
Lemma includes_split (text k : string) :
  JsString.includes text k = true <-> exists pre post, text = pre ++ k ++ post.
Proof.
  induction text as [|c text IH].
  - cbn [JsString.includes]. rewrite orb_false_r, prefix_split. split.
    + intros [post H]. now exists "", post.
    + intros (pre & post & H). destruct pre; [now exists post | discriminate].
  - cbn [JsString.includes]. rewrite orb_true_iff, prefix_split, IH. split.
    + intros [[post H] | (pre & post & H)].
      * now exists "", post.
      * exists (String c pre), post. simpl. now rewrite H.
    + intros (pre & post & H). destruct pre as [|c' pre].
      * left. now exists post.
      * right. simpl in H. injection H as _ H. now exists pre, post.
Qed.

(** X10: keyword matching is by substring, not by word: an intent has a
    keyword match on a text exactly when its keyword string is non-empty and
    one of its tokens (lower-cased unless matching is case sensitive) occurs
    somewhere in the text, inside a longer word or not. *)
Theorem X10_match_is_substring (rt : Engine) (cs : bool) (text : string) (intent : Intent) :
  hasKeywordMatch rt cs text intent = true
  <-> exists kw token pre post,
        keywords intent = Some kw /\ kw <> ""
        /\ token ∈ keywordsOf rt kw
        /\ text = pre ++ normalizeCase rt cs token ++ post.
Proof.
  split.
  - intros Hm. destruct (hasKeywordMatch_found rt cs text intent Hm)
      as (kw & token & Hkw & Hne & Hin & (pre & post & Hinc)%includes_split).
    now exists kw, token, pre, post.
  - intros (kw & token & pre & post & Hkw & Hne & Hin & Htext).
    unfold hasKeywordMatch. rewrite Hkw. apply nonEmpty_true in Hne. rewrite Hne. simpl.
    assert (Hf : List.In token (keywordMatches rt cs text (keywordsOf rt kw))).
    { unfold keywordMatches. apply List.filter_In. split; [now apply list_elem_of_In|].
      apply includes_split. now exists pre, post. }
    destruct (keywordMatches rt cs text (keywordsOf rt kw)); [inversion Hf | reflexivity].
Qed.

Section LowerCase.

Variable rt : Engine.
Hypothesis regular : lowerCaseRegular rt.

Lemma toLowerCase_keywordsOf (kw : string) :
  keywordsOf rt (toLowerCase rt kw) = List.map (toLowerCase rt) (keywordsOf rt kw).
Proof.
  destruct regular as (_ & Hsplit & Htrim & _).
  unfold keywordsOf. rewrite Hsplit, !List.map_map.
  apply List.map_ext. intros s. symmetry. apply Htrim.
Qed.

Lemma keywordMatches_lower_length (text : string) (kws : list string) :
  List.length (keywordMatches rt false text (List.map (toLowerCase rt) kws))
  = List.length (keywordMatches rt false text kws).
Proof.
  destruct regular as (Hidem & _).
  unfold keywordMatches, normalizeCase.
  induction kws as [|k kws IH]; simpl; [reflexivity|].
  rewrite Hidem.
  destruct (JsString.includes text (toLowerCase rt k)); simpl; now rewrite IH.
Qed.

Lemma lowerKeywords_confidence (text : string) (intent : Intent) :
  hasKeywordMatch rt false text (lowerKeywords rt intent) = hasKeywordMatch rt false text intent
  /\ perIntentConfidence rt false text (lowerKeywords rt intent)
     = perIntentConfidence rt false text intent.
Proof.
  unfold hasKeywordMatch, perIntentConfidence, matchRatio, lowerKeywords. simpl.
  destruct (keywords intent) as [kw|]; simpl; [|auto].
  destruct regular as (_ & _ & _ & Hne).
  rewrite Hne, toLowerCase_keywordsOf, keywordMatches_lower_length, length_map. auto.
Qed.

End LowerCase.

(** X9: when matching is not case sensitive, the letter case of the
    configured keywords does not matter, on an engine whose [toLowerCase]
    gives applied twice what it gives once, commutes with cutting at commas
    and with trimming, and gives the empty string for the empty string only:
    lower-casing every keyword string leaves the outcome of the
    classification (index, key, parameters, confidence and the error of the
    extraction) as it is. *)
Theorem X9_keyword_case_is_irrelevant (rt : Engine) (thr : float) (text : string)
    (itemJson : JsObject) (intents : list Intent) :
  lowerCaseRegular rt ->
  classify rt false thr text itemJson (List.map (lowerKeywords rt) intents)
  = classify rt false thr text itemJson intents.
Proof.
  intros Hreg. unfold classify. generalize 0%nat as i, 0%float as c0.
  induction intents as [|intent rest IH]; intros i c0; [reflexivity|].
  cbn [List.map]. rewrite !recognize_cons.
  destruct (lowerKeywords_confidence rt Hreg text intent) as [Hm Hc].
  unfold selectable, reachesThreshold, selectionOf. rewrite Hm, Hc, IH. reflexivity.
Qed.

Lemma asciiLowerChar_idem (c : ascii) : asciiLowerChar (asciiLowerChar c) = asciiLowerChar c.
Proof. destruct c as [[] [] [] [] [] [] [] []]; reflexivity. Qed.

Lemma asciiLowerChar_space (c : ascii) :
  asciiWhiteSpace (asciiLowerChar c) = asciiWhiteSpace c.
Proof. destruct c as [[] [] [] [] [] [] [] []]; reflexivity. Qed.

Lemma asciiLowerChar_comma (c : ascii) :
  Ascii.eqb (asciiLowerChar c) JsString.comma = Ascii.eqb c JsString.comma.
Proof. destruct c as [[] [] [] [] [] [] [] []]; reflexivity. Qed.

Lemma asciiToLowerCase_trimStart (s : string) :
  JsString.trimStart asciiWhiteSpace (asciiToLowerCase s)
  = asciiToLowerCase (JsString.trimStart asciiWhiteSpace s).
Proof.
  induction s as [|c s IH]; simpl; [reflexivity|].
  rewrite asciiLowerChar_space. destruct (asciiWhiteSpace c); [exact IH | reflexivity].
Qed.

Lemma asciiToLowerCase_trimEnd (s : string) :
  JsString.trimEnd asciiWhiteSpace (asciiToLowerCase s)
  = asciiToLowerCase (JsString.trimEnd asciiWhiteSpace s).
Proof.
  induction s as [|c s IH]; simpl; [reflexivity|].
  rewrite IH, asciiLowerChar_space.
  destruct (JsString.trimEnd asciiWhiteSpace s); simpl; [destruct (asciiWhiteSpace c)|];
    reflexivity.
Qed.

(** The sample engine is regular. *)
Lemma sampleEngine_regular : lowerCaseRegular sampleEngine.
Proof.
  unfold lowerCaseRegular. simpl. repeat split.
  - induction s as [|c s IH]; simpl; [reflexivity|]. now rewrite asciiLowerChar_idem, IH.
  - induction s as [|c s IH]; simpl; [reflexivity|].
    rewrite asciiLowerChar_comma, IH.
    destruct (Ascii.eqb c JsString.comma); [reflexivity|].
    destruct (JsString.split JsString.comma s); reflexivity.
  - intros s. unfold JsString.trim.
    now rewrite asciiToLowerCase_trimStart, asciiToLowerCase_trimEnd.
  - intros s. destruct s; reflexivity.
Qed.

Section Tokens.

Variable isWhiteSpace : ascii -> bool.

Lemma split_length (s : string) :
  List.length (JsString.split JsString.comma s) = S (occurrences JsString.comma s).
Proof.
  induction s as [|c s IH]; simpl; [reflexivity|].
  destruct (Ascii.eqb c JsString.comma); simpl; [now rewrite IH|].
  pose proof (split_not_nil JsString.comma s) as Hne.
  destruct (JsString.split JsString.comma s); [congruence | exact IH].
Qed.

Lemma split_no_separator (s tok : string) :
  List.In tok (JsString.split JsString.comma s) -> occurrences JsString.comma tok = 0%nat.
Proof.
  revert tok. induction s as [|c s IH]; intros tok; simpl.
  - intros [<- | []]. reflexivity.
  - destruct (Ascii.eqb c JsString.comma) eqn:Hc.
    + intros [<- | Hin]; [reflexivity | now apply IH].
    + pose proof (split_not_nil JsString.comma s) as Hne.
      destruct (JsString.split JsString.comma s) as [|t rest]; [congruence|].
      intros [<- | Hin].
      * simpl. rewrite Hc. apply IH. now left.
      * apply IH. now right.
Qed.

Lemma trimStart_occurrences (c : ascii) (s : string) :
  occurrences c s = 0%nat -> occurrences c (JsString.trimStart isWhiteSpace s) = 0%nat.
Proof.
  induction s as [|c' s IH]; simpl; [auto|].
  destruct (isWhiteSpace c'); [|auto].
  intros H. apply IH. lia.
Qed.

Lemma trimEnd_occurrences (c : ascii) (s : string) :
  occurrences c s = 0%nat -> occurrences c (JsString.trimEnd isWhiteSpace s) = 0%nat.
Proof.
  induction s as [|c' s IH]; simpl; [auto|].
  intros H. assert (H1 : occurrences c s = 0%nat) by lia. specialize (IH H1).
  destruct (JsString.trimEnd isWhiteSpace s) as [|c2 t].
  - destruct (isWhiteSpace c'); simpl; lia.
  - change (occurrences c (String c' (String c2 t)))
      with ((if Ascii.eqb c' c then 1 else 0) + occurrences c (String c2 t))%nat. lia.
Qed.

Lemma trimStart_idem (s : string) :
  JsString.trimStart isWhiteSpace (JsString.trimStart isWhiteSpace s)
  = JsString.trimStart isWhiteSpace s.
Proof.
  induction s as [|c s IH]; simpl; [reflexivity|].
  destruct (isWhiteSpace c) eqn:Hc; [exact IH|]. simpl. now rewrite Hc.
Qed.

Lemma trimEnd_idem (s : string) :
  JsString.trimEnd isWhiteSpace (JsString.trimEnd isWhiteSpace s)
  = JsString.trimEnd isWhiteSpace s.
Proof.
  induction s as [|c s IH]; simpl; [reflexivity|].
  destruct (JsString.trimEnd isWhiteSpace s) as [|c2 t] eqn:Ht.
  - destruct (isWhiteSpace c) eqn:Hc; simpl; [reflexivity | now rewrite Hc].
  - change (JsString.trimEnd isWhiteSpace (String c (String c2 t)))
      with (match JsString.trimEnd isWhiteSpace (String c2 t) with
            | EmptyString =>
                if isWhiteSpace c then EmptyString else String c EmptyString
            | t' => String c t'
            end).
    rewrite IH. reflexivity.
Qed.

(** Trimming the end of a string without leading white space leaves it
    without leading white space. *)
Lemma trimStart_trimEnd (s : string) :
  JsString.trimStart isWhiteSpace s = s ->
  JsString.trimStart isWhiteSpace (JsString.trimEnd isWhiteSpace s)
  = JsString.trimEnd isWhiteSpace s.
Proof.
  destruct s as [|c s]; [reflexivity|]. simpl.
  destruct (isWhiteSpace c) eqn:Hc.
  - intros H. exfalso.
    assert (Hlen : forall t,
               (String.length (JsString.trimStart isWhiteSpace t) <= String.length t)%nat).
    { induction t as [|c' t IHt]; simpl; [lia|].
      destruct (isWhiteSpace c'); simpl; lia. }
    pose proof (Hlen s) as Hs. rewrite H in Hs. simpl in Hs. lia.
  - intros _. destruct (JsString.trimEnd isWhiteSpace s); simpl; now rewrite Hc.
Qed.

Lemma trim_noOuterSpace (s : string) :
  noOuterSpace isWhiteSpace (JsString.trim isWhiteSpace s).
Proof.
  unfold noOuterSpace, JsString.trim. split.
  - apply (trimStart_trimEnd (JsString.trimStart isWhiteSpace s)), trimStart_idem.
  - apply trimEnd_idem.
Qed.

End Tokens.

(** X11: the keyword string is cut at every comma and nowhere else: the
    number of tokens, the denominator of the confidence, is the number of
    commas plus one (empty tokens counted), and every token is free of commas
    and of leading and trailing white space. *)
Theorem X11_tokens_of_keyword_string (rt : Engine) (kw : string) :
  List.length (keywordsOf rt kw) = S (occurrences JsString.comma kw)
  /\ forall token, token ∈ keywordsOf rt kw ->
       occurrences JsString.comma token = 0%nat /\ noOuterSpace (isWhiteSpace rt) token.
Proof.
  unfold keywordsOf. split; [now rewrite length_map, split_length|].
  intros token Hin. apply list_elem_of_In, List.in_map_iff in Hin as (raw & <- & Hraw).
  split; [|apply trim_noOuterSpace].
  unfold JsString.trim. apply trimEnd_occurrences, trimStart_occurrences.
  now apply (split_no_separator kw).
Qed.

(** ** Further properties: what the emitted records hold *)

Lemma substring0_length (n : nat) (s : string) :
  (String.length (JsString.substring0 n s) <= n)%nat.
Proof.
  unfold JsString.substring0. revert s.
  induction n as [|n IH]; intros [|c s]; simpl; try lia.
  specialize (IH s). lia.
Qed.

Lemma substring0_prefix (n : nat) (s : string) :
  exists rest, s = JsString.substring0 n s ++ rest.
Proof.
  unfold JsString.substring0. revert s.
  induction n as [|n IH]; intros [|c s]; simpl.
  - now exists "".
  - now exists (String c s).
  - now exists "".
  - destruct (IH s) as [rest Hrest]. exists rest. now rewrite <- Hrest.
Qed.

(** X8: [extractedParameters] is a well-formed object made of declared
    names only: no name occurs twice in it, every name in it is the name of a
    parameter spec of the selected intent, and it is empty when no intent is
    selected. *)
Theorem X8_extracted_names_are_declared (rt : Engine) (cs : bool) (thr : float) (text : string)
    (itemJson : JsObject) (intents : list Intent) :
  NoDup (fieldNames (extractedParameters (classify rt cs thr text itemJson intents)))
  /\ (recognizedIntentIndex (classify rt cs thr text itemJson intents) = (-1)%Z ->
      extractedParameters (classify rt cs thr text itemJson intents) = [])
  /\ forall name,
       name ∈ fieldNames (extractedParameters (classify rt cs thr text itemJson intents)) ->
       exists k sel params p,
         intents !! k = Some sel
         /\ recognizedIntentIndex (classify rt cs thr text itemJson intents) = Z.of_nat k
         /\ parameters sel = Some params
         /\ p ∈ params /\ param_key p = name.
Proof.
  unfold classify.
  destruct (first_selectable rt cs thr text intents)
    as [Hnone | (pre & sel & post & -> & Hpre & Hsel)].
  - destruct (recognize_none rt cs thr text itemJson intents 0 0%float Hnone) as (c & -> & _).
    simpl. split; [apply NoDup_nil_2|]. split; [reflexivity|].
    intros name Hname. inversion Hname.
  - rewrite (recognize_first rt cs thr text itemJson pre post sel 0 0%float Hpre Hsel).
    unfold selectionOf, extraction. cbn [extractedParameters recognizedIntentIndex].
    destruct (parameters sel) as [params|] eqn:Hparams.
    + destruct (extractParameters_names itemJson params emptyParameters
                  (NoDup_nil_2 (A := string))) as [Hdup Hnames].
      split; [exact Hdup|]. split; [lia|].
      intros name Hname. destruct (Hnames name Hname) as [Hnil | (p & Hp & Hkey)];
        [inversion Hnil|].
      exists (List.length pre), sel, params, p. repeat split; auto.
      rewrite lookup_app_r by lia. now rewrite Nat.sub_diag.
    + simpl. split; [apply NoDup_nil_2|]. split; [lia|].
      intros name Hname. inversion Hname.
Qed.

(** X7: under a policy other than [error], every record [execute] returns
    carries the position of the input record it comes from.  When that
    record was read and classified without error, the returned record
    carries its binary attachment, and a metadata block with the confidence
    of the classification and an input text that is the first 200 characters
    of the analysed text at most.  When it raised an error (then
    continue-on-fail is set), the returned record carries no binary
    attachment and the metadata block of an error: confidence 0 and the
    [error] mark. *)
Theorem X7_attachment_and_metadata (rt : Engine) (ctx : ExecuteContext)
    (items : list INodeExecutionData) (channels : list (list INodeExecutionData)) :
  fallbackBehavior ctx <> "error" ->
  execute rt ctx items = Returned channels ->
  forall c ch out,
    channels !! c = Some ch -> out ∈ ch ->
    exists i item now,
      items !! i = Some item
      /\ pairedItem out = Some i
      /\ match recognitionOf rt ctx item with
         | Returned r =>
             exists text inputText rest,
               textOf rt ctx item = Returned text
               /\ binary out = binary item
               /\ getProp "intentMetadata" (json out)
                  = Some (JObj [("confidence", JNum (confidence r));
                                ("processingTime", JStr now);
                                ("inputText", JStr inputText)])
               /\ (String.length inputText <= 200)%nat
               /\ text = inputText ++ rest
         | Failed e =>
             continueOnFail ctx = true
             /\ binary out = None
             /\ getProp "intentMetadata" (json out)
                = Some (JObj [("confidence", JNum 0%float);
                              ("processingTime", JStr now);
                              ("error", JBool true)])
         end.
Proof.
  intros Hne Hex c ch out Hc Hout.
  destruct (execute_routed rt ctx items channels Hex) as (rd & -> & _ & _ & Hmem).
  apply (returned_elem _ _ _ out) in Hc; [|exact Hout].
  destruct (Hmem c ch out Hc Hout) as (i & item & Hi & Hrec).
  unfold recordOf in Hrec. rewrite (raisedBy_no_error_policy rt ctx i item Hne) in Hrec.
  destruct (recognitionOf rt ctx item) as [r|e] eqn:Hr.
  - destruct Hrec as (text & r' & now & Htext & [= <-] & -> & _).
    exists i, item, now. split; [exact Hi|]. split; [reflexivity|]. rewrite Hr.
    destruct (substring0_prefix 200 text) as [rest Hrest].
    exists text, (JsString.substring0 200 text), rest.
    split; [exact Htext|]. split; [reflexivity|].
    split; [apply processedJson_fields|].
    split; [apply substring0_length | exact Hrest].
  - destruct Hrec as (Hcont & _ & now & ->).
    exists i, item, now. split; [exact Hi|]. split; [reflexivity|]. rewrite Hr.
    split; [exact Hcont|]. split; [reflexivity|]. apply errorJson_fields.
Qed.

(** ** Further properties: output labels and fallback options *)

Lemma intentOutputs_lookup (intentsList : list Intent) (index i : nat) (intent : Intent) :
  intentsList !! i = Some intent ->
  intentOutputs intentsList index !! i
  = Some {| type := "main";
            displayName := if JsString.nonEmpty (key intent) then key intent
                           else "Intent " ++ decimal_of_nat (index + i + 1) |}.
Proof.
  revert index i. induction intentsList as [|x rest IH]; intros index i; [discriminate|].
  destruct i as [|i]; simpl.
  - intros [= ->]. now rewrite Nat.add_0_r.
  - intros Hi. rewrite (IH (S index) i Hi).
    replace (S index + i + 1)%nat with (index + S i + 1)%nat by lia. reflexivity.
Qed.

Lemma configuredOutputs_lookup_intent (intentsList : list Intent) (fallback : string)
    (i : nat) (intent : Intent) :
  intentsList !! i = Some intent ->
  configuredOutputs intentsList fallback !! i
  = Some {| type := "main";
            displayName := if JsString.nonEmpty (key intent) then key intent
                           else "Intent " ++ decimal_of_nat (i + 1) |}.
Proof.
  intros Hi. pose proof (lookup_lt_Some _ _ _ Hi) as Hlt.
  pose proof (intentOutputs_lookup intentsList 0 i intent Hi) as Hout.
  unfold configuredOutputs.
  destruct (String.eqb fallback "route_to_fallback").
  - rewrite length_app, intentOutputs_length.
    destruct (Nat.ltb_spec 0 (List.length intentsList + List.length
                [{| type := "main"; displayName := "Fallback" |}])); [|simpl in *; lia].
    now apply lookup_app_l_Some.
  - rewrite intentOutputs_length.
    destruct (Nat.ltb_spec 0 (List.length intentsList)); [exact Hout | lia].
Qed.

Lemma configuredOutputs_lookup_fallback (intentsList : list Intent) :
  configuredOutputs intentsList "route_to_fallback" !! List.length intentsList
  = Some {| type := "main"; displayName := "Fallback" |}.
Proof.
  unfold configuredOutputs. simpl. rewrite length_app, intentOutputs_length. simpl.
  destruct (Nat.ltb_spec 0 (List.length intentsList + 1)); [|lia].
  rewrite lookup_app_r by (rewrite intentOutputs_length; lia).
  now rewrite intentOutputs_length, Nat.sub_diag.
Qed.

(** X12: the labels [configuredOutputs] declares agree with the routing of
    [execute]: under a policy other than [error], a returned record stands
    in a channel whose output is declared.  The processed record of an item
    is in the output of the intent whose key it carries, labelled with that
    key (with [Intent n], n counted from 1, when the key is empty), or, when
    it carries no intent, in the last output, labelled [Fallback].  The error
    record of an item that raised an error carries no intent; under
    [route_to_fallback] it is in the last output, labelled [Fallback], and
    under any other policy in the first output, the one of the first
    intent. *)
Theorem X12_labels_agree_with_routing (rt : Engine) (ctx : ExecuteContext)
    (items : list INodeExecutionData) (channels : list (list INodeExecutionData)) :
  fallbackBehavior ctx <> "error" ->
  execute rt ctx items = Returned channels ->
  forall c ch out,
    channels !! c = Some ch -> out ∈ ch ->
    exists i item label,
      items !! i = Some item
      /\ pairedItem out = Some i
      /\ configuredOutputs (intentOptions ctx) (fallbackBehavior ctx) !! c = Some label
      /\ match recognitionOf rt ctx item with
         | Returned r =>
             (exists intent,
                 intentOptions ctx !! c = Some intent
                 /\ recognizedIntentOf out = Some (JStr (key intent))
                 /\ displayName label
                    = if JsString.nonEmpty (key intent) then key intent
                      else "Intent " ++ decimal_of_nat (c + 1))
             \/ (c = List.length (intentOptions ctx)
                 /\ fallbackBehavior ctx = "route_to_fallback"
                 /\ recognizedIntentOf out = Some JNull
                 /\ displayName label = "Fallback")
         | Failed e =>
             recognizedIntentOf out = Some JNull
             /\ if String.eqb (fallbackBehavior ctx) "route_to_fallback"
                then c = List.length (intentOptions ctx) /\ displayName label = "Fallback"
                else exists intent,
                       c = 0%nat /\ intentOptions ctx !! 0%nat = Some intent
                       /\ displayName label
                          = if JsString.nonEmpty (key intent) then key intent else "Intent 1"
         end.
Proof.
  intros Hne Hex c ch out Hc Hout.
  destruct (execute_routed rt ctx items channels Hex) as (rd & -> & Hlen & _ & Hmem).
  apply (returned_elem _ _ _ out) in Hc; [|exact Hout].
  destruct (Hmem c ch out Hc Hout) as (i & item & Hi & Hrec).
  pose proof (lookup_lt_Some _ _ _ Hc) as Hclt. rewrite Hlen in Hclt.
  exists i, item. unfold recordOf in Hrec.
  rewrite (raisedBy_no_error_policy rt ctx i item Hne) in Hrec.
  destruct (recognitionOf rt ctx item) as [r|e] eqn:Hr.
  - destruct Hrec as (text & r' & now & Htext & [= <-] & -> & Hroute).
    rewrite recognizedIntentOf_processed.
    destruct (0 <=? recognizedIntentIndex r)%Z eqn:Hm.
    + destruct (recognitionOf_cases rt ctx item r Hr)
        as [[Hidx _] | (k & sel & Hk & Hidx & Hkey)].
      { apply Z.leb_le in Hm. lia. }
      rewrite Hidx in Hroute. apply Nat2Z.inj in Hroute. subst k.
      eexists. split; [exact Hi|]. split; [reflexivity|].
      split; [apply (configuredOutputs_lookup_intent _ _ _ _ Hk)|].
      left. exists sel. rewrite Hkey. auto.
    + destruct Hroute as [Hf ->]. apply String.eqb_eq in Hf.
      destruct (recognitionOf_cases rt ctx item r Hr)
        as [[Hidx Hkey] | (k & sel & Hk & Hidx & _)].
      2:{ apply Z.leb_gt in Hm. lia. }
      eexists. split; [exact Hi|]. split; [reflexivity|].
      split; [rewrite Hf; apply configuredOutputs_lookup_fallback|].
      right. rewrite Hkey. auto.
  - destruct Hrec as (Hcont & -> & now & ->).
    assert (Hnull : recognizedIntentOf (errorItemOf item i (error_message e) now) = Some JNull)
      by apply errorJson_fields.
    unfold errorOutputIndex, hasFallback in *.
    destruct (String.eqb (fallbackBehavior ctx) "route_to_fallback") eqn:Hf.
    + apply String.eqb_eq in Hf.
      eexists. split; [exact Hi|]. split; [reflexivity|].
      split; [rewrite Hf; apply configuredOutputs_lookup_fallback|]. auto.
    + unfold totalOutputs, numIntents, hasFallback in Hclt. rewrite Hf in Hclt.
      destruct (intentOptions ctx) as [|intent rest] eqn:Hintents; [simpl in Hclt; lia|].
      eexists. split; [exact Hi|]. split; [reflexivity|].
      split; [apply (configuredOutputs_lookup_intent (intent :: rest) _ 0 intent eq_refl)|].
      split; [exact Hnull|]. exists intent. auto.
Qed.
Lemma intentFallbackOptions_lookup (intents : list Intent) (index i : nat) (intent : Intent) :
  intents !! i = Some intent ->
  exists o,
    intentFallbackOptions intents index !! i = Some o
    /\ option_value o = JNum (float_of_nat (index + i))
    /\ option_name o
       = "Intent: " ++ orElse (outputKey intent)
                         (orElse (Some (key intent)) (decimal_of_nat (index + i))).
Proof.
  revert index i. induction intents as [|x rest IH]; intros index i; [discriminate|].
  destruct i as [|i]; simpl.
  - intros [= ->]. rewrite Nat.add_0_r. eauto.
  - intros Hi. destruct (IH (S index) i Hi) as (o & Ho & Hv & Hn).
    exists o. replace (index + S i)%nat with (S index + i)%nat by lia. auto.
Qed.

Lemma intentFallbackOptions_values (intents : list Intent) (index : nat) (o : INodePropertyOptions) :
  o ∈ intentFallbackOptions intents index -> exists n, option_value o = JNum n.
Proof.
  revert index. induction intents as [|x rest IH]; intros index Ho; [inversion Ho|].
  simpl in Ho. apply elem_of_cons in Ho as [-> | Ho]; [simpl; eauto | eauto].
Qed.

(** X13: [getFallbackOutputOptions] offers the two policies [discard] and
    [route_to_fallback], in this order, and then one option per intent: the
    option of the i-th intent has the number i as value and is named after
    the intent's output name, else its key, else its position.  The policy
    [error] is never offered. *)
Theorem X13_fallback_options (intents : list Intent) :
  List.length (getFallbackOutputOptions intents) = (2 + List.length intents)%nat
  /\ option_value <$> getFallbackOutputOptions intents !! 0%nat = Some (JStr "discard")
  /\ option_value <$> getFallbackOutputOptions intents !! 1%nat = Some (JStr "route_to_fallback")
  /\ (forall i intent,
         intents !! i = Some intent ->
         exists o,
           getFallbackOutputOptions intents !! (2 + i)%nat = Some o
           /\ option_value o = JNum (float_of_nat i)
           /\ option_name o
              = "Intent: " ++ orElse (outputKey intent)
                                (orElse (Some (key intent)) (decimal_of_nat i)))
  /\ forall o, o ∈ getFallbackOutputOptions intents -> option_value o <> JStr "error".
Proof.
  unfold getFallbackOutputOptions. split; [|split; [|split; [|split]]].
  - simpl. f_equal. f_equal.
    generalize 0%nat. induction intents as [|x rest IH]; intros n; simpl; auto.
  - reflexivity.
  - reflexivity.
  - intros i intent Hi. exact (intentFallbackOptions_lookup intents 0 i intent Hi).
  - intros o Ho. simpl in Ho.
    apply elem_of_cons in Ho as [-> | Ho]; [discriminate|].
    apply elem_of_cons in Ho as [-> | Ho]; [discriminate|].
    destruct (intentFallbackOptions_values _ _ _ Ho) as [n ->]. discriminate.
Qed.

(** ** Properties of [ConversationAppend.execute] *)

Section ConversationAppendProperties.

Variable base64 : string -> string.
Variable clock : nat -> string.
Variable postAppend : nat -> IHttpRequestOptions -> string + AppendResponse.
Variable ctx : ConversationAppend.Context.

Lemma appendRequests_app (ks ks' : list nat) :
  appendRequests base64 ctx (ks ++ ks')%list = (appendRequests base64 ctx ks ++ appendRequests base64 ctx ks')%list.
Proof. unfold appendRequests. now rewrite List.filter_app, List.map_app. Qed.

(** One turn of the loop, in any mode: the item's request is sent when its
    parameters pass the check, and nothing else is sent. *)
Lemma turn_sent (rd : list INodeExecutionData) (i : nat) (item : INodeExecutionData)
    (w w' : World) (res : ExecResult (list INodeExecutionData)) :
  mcatch (ConversationAppend.tryBlock base64 clock postAppend ctx rd i item)
    (ConversationAppend.catchBlock clock ctx rd i item) w = (res, w') ->
  sent w' = (sent w ++ appendRequests base64 ctx [i])%list.
Proof.
  unfold mcatch, ConversationAppend.tryBlock, ConversationAppend.catchBlock, appendRequests.
  simpl. destruct (ConversationAppend.parametersMissing ctx i); simpl.
  - destruct (ConversationAppend.continueOnFail ctx); simpl; intros [= _ <-]; simpl;
      now rewrite app_nil_r.
  - unfold mbind, httpRequest.
    destruct (postAppend _ _) as [message | r]; simpl.
    + destruct (ConversationAppend.continueOnFail ctx); simpl; intros [= _ <-]; reflexivity.
    + intros [= _ <-]. reflexivity.
Qed.

(** One turn of the loop under continue-on-fail: it never fails and appends
    exactly one record, which names the item. *)
Lemma turn_continue (rd : list INodeExecutionData) (i : nat) (item : INodeExecutionData)
    (w : World) :
  ConversationAppend.continueOnFail ctx = true ->
  exists out w',
    mcatch (ConversationAppend.tryBlock base64 clock postAppend ctx rd i item)
      (ConversationAppend.catchBlock clock ctx rd i item) w
    = (Returned (rd ++ [out])%list, w')
    /\ pairedItem out = Some i.
Proof.
  intros Hcont.
  unfold mcatch, ConversationAppend.tryBlock, ConversationAppend.catchBlock.
  rewrite Hcont. destruct (ConversationAppend.parametersMissing ctx i); simpl.
  - eexists _, _. split; reflexivity.
  - unfold mbind, httpRequest.
    destruct (postAppend _ _) as [message | r]; simpl; eexists _, _; split; reflexivity.
Qed.

Lemma itemLoop_sent (items : list INodeExecutionData) :
  forall i rd w res w',
    ConversationAppend.itemLoop base64 clock postAppend ctx items i rd w = (res, w') ->
    exists n, (n <= List.length items)%nat
              /\ sent w' = (sent w ++ appendRequests base64 ctx (seq i n))%list.
Proof.
  induction items as [|item rest IH]; intros i rd w res w'; simpl.
  - intros [= _ <-]. exists 0%nat. split; [lia|]. now rewrite app_nil_r.
  - unfold mbind at 1.
    destruct (mcatch _ _ w) as [[rd1|e] w1] eqn:Hturn.
    + pose proof (turn_sent _ _ _ _ _ _ Hturn) as Hs.
      intros Hloop. destruct (IH _ _ _ _ _ Hloop) as (n & Hn & Hs').
      exists (S n). split; [lia|].
      rewrite Hs', Hs, <- app_assoc. f_equal.
      symmetry. apply (appendRequests_app [i] (seq (S i) n)).
    + pose proof (turn_sent _ _ _ _ _ _ Hturn) as Hs.
      intros [= _ <-]. exists 1%nat. split; [lia | exact Hs].
Qed.

Lemma itemLoop_continue (items : list INodeExecutionData) :
  ConversationAppend.continueOnFail ctx = true ->
  forall i rd w,
    exists added w',
      ConversationAppend.itemLoop base64 clock postAppend ctx items i rd w
      = (Returned (rd ++ added)%list, w')
      /\ List.length added = List.length items
      /\ (forall k out, added !! k = Some out -> pairedItem out = Some (i + k)%nat)
      /\ sent w' = (sent w ++ appendRequests base64 ctx (seq i (List.length items)))%list.
Proof.
  intros Hcont. induction items as [|item rest IH]; intros i rd w; simpl.
  - exists [], w. rewrite !app_nil_r. repeat split. intros k out Hk. discriminate.
  - unfold mbind at 1.
    destruct (turn_continue rd i item w Hcont) as (out & w1 & Hturn & Hout).
    rewrite Hturn. pose proof (turn_sent _ _ _ _ _ _ Hturn) as Hs.
    destruct (IH (S i) (rd ++ [out])%list w1) as (added & w' & Hloop & Hlen & Hidx & Hs').
    exists (out :: added), w'. rewrite Hloop, <- app_assoc. simpl.
    split; [reflexivity|]. split; [now rewrite Hlen|]. split.
    + intros [|k] o Hk; simpl in Hk.
      * injection Hk as <-. now rewrite Nat.add_0_r.
      * rewrite (Hidx k o Hk). f_equal. lia.
    + rewrite Hs', Hs, <- app_assoc. f_equal.
      symmetry. apply (appendRequests_app [i] (seq (S i) (List.length rest))).
Qed.

End ConversationAppendProperties.

(** X14: whatever the mode and the outcome, [ConversationAppend.execute]
    sends a request only for an item of the batch whose chat id and content
    are both non-empty, and that request is the item's append request; with
    a credential missing it fails at once, before the loop, with the
    missing-credentials error at position 0, and sends nothing. *)
Theorem X14_append_only_for_checked_items (base64 : string -> string) (clock : nat -> string)
    (postAppend : nat -> IHttpRequestOptions -> string + AppendResponse)
    (ctx : ConversationAppend.Context) (items : list INodeExecutionData)
    (res : ExecResult (list (list INodeExecutionData))) (w' : World) :
  ConversationAppend.execute base64 clock postAppend ctx items initialWorld = (res, w') ->
  (credentialsMissing (ConversationAppend.credentials ctx) = true ->
   res = Failed (NodeOperationError
                   (missingCredentialsMessage (ConversationAppend.credentials ctx)) 0)
   /\ w' = initialWorld)
  /\ forall req,
       req ∈ sent w' ->
       exists k,
         (k < List.length items)%nat
         /\ req = ConversationAppend.appendMessageOptions base64 ctx k
         /\ ConversationAppend.chatId ctx k <> ""
         /\ ConversationAppend.content ctx k <> "".
Proof.
  unfold ConversationAppend.execute.
  destruct (credentialsMissing (ConversationAppend.credentials ctx)).
  - intros [= <- <-]. split; [auto|]. intros req Hreq. inversion Hreq.
  - unfold mbind.
    destruct (ConversationAppend.itemLoop _ _ _ _ _ _ _ _) as [r w1] eqn:Hloop.
    intros Hres. split; [discriminate|].
    assert (Hw : w' = w1) by (destruct r; injection Hres; auto). subst w1.
    destruct (itemLoop_sent base64 clock postAppend ctx items _ _ _ _ _ Hloop)
      as (n & Hn & Hs).
    simpl in Hs. intros req Hreq. rewrite Hs in Hreq.
    unfold appendRequests in Hreq.
    apply list_elem_of_In, List.in_map_iff in Hreq as (k & <- & Hk).
    apply List.filter_In in Hk as [Hk Hvalid]. apply List.in_seq in Hk.
    exists k. split; [lia|]. split; [reflexivity|].
    unfold ConversationAppend.parametersMissing in Hvalid.
    apply negb_true_iff, orb_false_iff in Hvalid as [H1 H2].
    apply negb_false_iff, nonEmpty_true in H1, H2. auto.
Qed.

(** X15: with the credentials present and continue-on-fail set,
    [ConversationAppend.execute] never fails: it returns one channel with
    exactly one record per input record, the k-th record naming the k-th
    item, and it has sent the append request of every item that passes the
    parameter check, once each, in the order of the items. *)
Theorem X15_append_continue_on_fail (base64 : string -> string) (clock : nat -> string)
    (postAppend : nat -> IHttpRequestOptions -> string + AppendResponse)
    (ctx : ConversationAppend.Context) (items : list INodeExecutionData) :
  credentialsMissing (ConversationAppend.credentials ctx) = false ->
  ConversationAppend.continueOnFail ctx = true ->
  exists records w',
    ConversationAppend.execute base64 clock postAppend ctx items initialWorld
    = (Returned [records], w')
    /\ List.length records = List.length items
    /\ (forall k out, records !! k = Some out -> pairedItem out = Some k)
    /\ sent w' = appendRequests base64 ctx (seq 0 (List.length items)).
Proof.
  intros Hcred Hcont. unfold ConversationAppend.execute. rewrite Hcred.
  destruct (itemLoop_continue base64 clock postAppend ctx items Hcont 0 [] initialWorld)
    as (records & w' & Hloop & Hlen & Hidx & Hs).
  exists records, w'. unfold mbind. rewrite Hloop. simpl.
  repeat split; auto.
Qed.

Section ConversationAppendRuns.

Variable base64 : string -> string.
Variable clock : nat -> string.
Variable postAppend : nat -> IHttpRequestOptions -> string + AppendResponse.
Variable ctx : ConversationAppend.Context.

(** A run of accepted items: each turn sends the item's request and appends
    its record, built from the answer and the clock reading of the turn. *)
Lemma itemLoop_accepted (pre rest : list INodeExecutionData) :
  forall i rd w,
    List.length (sent w) = i ->
    (forall k, (i <= k < i + List.length pre)%nat -> appendAccepted base64 postAppend ctx k) ->
    exists added w',
      ConversationAppend.itemLoop base64 clock postAppend ctx (pre ++ rest)%list i rd w
      = ConversationAppend.itemLoop base64 clock postAppend ctx rest (i + List.length pre)
          (rd ++ added)%list w'
      /\ List.length added = List.length pre
      /\ sent w' = (sent w
                    ++ List.map (ConversationAppend.appendMessageOptions base64 ctx)
                         (seq i (List.length pre)))%list
      /\ forall j item,
           pre !! j = Some item ->
           exists r,
             postAppend (i + j)%nat (ConversationAppend.appendMessageOptions base64 ctx (i + j))
             = inr r
             /\ added !! j
                = Some (ConversationAppend.processedItemOf ctx (i + j) item r
                          (clock (clockReads w + j))).
Proof.
  induction pre as [|item pre IH]; intros i rd w Hsent Hacc.
  - exists [], w. simpl. rewrite !app_nil_r, Nat.add_0_r. repeat split.
    intros j item Hj. discriminate.
  - destruct (Hacc i ltac:(simpl; lia)) as [Hvalid [r Hr]].
    set (w1 := {| sent := (sent w ++ [ConversationAppend.appendMessageOptions base64 ctx i])%list;
                  clockReads := S (clockReads w) |}).
    set (out := ConversationAppend.processedItemOf ctx i item r (clock (clockReads w))).
    assert (Hturn : mcatch (ConversationAppend.tryBlock base64 clock postAppend ctx rd i item)
                      (ConversationAppend.catchBlock clock ctx rd i item) w
                    = (Returned (rd ++ [out])%list, w1)).
    { unfold mcatch, ConversationAppend.tryBlock. rewrite Hvalid.
      unfold mbind, httpRequest. rewrite Hsent, Hr. reflexivity. }
    destruct (IH (S i) (rd ++ [out])%list w1) as (added & w' & Hloop & Hlen & Hs & Hrec).
    { unfold w1. simpl. rewrite length_app. simpl. lia. }
    { intros k Hk. apply Hacc. simpl. lia. }
    exists (out :: added), w'.
    split.
    { simpl. unfold mbind at 1. rewrite Hturn, Hloop, <- app_assoc. simpl.
      replace (i + S (List.length pre))%nat with (S (i + List.length pre)) by lia.
      reflexivity. }
    split; [simpl; now rewrite Hlen|].
    split.
    { rewrite Hs. unfold w1. simpl. now rewrite <- app_assoc. }
    intros [|j] it Hj; simpl in Hj.
    + injection Hj as <-. exists r. rewrite !Nat.add_0_r. split; [exact Hr | reflexivity].
    + destruct (Hrec j it Hj) as (r' & Hr' & Hadded).
      exists r'. replace (i + S j)%nat with (S i + j)%nat by lia.
      split; [exact Hr'|]. simpl. rewrite Hadded. unfold w1. simpl.
      do 3 f_equal. lia.
Qed.

(** The two ways a turn fails without continue-on-fail. *)
Lemma turn_missing (rd : list INodeExecutionData) (i : nat) (item : INodeExecutionData)
    (w : World) :
  ConversationAppend.continueOnFail ctx = false ->
  ConversationAppend.parametersMissing ctx i = true ->
  mcatch (ConversationAppend.tryBlock base64 clock postAppend ctx rd i item)
    (ConversationAppend.catchBlock clock ctx rd i item) w
  = (Failed (NodeOperationError ConversationAppend.requiredMessage i), w).
Proof.
  intros Hcont Hmiss. unfold mcatch, ConversationAppend.tryBlock, ConversationAppend.catchBlock.
  rewrite Hmiss, Hcont. reflexivity.
Qed.

Lemma turn_rejected (rd : list INodeExecutionData) (i : nat) (item : INodeExecutionData)
    (w : World) (message : string) :
  ConversationAppend.continueOnFail ctx = false ->
  ConversationAppend.parametersMissing ctx i = false ->
  postAppend (List.length (sent w)) (ConversationAppend.appendMessageOptions base64 ctx i)
  = inl message ->
  mcatch (ConversationAppend.tryBlock base64 clock postAppend ctx rd i item)
    (ConversationAppend.catchBlock clock ctx rd i item) w
  = (Failed (ConversationAppend.appendFailed ctx i message),
     {| sent := (sent w ++ [ConversationAppend.appendMessageOptions base64 ctx i])%list;
        clockReads := clockReads w |}).
Proof.
  intros Hcont Hvalid Hrej.
  unfold mcatch, ConversationAppend.tryBlock, ConversationAppend.catchBlock.
  rewrite Hvalid, Hcont. unfold mbind, httpRequest. rewrite Hrej. reflexivity.
Qed.

End ConversationAppendRuns.

(** X16: without continue-on-fail, [ConversationAppend.execute] stops at the
    first item that fails, the items before it having been accepted.  When
    that item fails the parameter check, the error is the required-parameters
    error at its position and no request was sent for it; when the service
    rejects its request, the error is the failed-to-append error with the
    service's message and the URL, and the rejected request is the last one
    sent.  No item after it is processed. *)
Theorem X16_append_stops_at_first_failure (base64 : string -> string) (clock : nat -> string)
    (postAppend : nat -> IHttpRequestOptions -> string + AppendResponse)
    (ctx : ConversationAppend.Context)
    (pre post : list INodeExecutionData) (item : INodeExecutionData) :
  credentialsMissing (ConversationAppend.credentials ctx) = false ->
  ConversationAppend.continueOnFail ctx = false ->
  (forall k, (k < List.length pre)%nat -> appendAccepted base64 postAppend ctx k) ->
  (ConversationAppend.parametersMissing ctx (List.length pre) = true ->
   exists w',
     ConversationAppend.execute base64 clock postAppend ctx (pre ++ item :: post)%list
       initialWorld
     = (Failed (NodeOperationError ConversationAppend.requiredMessage (List.length pre)), w')
     /\ sent w' = List.map (ConversationAppend.appendMessageOptions base64 ctx)
                    (seq 0 (List.length pre)))
  /\ (forall message,
         ConversationAppend.parametersMissing ctx (List.length pre) = false ->
         postAppend (List.length pre)
           (ConversationAppend.appendMessageOptions base64 ctx (List.length pre))
         = inl message ->
         exists w',
           ConversationAppend.execute base64 clock postAppend ctx (pre ++ item :: post)%list
             initialWorld
           = (Failed (NodeOperationError
                        ("Failed to append message: " ++ message ++ ". URL: "
                         ++ cred_url (ConversationAppend.credentials ctx)
                         ++ "/api/conversations/append")
                        (List.length pre)), w')
           /\ sent w' = List.map (ConversationAppend.appendMessageOptions base64 ctx)
                          (seq 0 (S (List.length pre)))).
Proof.
  intros Hcred Hcont Hacc.
  destruct (itemLoop_accepted base64 clock postAppend ctx pre (item :: post) 0 [] initialWorld)
    as (added & w1 & Hloop & Hlen & Hs & _); [reflexivity | intros k Hk; apply Hacc; lia |].
  simpl in Hloop, Hs.
  assert (Hsent : List.length (sent w1) = List.length pre)
    by (rewrite Hs, length_map, length_seq; reflexivity).
  unfold ConversationAppend.execute. rewrite Hcred. unfold mbind at 1. rewrite Hloop.
  split.
  - intros Hmiss. exists w1. split; [|exact Hs].
    cbn [ConversationAppend.itemLoop]. unfold mbind at 1.
    rewrite (turn_missing base64 clock postAppend ctx _ _ _ _ Hcont Hmiss). reflexivity.
  - intros message Hvalid Hrej.
    exists {| sent := (sent w1
                       ++ [ConversationAppend.appendMessageOptions base64 ctx (List.length pre)])%list;
              clockReads := clockReads w1 |}.
    split.
    + unfold mbind at 1. rewrite Hloop. unfold mbind at 1.
      rewrite <- Hsent in Hrej at 1.
      rewrite (turn_rejected base64 clock postAppend ctx _ _ _ _ _ Hcont Hvalid Hrej).
      reflexivity.
    + cbn [sent]. rewrite Hs, seq_S, List.map_app. reflexivity.
Qed.

(** X17: when the credentials are present and every item is accepted,
    [ConversationAppend.execute] returns one channel whose k-th record comes
    from the k-th item: it carries the message id and the chat id the
    service answered (not the chat id parameter), [success: true], the
    item's binary attachment, and the item's JSON as [originalData] unless
    the option [includeOriginalData] is [false], in which case the record
    has no such field. *)
Theorem X17_append_success_record (base64 : string -> string) (clock : nat -> string)
    (postAppend : nat -> IHttpRequestOptions -> string + AppendResponse)
    (ctx : ConversationAppend.Context) (items : list INodeExecutionData) :
  credentialsMissing (ConversationAppend.credentials ctx) = false ->
  (forall k, (k < List.length items)%nat -> appendAccepted base64 postAppend ctx k) ->
  exists records w',
    ConversationAppend.execute base64 clock postAppend ctx items initialWorld
    = (Returned [records], w')
    /\ List.length records = List.length items
    /\ forall k item,
         items !! k = Some item ->
         exists r out,
           postAppend k (ConversationAppend.appendMessageOptions base64 ctx k) = inr r
           /\ records !! k = Some out
           /\ pairedItem out = Some k
           /\ binary out = binary item
           /\ getProp "messageId" (json out) = Some (JStr (response_messageId r))
           /\ getProp "chatId" (json out) = Some (JStr (response_chatId r))
           /\ getProp "success" (json out) = Some (JBool true)
           /\ getProp "originalData" (json out)
              = match ConversationAppend.includeOriginalData ctx k with
                | Some false => None
                | _ => Some (JObj (json item))
                end.
Proof.
  intros Hcred Hacc.
  destruct (itemLoop_accepted base64 clock postAppend ctx items [] 0 [] initialWorld)
    as (records & w' & Hloop & Hlen & _ & Hrec); [reflexivity | intros k Hk; apply Hacc; lia |].
  rewrite app_nil_r in Hloop. simpl in Hloop.
  exists records, w'. unfold ConversationAppend.execute. rewrite Hcred.
  unfold mbind. rewrite Hloop. simpl.
  split; [reflexivity|]. split; [exact Hlen|].
  intros k item Hk. destruct (Hrec k item Hk) as (r & Hr & Hout). simpl in Hr, Hout.
  exists r, (ConversationAppend.processedItemOf ctx k item r (clock k)).
  split; [exact Hr|]. split; [exact Hout|]. split; [reflexivity|]. split; [reflexivity|].
  unfold ConversationAppend.processedItemOf, ConversationAppend.outputData. simpl.
  destruct (ConversationAppend.includeOriginalData ctx k) as [[|]|]; repeat split; reflexivity.
Qed.

(** ** Properties of the service-backed [IntentRecognition] node *)

Lemma findIndex_spec (l : list Remote.IntentOption) (k : string) (index : nat) :
  (Remote.findIndex l k index = (-1)%Z
   /\ forall j y, l !! j = Some y -> Remote.intent_key y <> k)
  \/ exists c x,
       Remote.findIndex l k index = Z.of_nat (index + c)
       /\ l !! c = Some x
       /\ Remote.intent_key x = k
       /\ forall j y, (j < c)%nat -> l !! j = Some y -> Remote.intent_key y <> k.
Proof.
  revert index. induction l as [|x rest IH]; intros index; simpl.
  - left. split; [reflexivity|]. intros j y Hj. discriminate.
  - destruct (String.eqb_spec (Remote.intent_key x) k) as [Heq | Hne].
    + right. exists 0%nat, x. rewrite Nat.add_0_r. repeat split; auto.
      intros j y Hj. lia.
    + destruct (IH (S index)) as [[Hnone Hall] | (c & y & Hc & Hy & Hkey & Hfirst)].
      * left. split; [exact Hnone|]. intros [|j] z Hj; simpl in Hj; [congruence | eauto].
      * right. exists (S c), y. rewrite Hc.
        split; [f_equal; lia|]. split; [exact Hy|]. split; [exact Hkey|].
        intros [|j] z Hlt Hj; simpl in Hj; [congruence|]. apply (Hfirst j z); [lia | exact Hj].
Qed.

(** X18: the routing of a service response.  The output index is always one
    of the K+1 channels.  An intent is recognised only when the response
    names a non-empty intent that is the key of a configured intent: the
    record then goes to the first intent with that key, and no clarification
    message is kept.  In every other case the record goes to the last
    channel; a clarification message is kept only when the response names no
    intent, so a response that names an intent that is not configured loses
    its clarification message too. *)
Theorem X18_remote_routing (ctx : Remote.Context) (r : ProcessResponse) :
  (0 <= Remote.outputIndex (Remote.routeResponse ctx r) <= Z.of_nat (Remote.numIntents ctx))%Z
  /\ (forall intent,
         Remote.recognizedIntent (Remote.routeResponse ctx r) = Some intent ->
         response_intent r = Some intent /\ intent <> ""
         /\ Remote.clarificationMessage (Remote.routeResponse ctx r) = None
         /\ exists c x,
              Remote.outputIndex (Remote.routeResponse ctx r) = Z.of_nat c
              /\ Remote.intents ctx !! c = Some x
              /\ Remote.intent_key x = intent
              /\ forall j y, (j < c)%nat -> Remote.intents ctx !! j = Some y ->
                             Remote.intent_key y <> intent)
  /\ (Remote.recognizedIntent (Remote.routeResponse ctx r) = None ->
      Remote.outputIndex (Remote.routeResponse ctx r) = Z.of_nat (Remote.numIntents ctx))
  /\ (forall message,
         Remote.clarificationMessage (Remote.routeResponse ctx r) = Some message ->
         Remote.truthyString (response_intent r) = None
         /\ response_clarification_message r = Some message).
Proof.
  unfold Remote.routeResponse, Remote.totalOutputs.
  assert (Htruthy : forall s x, Remote.truthyString s = Some x -> s = Some x /\ x <> "").
  { intros [s|] x; simpl; [|discriminate].
    destruct (JsString.nonEmpty s) eqn:Hs; [|discriminate].
    intros [= <-]. split; [reflexivity | now apply nonEmpty_true]. }
  destruct (Remote.truthyString (response_intent r)) as [intent|] eqn:Hintent.
  - destruct (Htruthy _ _ Hintent) as [Hr Hne].
    destruct (findIndex_spec (Remote.intents ctx) intent 0)
      as [[Hnone _] | (c & x & Hc & Hx & Hkey & Hfirst)].
    + rewrite Hnone. simpl. repeat split; try lia; try discriminate.
    + rewrite Hc. simpl.
      destruct (Z.leb_spec 0 (Z.of_nat c)) as [_|]; [|lia]. simpl.
      pose proof (lookup_lt_Some _ _ _ Hx) as Hlt. unfold Remote.numIntents.
      split; [lia|]. split; [|split; [discriminate | discriminate]].
      intros i [= <-]. repeat split; auto. exists c, x. auto.
  - simpl. split; [lia|]. split; [discriminate|]. split; [intros _; lia|].
    intros message Hm. split; [reflexivity|].
    destruct (Htruthy _ _ Hm) as [Hr _]. exact Hr.
Qed.

Lemma routeResponse_range (ctx : Remote.Context) (r : ProcessResponse) :
  (0 <= Remote.outputIndex (Remote.routeResponse ctx r) <= Z.of_nat (Remote.numIntents ctx))%Z.
Proof.
  unfold Remote.routeResponse, Remote.totalOutputs.
  destruct (Remote.truthyString (response_intent r)) as [intent|]; [|simpl; lia].
  destruct (findIndex_spec (Remote.intents ctx) intent 0)
    as [[Hnone _] | (c & x & Hc & Hx & _)].
  - rewrite Hnone. simpl. lia.
  - rewrite Hc. simpl. destruct (Z.leb_spec 0 (Z.of_nat c)) as [_|]; [|lia]. simpl.
    pose proof (lookup_lt_Some _ _ _ Hx) as Hlt. unfold Remote.numIntents. lia.
Qed.

Section RemoteRuns.

Variable base64 : string -> string.
Variable clock : nat -> string.
Variable putSettings : nat -> IHttpRequestOptions -> string + SettingsResponse.
Variable postAppend : nat -> IHttpRequestOptions -> string + AppendResponse.
Variable postProcess : nat -> IHttpRequestOptions -> string + ProcessResponse.
Variable ctx : Remote.Context.

Lemma remote_push_in_range (rd : list (list INodeExecutionData)) (c : Z)
    (out : INodeExecutionData) (w : World) :
  List.length rd = Remote.totalOutputs ctx ->
  (0 <= c <= Z.of_nat (Remote.numIntents ctx))%Z ->
  exists rd', pushAt rd c out = Some rd' /\ Remote.push rd c out w = (Returned rd', w).
Proof.
  intros Hlen Hc. unfold Remote.totalOutputs in Hlen.
  destruct (pushAt_in_range rd c out ltac:(lia)) as [rd' Hpush].
  exists rd'. split; [exact Hpush|]. unfold Remote.push. now rewrite Hpush.
Qed.

(** One turn of the loop.  It sends the item's requests in their order, as
    far as they are accepted.  It returns with one more record, routed by the
    response when all three were accepted and an error record in the last
    channel under continue-on-fail otherwise; or it fails, without
    continue-on-fail, with the error of the rejected request. *)
Lemma remote_turn (rd : list (list INodeExecutionData)) (i : nat) (item : INodeExecutionData)
    (w w' : World) (res : ExecResult (list (list INodeExecutionData))) :
  List.length rd = Remote.totalOutputs ctx ->
  mcatch (Remote.tryBlock base64 clock putSettings postAppend postProcess ctx rd i item)
    (Remote.catchBlock clock ctx rd i item) w = (res, w') ->
  exists g,
    sent w' = (sent w ++ g)%list
    /\ g = requestsOf base64 putSettings postAppend ctx i (List.length (sent w))
    /\ match res with
       | Returned rd' =>
           exists c out,
             pushAt rd c out = Some rd'
             /\ pairedItem out = Some i
             /\ remoteRecord ctx i item c out
       | Failed e =>
           Remote.continueOnFail ctx = false
           /\ exists what url message, e = Remote.requestFailed what url i message
       end.
Proof.
  intros Hlen.
  assert (Hlast : (0 <= Z.of_nat (Remote.totalOutputs ctx) - 1
                   <= Z.of_nat (Remote.numIntents ctx))%Z)
    by (unfold Remote.totalOutputs; lia).
  assert (Hcatch : forall e w0 r w1,
             Remote.catchBlock clock ctx rd i item e w0 = (r, w1) ->
             sent w1 = sent w0
             /\ match r with
                | Returned rd' =>
                    exists c out,
                      pushAt rd c out = Some rd' /\ pairedItem out = Some i
                      /\ remoteRecord ctx i item c out
                | Failed e' =>
                    Remote.continueOnFail ctx = false /\ e' = asNodeOperationError e i
                end).
  { intros e w0 r w1. unfold Remote.catchBlock.
    destruct (Remote.continueOnFail ctx) eqn:Hcont.
    - unfold mbind, newDate.
      match goal with
      | |- Remote.push rd ?c ?out ?w2 = _ -> _ =>
          destruct (remote_push_in_range rd c out w2 Hlen Hlast) as (rd' & Hpush & ->)
      end.
      intros [= <- <-]. split; [reflexivity|].
      eexists _, _. split; [exact Hpush|]. split; [reflexivity|].
      right. split; [exact Hcont|]. split; [unfold Remote.totalOutputs; lia|]. eauto.
    - intros [= <- <-]. auto. }
  unfold mcatch, Remote.tryBlock, mbind, httpRequest, requestsOf.
  destruct (putSettings _ _) as [m1 | s]; cbn [sent clockReads].
  { intros Hc. apply Hcatch in Hc as [Hs Hres]. cbn [sent] in Hs.
    exists [Remote.putSettingsOptions base64 ctx i]. split; [exact Hs|].
    split; [reflexivity|].
    destruct res as [rd'|e]; [exact Hres|]. destruct Hres as [Hcont ->]. simpl.
    split; [exact Hcont|]. eauto. }
  rewrite length_app. cbn [List.length].
  destruct (postAppend _ _) as [m2 | a]; cbn [sent clockReads].
  { intros Hc. apply Hcatch in Hc as [Hs Hres]. cbn [sent] in Hs.
    exists [Remote.putSettingsOptions base64 ctx i; Remote.appendMessageOptions base64 ctx i].
    split; [now rewrite Hs, <- app_assoc|]. split; [reflexivity|].
    destruct res as [rd'|e]; [exact Hres|]. destruct Hres as [Hcont ->]. simpl.
    split; [exact Hcont|]. eauto. }
  rewrite length_app. cbn [List.length].
  destruct (postProcess _ _) as [m3 | p]; cbn [sent clockReads].
  { intros Hc. apply Hcatch in Hc as [Hs Hres]. cbn [sent] in Hs.
    exists [Remote.putSettingsOptions base64 ctx i; Remote.appendMessageOptions base64 ctx i;
            Remote.processOptions base64 ctx i (response_id s)].
    split; [now rewrite Hs, <- !app_assoc|]. split; [reflexivity|].
    destruct res as [rd'|e]; [exact Hres|]. destruct Hres as [Hcont ->]. simpl.
    split; [exact Hcont|]. eauto. }
  unfold newDate. cbn [sent clockReads].
  match goal with
  | |- (let (_, _) := Remote.push rd ?c ?out ?w2 in _) = _ -> _ =>
      destruct (remote_push_in_range rd c out w2 Hlen (routeResponse_range ctx p))
        as (rd' & Hpush & ->)
  end.
  intros [= <- <-]. cbn [sent].
  exists [Remote.putSettingsOptions base64 ctx i; Remote.appendMessageOptions base64 ctx i;
          Remote.processOptions base64 ctx i (response_id s)].
  split; [now rewrite <- !app_assoc|]. split; [reflexivity|].
  eexists _, _. split; [exact Hpush|]. split; [reflexivity|].
  left. eexists _, _, _. split; reflexivity.
Qed.

(** The loop, from a [returnData] with its [totalOutputs] channels: the
    requests it sends are the groups of the items it reaches, in order; when
    it returns it has reached every item and added one record for each; when
    it fails, continue-on-fail is off and the error is the one of a rejected
    request of the last item reached. *)
Lemma remote_loop (items : list INodeExecutionData) :
  forall i rd w res w',
    List.length rd = Remote.totalOutputs ctx ->
    Remote.itemLoop base64 clock putSettings postAppend postProcess ctx items i rd w
    = (res, w') ->
    exists groups,
      sent w' = (sent w ++ concat groups)%list
      /\ (List.length groups <= List.length items)%nat
      /\ (forall k g,
             groups !! k = Some g ->
             g = requestsOf base64 putSettings postAppend ctx (i + k)
                   (List.length (sent w) + List.length (concat (take k groups))))
      /\ match res with
         | Returned rd' =>
             List.length groups = List.length items
             /\ List.length rd' = List.length rd
             /\ emittedCount rd' = (emittedCount rd + List.length items)%nat
             /\ forall c ch out,
                  rd' !! c = Some ch -> out ∈ ch ->
                  (exists ch0, rd !! c = Some ch0 /\ out ∈ ch0)
                  \/ exists k item,
                       items !! k = Some item
                       /\ pairedItem out = Some (i + k)%nat
                       /\ remoteRecord ctx (i + k) item (Z.of_nat c) out
         | Failed e =>
             Remote.continueOnFail ctx = false
             /\ (0 < List.length groups)%nat
             /\ exists what url message,
                  e = Remote.requestFailed what url (i + (List.length groups - 1)) message
         end.
Proof.
  induction items as [|item rest IH]; intros i rd w res w' Hlen; simpl.
  - intros [= <- <-]. exists []. simpl. rewrite app_nil_r.
    split; [reflexivity|]. split; [lia|]. split; [intros k g Hk; discriminate|].
    repeat split; try lia. intros c ch out Hc Hout. left. eauto.
  - unfold mbind at 1.
    destruct (mcatch _ _ w) as [[rd1|e] w1] eqn:Hturn.
    + destruct (remote_turn _ _ _ _ _ _ Hlen Hturn)
        as (g & Hs & Hg & c0 & out0 & Hpush & Hpaired & Hrec).
      pose proof (pushAt_length _ _ _ _ Hpush) as Hlen1.
      intros Hloop.
      destruct (IH (S i) rd1 w1 res w' ltac:(congruence) Hloop)
        as (groups & Hs' & Hn & Hgroups & Hres).
      exists (g :: groups). simpl.
      split; [rewrite Hs', Hs, <- app_assoc; reflexivity|].
      split; [lia|].
      split.
      { intros [|k] g' Hk; simpl in Hk.
        - injection Hk as <-. subst g. simpl. now rewrite !Nat.add_0_r.
        - rewrite (Hgroups k g' Hk), Hs. cbn [take concat]. rewrite !length_app.
          f_equal; lia. }
      destruct res as [rd'|e].
      * destruct Hres as (Hall & Hlen' & Hcount & Hmem).
        split; [lia|]. split; [congruence|].
        split; [rewrite Hcount, (pushAt_emittedCount _ _ _ _ Hpush); lia|].
        intros c ch out Hc Hout.
        destruct (Hmem c ch out Hc Hout) as [(ch1 & Hc1 & Hout1) | (k & it & Hk & Hp & Hr)].
        -- destruct (pushAt_elem _ _ _ _ _ _ _ Hpush Hc1 Hout1) as [[-> ->] | Hold];
             [|now left].
           right. exists 0%nat, item. rewrite Nat.add_0_r.
           split; [reflexivity|]. split; [exact Hpaired|].
           apply pushAt_Some in Hpush as [Hc0 _]. rewrite Z2Nat.id by exact Hc0. exact Hrec.
        -- right. exists (S k), it. replace (i + S k)%nat with (S i + k)%nat by lia. auto.
      * destruct Hres as (Hcont & Hpos & what & url & message & ->).
        split; [exact Hcont|]. split; [lia|].
        exists what, url, message. f_equal. lia.
    + destruct (remote_turn _ _ _ _ _ _ Hlen Hturn)
        as (g & Hs & Hg & Hcont & what & url & message & ->).
      intros [= <- <-]. exists [g]. simpl. rewrite app_nil_r.
      split; [exact Hs|]. split; [lia|].
      split.
      { intros [|k] g' Hk; simpl in Hk; [|discriminate].
        injection Hk as <-. subst g. simpl. now rewrite !Nat.add_0_r. }
      split; [exact Hcont|]. split; [lia|].
      exists what, url, message. now rewrite Nat.add_0_r.
Qed.

(** A run of accepted items sends the three requests of each, one item
    after the other. *)
Lemma remote_loop_accepted (items : list INodeExecutionData) :
  forall i rd w,
    List.length rd = Remote.totalOutputs ctx ->
    List.length (sent w) = (3 * i)%nat ->
    (forall k, (i <= k < i + List.length items)%nat ->
               remoteAccepted base64 putSettings postAppend postProcess ctx k) ->
    exists rd' w',
      Remote.itemLoop base64 clock putSettings postAppend postProcess ctx items i rd w
      = (Returned rd', w')
      /\ sent w' = (sent w
                    ++ concat (List.map (acceptedRequests base64 putSettings ctx)
                                 (seq i (List.length items))))%list.
Proof.
  induction items as [|item rest IH]; intros i rd w Hlen Hsent Hacc.
  - exists rd, w. simpl. now rewrite app_nil_r.
  - destruct (Hacc i ltac:(simpl; lia)) as (s & a & p & Hput & Happ & Hproc).
    cbn [Remote.itemLoop]. unfold mbind at 1.
    assert (Hturn : exists rd1 w1,
               mcatch (Remote.tryBlock base64 clock putSettings postAppend postProcess ctx
                         rd i item)
                 (Remote.catchBlock clock ctx rd i item) w = (Returned rd1, w1)
               /\ List.length rd1 = List.length rd
               /\ sent w1 = (sent w ++ acceptedRequests base64 putSettings ctx i)%list).
    { unfold mcatch, Remote.tryBlock, mbind, httpRequest, acceptedRequests.
      rewrite Hsent, Hput. cbn [sent clockReads]. rewrite length_app, Hsent. cbn [List.length].
      rewrite Happ. cbn [sent clockReads]. rewrite !length_app, Hsent. cbn [List.length].
      replace (3 * i + 1 + 1)%nat with (3 * i + 2)%nat by lia.
      rewrite Hproc. unfold newDate. cbn [sent clockReads].
      match goal with
      | |- exists _ _, (let (_, _) := Remote.push rd ?c ?out ?w2 in _) = _ /\ _ =>
          destruct (remote_push_in_range rd c out w2 Hlen (routeResponse_range ctx p))
            as (rd1 & Hpush & ->)
      end.
      eexists _, _. split; [reflexivity|].
      split; [exact (pushAt_length _ _ _ _ Hpush)|].
      cbn [sent]. now rewrite <- !app_assoc. }
    destruct Hturn as (rd1 & w1 & -> & Hlen1 & Hs1).
    destruct (IH (S i) rd1 w1) as (rd' & w' & Hloop & Hs').
    { congruence. }
    { rewrite Hs1, length_app, Hsent. unfold acceptedRequests. simpl. lia. }
    { intros k Hk. apply Hacc. simpl. lia. }
    exists rd', w'. split; [exact Hloop|].
    rewrite Hs', Hs1, <- app_assoc. reflexivity.
Qed.

End RemoteRuns.

Lemma routeResponse_cases (ctx : Remote.Context) (r : ProcessResponse) :
  (exists intent c x,
      Remote.recognizedIntent (Remote.routeResponse ctx r) = Some intent
      /\ Remote.clarificationMessage (Remote.routeResponse ctx r) = None
      /\ Remote.outputIndex (Remote.routeResponse ctx r) = Z.of_nat c
      /\ Remote.intents ctx !! c = Some x
      /\ Remote.intent_key x = intent)
  \/ (Remote.recognizedIntent (Remote.routeResponse ctx r) = None
      /\ Remote.outputIndex (Remote.routeResponse ctx r) = Z.of_nat (Remote.numIntents ctx)).
Proof.
  unfold Remote.routeResponse, Remote.totalOutputs.
  destruct (Remote.truthyString (response_intent r)) as [intent|]; [|right; simpl; split; [auto | lia]].
  destruct (findIndex_spec (Remote.intents ctx) intent 0)
    as [[Hnone _] | (c & x & Hc & Hx & Hkey & _)].
  - rewrite Hnone. right. simpl. split; [auto | lia].
  - rewrite Hc. simpl. destruct (Z.leb_spec 0 (Z.of_nat c)) as [_|]; [|lia].
    left. exists intent, c, x. simpl. auto.
Qed.

Lemma remote_processed_fields (ctx : Remote.Context) (i : nat) (item : INodeExecutionData)
    (settingsId : string) (routing : Remote.Routing) (now : string) :
  getProp "recognizedIntent" (json (Remote.processedItemOf ctx i item settingsId routing now))
  = Some (jsonOfKey (Remote.recognizedIntent routing))
  /\ getProp "clarificationMessage"
       (json (Remote.processedItemOf ctx i item settingsId routing now))
     = Some (jsonOfKey (Remote.clarificationMessage routing)).
Proof.
  unfold Remote.processedItemOf. simpl. split;
    rewrite !getProp_setProp_ne by discriminate; apply getProp_setProp_eq.
Qed.

Lemma remote_error_fields (i : nat) (item : INodeExecutionData) (message now : string) :
  getProp "recognizedIntent" (json (Remote.errorItemOf i item message now)) = Some JNull
  /\ getProp "clarificationMessage" (json (Remote.errorItemOf i item message now)) = Some JNull
  /\ getProp "error" (json (Remote.errorItemOf i item message now)) = Some (JStr message).
Proof.
  unfold Remote.errorItemOf. simpl. repeat split;
    rewrite ?getProp_setProp_ne by discriminate; apply getProp_setProp_eq.
Qed.

Lemma remote_configuredOutputs_length (l : list Remote.IntentOption) :
  List.length (Remote.configuredOutputs l) = S (List.length l).
Proof.
  unfold Remote.configuredOutputs. rewrite length_app. simpl.
  assert (H : forall n, List.length (Remote.intentOutputs l n) = List.length l)
    by (induction l; intros n; simpl; auto).
  rewrite H. lia.
Qed.

(** X19: the order of the requests of the service-backed node, whatever the
    mode and the outcome.  With a credential missing [execute] fails at once
    and sends nothing.  Otherwise the requests sent are, item after item in
    the order of the batch, the requests of the items reached: the item's
    settings request; then its append request, exactly when the service
    accepted the settings request; then its process request, with the id the
    settings request was answered with, exactly when the service accepted
    the append request too.  [execute] returns only after every item was
    reached, and it fails only without continue-on-fail, with the
    failed-request error of the last item reached. *)
Theorem X19_remote_request_protocol (base64 : string -> string) (clock : nat -> string)
    (putSettings : nat -> IHttpRequestOptions -> string + SettingsResponse)
    (postAppend : nat -> IHttpRequestOptions -> string + AppendResponse)
    (postProcess : nat -> IHttpRequestOptions -> string + ProcessResponse)
    (ctx : Remote.Context) (items : list INodeExecutionData)
    (res : ExecResult (list (list INodeExecutionData))) (w' : World) :
  Remote.execute base64 clock putSettings postAppend postProcess ctx items initialWorld
  = (res, w') ->
  (credentialsMissing (Remote.credentials ctx) = true ->
   res = Failed (NodeOperationError (missingCredentialsMessage (Remote.credentials ctx)) 0)
   /\ w' = initialWorld)
  /\ exists groups,
       sent w' = concat groups
       /\ (List.length groups <= List.length items)%nat
       /\ (forall k g,
              groups !! k = Some g ->
              g = requestsOf base64 putSettings postAppend ctx k
                    (List.length (concat (take k groups))))
       /\ (forall channels, res = Returned channels ->
                            List.length groups = List.length items)
       /\ (forall e, res = Failed e ->
                     credentialsMissing (Remote.credentials ctx) = false ->
                     Remote.continueOnFail ctx = false
                     /\ exists what url message,
                          e = Remote.requestFailed what url (List.length groups - 1) message).
Proof.
  unfold Remote.execute.
  destruct (credentialsMissing (Remote.credentials ctx)).
  - intros [= <- <-]. split; [auto|]. exists []. simpl.
    repeat split; try lia; try discriminate; try (intros k g Hk; discriminate).
  - unfold mbind.
    destruct (Remote.itemLoop _ _ _ _ _ _ _ _ _ _) as [r w1] eqn:Hloop.
    intros Hres. split; [discriminate|].
    assert (Hw : w' = w1) by (destruct r; injection Hres; auto). subst w1.
    destruct (remote_loop base64 clock putSettings postAppend postProcess ctx items
                0 _ initialWorld r w' ltac:(apply length_replicate) Hloop)
      as (groups & Hs & Hn & Hgroups & Hr).
    exists groups. split; [exact Hs|]. split; [exact Hn|]. split; [exact Hgroups|].
    destruct r as [rd|e0]; simpl in Hres; injection Hres as <-.
    + split; [intros channels _; apply Hr | discriminate].
    + split; [discriminate|]. intros e [= <-] _.
      destruct Hr as (Hcont & _ & Hmsg). auto.
Qed.

(** X20: with the credentials present and continue-on-fail set, the
    service-backed [execute] never fails, whatever the service answers: it
    returns K+1 channels, as many as [configuredOutputs] declares, holding
    exactly one record per input record. *)
Theorem X20_remote_continue_on_fail (base64 : string -> string) (clock : nat -> string)
    (putSettings : nat -> IHttpRequestOptions -> string + SettingsResponse)
    (postAppend : nat -> IHttpRequestOptions -> string + AppendResponse)
    (postProcess : nat -> IHttpRequestOptions -> string + ProcessResponse)
    (ctx : Remote.Context) (items : list INodeExecutionData) :
  credentialsMissing (Remote.credentials ctx) = false ->
  Remote.continueOnFail ctx = true ->
  exists channels w',
    Remote.execute base64 clock putSettings postAppend postProcess ctx items initialWorld
    = (Returned channels, w')
    /\ List.length channels = S (List.length (Remote.intents ctx))
    /\ List.length (Remote.configuredOutputs (Remote.intents ctx)) = List.length channels
    /\ emittedCount channels = List.length items.
Proof.
  intros Hcred Hcont. unfold Remote.execute. rewrite Hcred. unfold mbind.
  destruct (Remote.itemLoop _ _ _ _ _ _ _ _ _ _) as [r w1] eqn:Hloop.
  destruct (remote_loop base64 clock putSettings postAppend postProcess ctx items
              0 _ initialWorld r w1 ltac:(apply length_replicate) Hloop)
    as (groups & _ & _ & _ & Hr).
  destruct r as [rd|e]; [|destruct Hr as [Hr _]; congruence].
  destruct Hr as (_ & Hlen & Hcount & _).
  rewrite length_replicate in Hlen. rewrite emittedCount_replicate in Hcount.
  unfold Remote.totalOutputs, Remote.numIntents in Hlen.
  exists (returned rd), w1. split; [reflexivity|].
  rewrite returned_length, returned_emittedCount, remote_configuredOutputs_length, Hlen.
  repeat split; lia.
Qed.

(** X21: what the service-backed [execute] returns, in any mode.  Every
    returned record names the input record it comes from.  A record in the
    channel of an intent carries that intent's key as [recognizedIntent]; a
    record in the last channel carries a null [recognizedIntent]; and no
    record carries both a recognised intent and a clarification message. *)
Theorem X21_remote_records_by_channel (base64 : string -> string) (clock : nat -> string)
    (putSettings : nat -> IHttpRequestOptions -> string + SettingsResponse)
    (postAppend : nat -> IHttpRequestOptions -> string + AppendResponse)
    (postProcess : nat -> IHttpRequestOptions -> string + ProcessResponse)
    (ctx : Remote.Context) (items : list INodeExecutionData)
    (channels : list (list INodeExecutionData)) (w' : World) :
  Remote.execute base64 clock putSettings postAppend postProcess ctx items initialWorld
  = (Returned channels, w') ->
  forall c ch out,
    channels !! c = Some ch -> out ∈ ch ->
    exists k item,
      items !! k = Some item
      /\ pairedItem out = Some k
      /\ (getProp "recognizedIntent" (json out) = Some JNull
          \/ getProp "clarificationMessage" (json out) = Some JNull)
      /\ match Remote.intents ctx !! c with
         | Some x => getProp "recognizedIntent" (json out) = Some (JStr (Remote.intent_key x))
         | None => c = List.length (Remote.intents ctx)
                   /\ getProp "recognizedIntent" (json out) = Some JNull
         end.
Proof.
  unfold Remote.execute.
  destruct (credentialsMissing (Remote.credentials ctx)); [discriminate|].
  unfold mbind.
  destruct (Remote.itemLoop _ _ _ _ _ _ _ _ _ _) as [r w1] eqn:Hloop.
  destruct r as [rd|e]; [|discriminate].
  intros [= <- <-] c ch out Hc Hout.
  apply (returned_elem _ _ _ out) in Hc; [|exact Hout].
  destruct (remote_loop base64 clock putSettings postAppend postProcess ctx items
              0 _ initialWorld _ w1 ltac:(apply length_replicate) Hloop)
    as (groups & _ & _ & _ & _ & _ & _ & Hmem).
  destruct (Hmem c ch out Hc Hout) as [(ch0 & Hc0 & Hout0) | (k & item & Hk & Hp & Hrec)].
  { apply lookup_replicate in Hc0 as [-> _]. inversion Hout0. }
  exists k, item. split; [exact Hk|]. split; [exact Hp|].
  assert (Hnone : Remote.intents ctx !! Remote.numIntents ctx = None)
    by (apply lookup_ge_None_2; reflexivity).
  destruct Hrec as [(settingsId & response & now & -> & Hc') | (_ & Hc' & message & now & ->)].
  - destruct (remote_processed_fields ctx (0 + k) item settingsId
                (Remote.routeResponse ctx response) now) as [Hri Hcl].
    rewrite Hri, Hcl.
    destruct (routeResponse_cases ctx response)
      as [(intent & c1 & x & -> & -> & Hidx & Hx & Hkey) | [-> Hidx]].
    + rewrite Hidx in Hc'. apply Nat2Z.inj in Hc'. subst c1.
      rewrite Hx, Hkey. simpl. auto.
    + rewrite Hidx in Hc'. apply Nat2Z.inj in Hc'. subst c.
      rewrite Hnone. simpl. auto.
  - destruct (remote_error_fields (0 + k) item message now) as (Hri & Hcl & _).
    apply Nat2Z.inj in Hc'. subst c. rewrite Hnone, Hri. auto.
Qed.

Lemma acceptedRequests_length (base64 : string -> string)
    (putSettings : nat -> IHttpRequestOptions -> string + SettingsResponse)
    (ctx : Remote.Context) (i n : nat) :
  List.length (concat (List.map (acceptedRequests base64 putSettings ctx) (seq i n)))
  = (3 * n)%nat.
Proof.
  revert i. induction n as [|n IH]; intros i; [reflexivity|].
  cbn [seq List.map concat]. rewrite length_app, IH.
  unfold acceptedRequests. destruct (putSettings _ _); simpl; lia.
Qed.

(** X22: when the credentials are present and the service accepts every
    request, the service-backed [execute] returns after sending exactly the
    three requests of each item, item after item: the settings are sent
    again for every item, and each process request carries the id its own
    settings request was answered with. *)
Theorem X22_remote_accepted_requests (base64 : string -> string) (clock : nat -> string)
    (putSettings : nat -> IHttpRequestOptions -> string + SettingsResponse)
    (postAppend : nat -> IHttpRequestOptions -> string + AppendResponse)
    (postProcess : nat -> IHttpRequestOptions -> string + ProcessResponse)
    (ctx : Remote.Context) (items : list INodeExecutionData) :
  credentialsMissing (Remote.credentials ctx) = false ->
  (forall k, (k < List.length items)%nat ->
             remoteAccepted base64 putSettings postAppend postProcess ctx k) ->
  exists channels w',
    Remote.execute base64 clock putSettings postAppend postProcess ctx items initialWorld
    = (Returned channels, w')
    /\ sent w' = concat (List.map (acceptedRequests base64 putSettings ctx)
                           (seq 0 (List.length items)))
    /\ List.length (sent w') = (3 * List.length items)%nat.
Proof.
  intros Hcred Hacc. unfold Remote.execute. rewrite Hcred. unfold mbind.
  destruct (remote_loop_accepted base64 clock putSettings postAppend postProcess ctx items
              0 (replicate (Remote.totalOutputs ctx) []) initialWorld)
    as (rd & w' & Hloop & Hs); [apply length_replicate | reflexivity | intros k Hk; apply Hacc; lia |].
  rewrite Hloop. exists (returned rd), w'. split; [reflexivity|].
  simpl in Hs. split; [exact Hs|]. rewrite Hs. apply acceptedRequests_length.
Qed.

Lemma routeResponse_intent_nonEmpty (ctx : Remote.Context) (r : ProcessResponse)
    (intent : string) :
  Remote.recognizedIntent (Remote.routeResponse ctx r) = Some intent ->
  JsString.nonEmpty intent = true.
Proof.
  unfold Remote.routeResponse, Remote.truthyString.
  destruct (response_intent r) as [s|]; [|discriminate].
  destruct (JsString.nonEmpty s) eqn:Hs; [|discriminate].
  destruct (0 <=? Remote.findIndex (Remote.intents ctx) s 0)%Z; [|discriminate].
  simpl. intros [= <-]. exact Hs.
Qed.

Lemma remote_intentOutputs_lookup (l : list Remote.IntentOption) (index i : nat)
    (x : Remote.IntentOption) :
  l !! i = Some x ->
  Remote.intentOutputs l index !! i
  = Some {| type := "main";
            displayName := if JsString.nonEmpty (Remote.intent_key x) then Remote.intent_key x
                           else "Intent " ++ decimal_of_nat (index + i + 1) |}.
Proof.
  revert index i. induction l as [|y rest IH]; intros index i; [discriminate|].
  destruct i as [|i]; simpl.
  - intros [= ->]. now rewrite Nat.add_0_r.
  - intros Hi. rewrite (IH (S index) i Hi).
    replace (S index + i + 1)%nat with (index + S i + 1)%nat by lia. reflexivity.
Qed.

Lemma remote_intentOutputs_length (l : list Remote.IntentOption) (index : nat) :
  List.length (Remote.intentOutputs l index) = List.length l.
Proof.
  revert index. induction l as [|y rest IH]; intros index; simpl; [reflexivity|].
  now rewrite IH.
Qed.

(** X23: the labels the service-backed [configuredOutputs] declares agree
    with the routing of [execute]: every returned record stands in a
    declared output; in the output of an intent the record's
    [recognizedIntent] is the output's label itself (the [Intent n] label of
    an intent with an empty key is never reached), and the last output is
    labelled [Fallback] and holds the records without recognised intent. *)
Theorem X23_remote_labels_agree_with_routing (base64 : string -> string)
    (clock : nat -> string)
    (putSettings : nat -> IHttpRequestOptions -> string + SettingsResponse)
    (postAppend : nat -> IHttpRequestOptions -> string + AppendResponse)
    (postProcess : nat -> IHttpRequestOptions -> string + ProcessResponse)
    (ctx : Remote.Context) (items : list INodeExecutionData)
    (channels : list (list INodeExecutionData)) (w' : World) :
  Remote.execute base64 clock putSettings postAppend postProcess ctx items initialWorld
  = (Returned channels, w') ->
  forall c ch out,
    channels !! c = Some ch -> out ∈ ch ->
    exists label,
      Remote.configuredOutputs (Remote.intents ctx) !! c = Some label
      /\ (((c < List.length (Remote.intents ctx))%nat
           /\ getProp "recognizedIntent" (json out) = Some (JStr (displayName label)))
          \/ (c = List.length (Remote.intents ctx)
              /\ displayName label = "Fallback"
              /\ getProp "recognizedIntent" (json out) = Some JNull)).
Proof.
  unfold Remote.execute.
  destruct (credentialsMissing (Remote.credentials ctx)); [discriminate|].
  unfold mbind.
  destruct (Remote.itemLoop _ _ _ _ _ _ _ _ _ _) as [r w1] eqn:Hloop.
  destruct r as [rd|e]; [|discriminate].
  intros [= <- <-] c ch out Hc Hout.
  apply (returned_elem _ _ _ out) in Hc; [|exact Hout].
  destruct (remote_loop base64 clock putSettings postAppend postProcess ctx items
              0 _ initialWorld _ w1 ltac:(apply length_replicate) Hloop)
    as (groups & _ & _ & _ & _ & _ & _ & Hmem).
  destruct (Hmem c ch out Hc Hout) as [(ch0 & Hc0 & Hout0) | (k & item & Hk & Hp & Hrec)].
  { apply lookup_replicate in Hc0 as [-> _]. inversion Hout0. }
  assert (Hlast : Remote.configuredOutputs (Remote.intents ctx) !! Remote.numIntents ctx
                  = Some {| type := "main"; displayName := "Fallback" |}).
  { unfold Remote.configuredOutputs, Remote.numIntents.
    rewrite lookup_app_r by (rewrite remote_intentOutputs_length; lia).
    rewrite remote_intentOutputs_length, Nat.sub_diag. reflexivity. }
  destruct Hrec as [(settingsId & response & now & -> & Hc') | (_ & Hc' & message & now & ->)].
  - destruct (remote_processed_fields ctx (0 + k) item settingsId
                (Remote.routeResponse ctx response) now) as [Hri _].
    rewrite Hri.
    destruct (routeResponse_cases ctx response)
      as [(intent & c1 & x & Hrec & _ & Hidx & Hx & Hkey) | [Hrec Hidx]].
    + rewrite Hidx in Hc'. apply Nat2Z.inj in Hc'. subst c1.
      pose proof (routeResponse_intent_nonEmpty ctx response intent Hrec) as Hne.
      rewrite Hrec. eexists. split.
      * unfold Remote.configuredOutputs. apply lookup_app_l_Some.
        apply (remote_intentOutputs_lookup _ 0 c x Hx).
      * left. split; [apply (lookup_lt_Some _ _ _ Hx)|].
        simpl. rewrite Hkey, Hne. reflexivity.
    + rewrite Hidx in Hc'. apply Nat2Z.inj in Hc'. subst c.
      rewrite Hrec. eexists. split; [exact Hlast|]. right. simpl. auto.
  - destruct (remote_error_fields (0 + k) item message now) as (Hri & _ & _).
    apply Nat2Z.inj in Hc'. subst c. rewrite Hri.
    eexists. split; [exact Hlast|]. right. simpl. auto.
Qed.

(** ** The further properties on the sample data *)

(** X1 on the sample batch under [discard]. *)
Lemma X1_witness :
  exists channels,
    execute sampleEngine (sampleContext "discard") sampleItems
    = Returned channels
    /\ List.length channels = 2%nat
    /\ (emittedCount channels <= 2)%nat
    /\ forall c1 c2 ch1 ch2 a b x y,
         channels !! c1 = Some ch1 -> channels !! c2 = Some ch2 ->
         ch1 !! a = Some x -> ch2 !! b = Some y ->
         pairedItem x = pairedItem y ->
         c1 = c2 /\ a = b.
Proof.
  destruct (execute sampleEngine (sampleContext "discard") sampleItems)
    as [channels|e] eqn:Hex; [|vm_compute in Hex; discriminate].
  exists channels. split; [reflexivity|].
  exact (X1_no_record_duplicated sampleEngine (sampleContext "discard")
           sampleItems channels Hex).
Defined.

(** X2 on the sample batch taken twice, routed with a fallback channel. *)
Lemma X2_witness :
  exists channels,
    execute sampleEngine (sampleContext "route_to_fallback")
      (sampleItems ++ sampleItems)%list
    = Returned channels
    /\ forall c ch a b x y,
         channels !! c = Some ch -> ch !! a = Some x -> ch !! b = Some y -> (a < b)%nat ->
         exists i j,
           pairedItem x = Some i /\ pairedItem y = Some j
           /\ (i < j)%nat /\ (j < 4)%nat.
Proof.
  destruct (execute sampleEngine (sampleContext "route_to_fallback")
              (sampleItems ++ sampleItems)%list)
    as [channels|e] eqn:Hex; [|vm_compute in Hex; discriminate].
  exists channels. split; [reflexivity|].
  exact (X2_channel_order_preserved sampleEngine
           (sampleContext "route_to_fallback") (sampleItems ++ sampleItems)%list channels Hex).
Defined.

(** X3 on the sample batch: the second record names no intent. *)
Lemma X3_witness :
  fallbackBehavior (sampleContext "error") = "error"
  /\ continueOnFail (sampleContext "error") = false
  /\ execute sampleEngine (sampleContext "error") sampleItems
     = Failed (NodeOperationError (noIntentMessage "good bye") 1).
Proof.
  split; [reflexivity|]. split; [reflexivity|].
  destruct (recognitionOf sampleEngine (sampleContext "error")
              (plainItem [("message", JStr "good bye")]))
    as [r|e] eqn:Hr; [|vm_compute in Hr; discriminate].
  apply (X3_error_policy_fails_at_first_unmatched sampleEngine (sampleContext "error")
           [plainItem [("message", JStr "Hello there")]] []
           (plainItem [("message", JStr "good bye")]) "good bye" r);
    try reflexivity; [constructor; [reflexivity | constructor] | exact Hr |].
  vm_compute in Hr. injection Hr as <-. reflexivity.
Defined.

(** X4 on the sample batch and a node without intents. *)
Lemma X4_witness :
  execute sampleEngine emptyErrorContext sampleItems
  = Failed pushTypeError.
Proof.
  exact (X4_continue_on_fail_without_channel sampleEngine
           emptyErrorContext (plainItem [("message", JStr "Hello there")])
           [plainItem [("message", JStr "good bye")]] eq_refl eq_refl eq_refl).
Defined.

(** X5 on the sample batch: both records are returned, in two channels. *)
Lemma X5_witness :
  exists channels,
    execute sampleEngine sampleErrorContext sampleItems
    = Returned channels
    /\ List.length channels = 2%nat
    /\ emittedCount channels = 2%nat.
Proof.
  destruct (X5_error_records_in_first_channel sampleEngine
              sampleErrorContext sampleItems eq_refl eq_refl)
    as (channels & Hex & Hlen & Hcount & _); [discriminate|].
  exists channels. split; [exact Hex|]. split; [exact Hlen | exact Hcount].
Defined.

(** X6 on the sample batch and the policy [drop], which the node does not
    know. *)
Lemma X6_witness :
  execute sampleEngine (sampleContext "drop") sampleItems
  = execute sampleEngine
      (withFallback (sampleContext "drop") "discard") sampleItems.
Proof.
  apply (X6_unknown_policy_is_discard sampleEngine
           (sampleContext "drop") sampleItems); discriminate.
Defined.

(** X7 on the sample batch followed by a record whose text cannot be
    read, routed with a fallback channel under continue-on-fail. *)
Lemma X7_witness :
  exists channels,
    execute sampleEngine (continuing (sampleContext "route_to_fallback"))
      (sampleItems ++ [unreadableItem])%list
    = Returned channels
    /\ forall c ch out,
         channels !! c = Some ch -> out ∈ ch ->
         exists i item now,
           (sampleItems ++ [unreadableItem])%list !! i = Some item
           /\ pairedItem out = Some i
           /\ match recognitionOf sampleEngine (continuing (sampleContext "route_to_fallback"))
                      item with
              | Returned r =>
                  exists text inputText rest,
                    textOf sampleEngine (continuing (sampleContext "route_to_fallback")) item
                    = Returned text
                    /\ binary out = binary item
                    /\ getProp "intentMetadata" (json out)
                       = Some (JObj [("confidence", JNum (confidence r));
                                     ("processingTime", JStr now);
                                     ("inputText", JStr inputText)])
                    /\ (String.length inputText <= 200)%nat
                    /\ text = inputText ++ rest
              | Failed e =>
                  continueOnFail (continuing (sampleContext "route_to_fallback")) = true
                  /\ binary out = None
                  /\ getProp "intentMetadata" (json out)
                     = Some (JObj [("confidence", JNum 0%float);
                                   ("processingTime", JStr now);
                                   ("error", JBool true)])
              end.
Proof.
  destruct (execute sampleEngine (continuing (sampleContext "route_to_fallback"))
              (sampleItems ++ [unreadableItem])%list)
    as [channels|e] eqn:Hex; [|vm_compute in Hex; discriminate].
  exists channels. split; [reflexivity|].
  apply (X7_attachment_and_metadata sampleEngine (continuing (sampleContext "route_to_fallback"))
           (sampleItems ++ [unreadableItem])%list channels); [discriminate | exact Hex].
Defined.

(** X9 on the sample engine and a keyword string with capital letters. *)
Lemma X9_witness :
  lowerCaseRegular sampleEngine
  /\ classify sampleEngine false 0.5%float "book a table" [("message", JStr "Book a table")]
       (List.map (lowerKeywords sampleEngine) [keywordIntent "booking" "Book,TABLE,Reserve"])
     = classify sampleEngine false 0.5%float "book a table" [("message", JStr "Book a table")]
         [keywordIntent "booking" "Book,TABLE,Reserve"].
Proof.
  split; [exact sampleEngine_regular|].
  apply (X9_keyword_case_is_irrelevant sampleEngine 0.5%float "book a table"
           [("message", JStr "Book a table")] [keywordIntent "booking" "Book,TABLE,Reserve"]).
  exact sampleEngine_regular.
Defined.

(** X12 on the sample batch followed by a record whose text cannot be
    read, routed with a fallback channel under continue-on-fail. *)
Lemma X12_witness :
  exists channels,
    execute sampleEngine (continuing (sampleContext "route_to_fallback"))
      (sampleItems ++ [unreadableItem])%list
    = Returned channels
    /\ forall c ch out,
         channels !! c = Some ch -> out ∈ ch ->
         exists label,
           configuredOutputs (intentOptions (sampleContext "route_to_fallback"))
             "route_to_fallback" !! c = Some label
           /\ ((exists intent,
                   intentOptions (sampleContext "route_to_fallback") !! c = Some intent
                   /\ recognizedIntentOf out = Some (JStr (key intent))
                   /\ displayName label
                      = if JsString.nonEmpty (key intent) then key intent
                        else "Intent " ++ decimal_of_nat (c + 1))
               \/ (c = 2%nat
                   /\ recognizedIntentOf out = Some JNull
                   /\ displayName label = "Fallback")).
Proof.
  destruct (execute sampleEngine (continuing (sampleContext "route_to_fallback"))
              (sampleItems ++ [unreadableItem])%list)
    as [channels|e] eqn:Hex; [|vm_compute in Hex; discriminate].
  exists channels. split; [reflexivity|].
  intros c ch out Hc Hout.
  destruct (X12_labels_agree_with_routing sampleEngine
              (continuing (sampleContext "route_to_fallback"))
              (sampleItems ++ [unreadableItem])%list channels
              ltac:(discriminate) Hex c ch out Hc Hout)
    as (i & item & label & _ & _ & Hlabel & Hcases).
  exists label. split; [exact Hlabel|].
  destruct (recognitionOf sampleEngine (continuing (sampleContext "route_to_fallback")) item)
    as [r|e].
  - destruct Hcases as [Hintent | (Hlast & _ & Hnull & Hname)]; [left; exact Hintent|].
    right. auto.
  - destruct Hcases as (Hnull & Hlast & Hname). right. auto.
Defined.

(** X14 on a batch of two items, the second without content, under
    continue-on-fail. *)
Lemma X14_witness :
  exists res w',
    ConversationAppend.execute sampleBase64 sampleClock acceptAppend
      (sampleAppendContext ["hello"; ""] true) sampleItems initialWorld
    = (res, w')
    /\ forall req,
         req ∈ sent w' ->
         exists k,
           (k < 2)%nat
           /\ req = ConversationAppend.appendMessageOptions sampleBase64
                      (sampleAppendContext ["hello"; ""] true) k
           /\ ConversationAppend.chatId (sampleAppendContext ["hello"; ""] true) k <> ""
           /\ ConversationAppend.content (sampleAppendContext ["hello"; ""] true) k <> "".
Proof.
  destruct (ConversationAppend.execute sampleBase64 sampleClock acceptAppend
              (sampleAppendContext ["hello"; ""] true) sampleItems initialWorld)
    as [res w'] eqn:Hex.
  exists res, w'. split; [reflexivity|].
  exact (proj2 (X14_append_only_for_checked_items sampleBase64 sampleClock acceptAppend
                  (sampleAppendContext ["hello"; ""] true) sampleItems res w' Hex)).
Defined.

(** X15 on the same batch, with a service that rejects every request. *)
Lemma X15_witness :
  ConversationAppend.continueOnFail (sampleAppendContext ["hello"; ""] true) = true
  /\ exists records w',
       ConversationAppend.execute sampleBase64 sampleClock rejectAll
         (sampleAppendContext ["hello"; ""] true) sampleItems initialWorld
       = (Returned [records], w')
       /\ List.length records = 2%nat
       /\ (forall k out, records !! k = Some out -> pairedItem out = Some k)
       /\ sent w' = [ConversationAppend.appendMessageOptions sampleBase64
                       (sampleAppendContext ["hello"; ""] true) 0].
Proof.
  split; [reflexivity|].
  exact (X15_append_continue_on_fail sampleBase64 sampleClock rejectAll
           (sampleAppendContext ["hello"; ""] true) sampleItems eq_refl eq_refl).
Defined.

(** X16 on a batch whose second item has no content, and on a batch whose
    first request the service rejects. *)
Lemma X16_witness :
  (exists w',
      ConversationAppend.execute sampleBase64 sampleClock acceptAppend
        (sampleAppendContext ["hello"; ""] false) sampleItems initialWorld
      = (Failed (NodeOperationError ConversationAppend.requiredMessage 1), w')
      /\ sent w' = [ConversationAppend.appendMessageOptions sampleBase64
                      (sampleAppendContext ["hello"; ""] false) 0])
  /\ exists w',
       ConversationAppend.execute sampleBase64 sampleClock rejectAll
         (sampleAppendContext ["hello"; "bye"] false) sampleItems initialWorld
       = (Failed (NodeOperationError
                    ("Failed to append message: unavailable. URL: "
                     ++ "https://intents.example/api/conversations/append") 0), w')
       /\ sent w' = [ConversationAppend.appendMessageOptions sampleBase64
                       (sampleAppendContext ["hello"; "bye"] false) 0].
Proof.
  split.
  - apply (X16_append_stops_at_first_failure sampleBase64 sampleClock acceptAppend
             (sampleAppendContext ["hello"; ""] false)
             [plainItem [("message", JStr "Hello there")]] []
             (plainItem [("message", JStr "good bye")])); try reflexivity.
    intros k Hk. split; [|eexists; reflexivity].
    destruct k as [|k]; [reflexivity | simpl in Hk; lia].
  - destruct (X16_append_stops_at_first_failure sampleBase64 sampleClock rejectAll
                (sampleAppendContext ["hello"; "bye"] false)
                [] [plainItem [("message", JStr "good bye")]]
                (plainItem [("message", JStr "Hello there")]) eq_refl eq_refl)
      as [_ Hrejected]; [intros k Hk; simpl in Hk; lia|].
    exact (Hrejected "unavailable" eq_refl eq_refl).
Defined.

(** X17 on a batch of two items the service accepts. *)
Lemma X17_witness :
  (forall k, (k < 2)%nat ->
             appendAccepted sampleBase64 acceptAppend (sampleAppendContext ["hello"; "bye"] false) k)
  /\ exists records w',
       ConversationAppend.execute sampleBase64 sampleClock acceptAppend
         (sampleAppendContext ["hello"; "bye"] false) sampleItems initialWorld
       = (Returned [records], w')
       /\ List.length records = 2%nat
       /\ forall k item,
            sampleItems !! k = Some item ->
            exists out,
              records !! k = Some out
              /\ pairedItem out = Some k
              /\ getProp "messageId" (json out) = Some (JStr "m-1")
              /\ getProp "chatId" (json out) = Some (JStr "chat-1")
              /\ getProp "success" (json out) = Some (JBool true)
              /\ getProp "originalData" (json out) = Some (JObj (json item)).
Proof.
  assert (Hacc : forall k, (k < 2)%nat ->
                           appendAccepted sampleBase64 acceptAppend
                             (sampleAppendContext ["hello"; "bye"] false) k).
  { intros k Hk. split; [|eexists; reflexivity].
    destruct k as [|[|k]]; [reflexivity | reflexivity | lia]. }
  split; [exact Hacc|].
  destruct (X17_append_success_record sampleBase64 sampleClock acceptAppend
              (sampleAppendContext ["hello"; "bye"] false) sampleItems eq_refl Hacc)
    as (records & w' & Hex & Hlen & Hrec).
  exists records, w'. split; [exact Hex|]. split; [exact Hlen|].
  intros k item Hk.
  destruct (Hrec k item Hk) as (r & out & Hr & Hout & Hp & _ & Hm & Hc & Hs & Ho).
  injection Hr as <-.
  exists out. repeat split; assumption.
Defined.

(** X19 on the sample batch and a service that accepts every request. *)
Lemma X19_witness :
  exists res w',
    Remote.execute sampleBase64 sampleClock acceptSettings acceptAppend answerBook
      (sampleRemoteContext false) sampleItems initialWorld
    = (res, w')
    /\ exists groups,
         sent w' = concat groups
         /\ (List.length groups <= 2)%nat
         /\ (forall k g,
                groups !! k = Some g ->
                g = requestsOf sampleBase64 acceptSettings acceptAppend
                      (sampleRemoteContext false) k (List.length (concat (take k groups))))
         /\ (forall channels, res = Returned channels -> List.length groups = 2%nat).
Proof.
  destruct (Remote.execute sampleBase64 sampleClock acceptSettings acceptAppend answerBook
              (sampleRemoteContext false) sampleItems initialWorld)
    as [res w'] eqn:Hex.
  exists res, w'. split; [reflexivity|].
  destruct (X19_remote_request_protocol sampleBase64 sampleClock acceptSettings acceptAppend
              answerBook (sampleRemoteContext false) sampleItems res w' Hex)
    as (_ & groups & Hs & Hn & Hgroups & Hret & _).
  exists groups. split; [exact Hs|]. split; [exact Hn|]. split; [exact Hgroups | exact Hret].
Defined.

(** X20 on the sample batch and a service that rejects the settings. *)
Lemma X20_witness :
  Remote.continueOnFail (sampleRemoteContext true) = true
  /\ exists channels w',
       Remote.execute sampleBase64 sampleClock rejectAll acceptAppend answerBook
         (sampleRemoteContext true) sampleItems initialWorld
       = (Returned channels, w')
       /\ List.length channels = 3%nat
       /\ List.length (Remote.configuredOutputs (Remote.intents (sampleRemoteContext true)))
          = List.length channels
       /\ emittedCount channels = 2%nat.
Proof.
  split; [reflexivity|].
  exact (X20_remote_continue_on_fail sampleBase64 sampleClock rejectAll acceptAppend answerBook
           (sampleRemoteContext true) sampleItems eq_refl eq_refl).
Defined.

(** X21 on the sample batch, every message recognised as the second
    intent. *)
Lemma X21_witness :
  exists channels w',
    Remote.execute sampleBase64 sampleClock acceptSettings acceptAppend answerBook
      (sampleRemoteContext false) sampleItems initialWorld
    = (Returned channels, w')
    /\ forall c ch out,
         channels !! c = Some ch -> out ∈ ch ->
         exists k item,
           sampleItems !! k = Some item
           /\ pairedItem out = Some k
           /\ (getProp "recognizedIntent" (json out) = Some JNull
               \/ getProp "clarificationMessage" (json out) = Some JNull)
           /\ match Remote.intents (sampleRemoteContext false) !! c with
              | Some x => getProp "recognizedIntent" (json out)
                          = Some (JStr (Remote.intent_key x))
              | None => c = 2%nat /\ getProp "recognizedIntent" (json out) = Some JNull
              end.
Proof.
  destruct (Remote.execute sampleBase64 sampleClock acceptSettings acceptAppend answerBook
              (sampleRemoteContext false) sampleItems initialWorld)
    as [[channels|e] w'] eqn:Hex; [|vm_compute in Hex; discriminate].
  exists channels, w'. split; [reflexivity|].
  exact (X21_remote_records_by_channel sampleBase64 sampleClock acceptSettings acceptAppend
           answerBook (sampleRemoteContext false) sampleItems channels w' Hex).
Defined.

(** X22 on the sample batch and a service that accepts every request. *)
Lemma X22_witness :
  (forall k, (k < 2)%nat ->
             remoteAccepted sampleBase64 acceptSettings acceptAppend answerBook
               (sampleRemoteContext false) k)
  /\ exists channels w',
       Remote.execute sampleBase64 sampleClock acceptSettings acceptAppend answerBook
         (sampleRemoteContext false) sampleItems initialWorld
       = (Returned channels, w')
       /\ sent w' = (acceptedRequests sampleBase64 acceptSettings (sampleRemoteContext false) 0
                     ++ acceptedRequests sampleBase64 acceptSettings
                          (sampleRemoteContext false) 1)%list
       /\ List.length (sent w') = 6%nat.
Proof.
  assert (Hacc : forall k, (k < 2)%nat ->
                           remoteAccepted sampleBase64 acceptSettings acceptAppend answerBook
                             (sampleRemoteContext false) k).
  { intros k _. eexists _, _, _. repeat split; reflexivity. }
  split; [exact Hacc|].
  destruct (X22_remote_accepted_requests sampleBase64 sampleClock acceptSettings acceptAppend
              answerBook (sampleRemoteContext false) sampleItems eq_refl Hacc)
    as (channels & w' & Hex & Hs & Hn).
  exists channels, w'. split; [exact Hex|]. split; [|exact Hn].
  rewrite Hs. reflexivity.
Defined.

(** X23 on the sample batch, every message recognised as the second
    intent. *)
Lemma X23_witness :
  exists channels w',
    Remote.execute sampleBase64 sampleClock acceptSettings acceptAppend answerBook
      (sampleRemoteContext false) sampleItems initialWorld
    = (Returned channels, w')
    /\ forall c ch out,
         channels !! c = Some ch -> out ∈ ch ->
         exists label,
           Remote.configuredOutputs (Remote.intents (sampleRemoteContext false)) !! c
           = Some label
           /\ (((c < 2)%nat
                /\ getProp "recognizedIntent" (json out) = Some (JStr (displayName label)))
               \/ (c = 2%nat
                   /\ displayName label = "Fallback"
                   /\ getProp "recognizedIntent" (json out) = Some JNull)).
Proof.
  destruct (Remote.execute sampleBase64 sampleClock acceptSettings acceptAppend answerBook
              (sampleRemoteContext false) sampleItems initialWorld)
    as [[channels|e] w'] eqn:Hex; [|vm_compute in Hex; discriminate].
  exists channels, w'. split; [reflexivity|].
  exact (X23_remote_labels_agree_with_routing sampleBase64 sampleClock acceptSettings
           acceptAppend answerBook (sampleRemoteContext false) sampleItems channels w' Hex).
Defined.
